(** * Sentinel-Agent: signal generation, dynamic risk and token-bucket limiter

    A shallow embedding of the JavaScript sources

      - [src/strategy.js]   ([analyzeMarket], [calculateConfidence]),
      - [src/risk.js]       ([calculateDynamicRisk], [validateRiskParameters]),
      - [src/rateLimiter.js] ([RateLimiter]: [refillTokens], [tryConsume],
        [waitForToken], [getAvailableTokens], [reset]),

    followed by the scenarios of their test suites and by the properties the
    specification states about them; then, beyond the specification,

      - [src/strategy.js]   ([detectCandlePatterns]),
      - [src/risk.js]       ([calculatePositionSize]),
      - [src/rateLimiter.js] ([DelayRateLimiter.wait],
        [MEXCRateLimiter.wait]),
      - [src/n8n-entry.js]  ([processForN8N]),
      - the backtest script ([openTrade], [checkAndClosePosition],
        [closeTrade], [runBacktest]),
      - [src/mexc.js]       ([buildQueryString]),

    with the properties their code shows.  What reads files, the network,
    the environment or random numbers is left out.

    Conventions of the embedding.

    - A JavaScript number is a [num]: an exact rational, [+Infinity],
      [-Infinity] or [NaN].  Arithmetic on the finite part is exact: the
      rounding of IEEE-754 binary64 is not modelled, and neither is the sign
      of zero (a zero divisor behaves as [+0]).  Everything else follows
      ECMAScript: [NaN] is contagious and compares false with everything,
      [0/0] is [NaN], [x/0] is infinite, [Infinity - Infinity] is [NaN].
      Where rounding decides what the program returns, [Binary64] computes
      the same expressions on doubles: the ratio of the long branch of
      [calculateDynamicRisk] and the moving averages behind the trend.
    - [undefined] and [null] are [None]; a number that may be missing is an
      [option num], and [ToNumber undefined = NaN].
    - A [throw] is the [Err] branch of [result]; the three error kinds are the
      two messages the sources throw and the [TypeError] of a property access
      on [undefined].
    - [Date.now()] is an explicit argument [now : Z] (milliseconds), and
      [new Date().toISOString()] an explicit [clock : string].
    - The [technicalindicators] package ([EMA.calculate], [RSI.calculate]) is
      not part of the repository: [analyzeMarket] is parametric in it, and
      [SpecIndicators] is the instance the specification describes. *)

From Stdlib Require Import QArith Qround Qabs ZArith List Bool Lia Lqa String.
From Corelib Require PrimFloat.
Import ListNotations.

Local Open Scope Q_scope.

(* ================================================================== *)
(** * JavaScript numbers *)
(* ================================================================== *)

Module JSNumber.

Inductive num : Type :=
| Fin (q : Q)
| PInf
| NInf
| NaN.

(** Same value ([Object.is], signs of zero apart), up to the representation
    of the rational: [NaN] is the same value as [NaN]. *)
Definition same (x y : num) : Prop :=
  match x, y with
  | Fin a, Fin b => a == b
  | PInf, PInf | NInf, NInf | NaN, NaN => True
  | _, _ => False
  end.

Definition finite (x : num) : Prop :=
  match x with Fin _ => True | _ => False end.

(** [x] is the rational [c]. *)
Definition near (c : Q) (x : num) : Prop := same x (Fin c).

(** A positive finite number, as the data model asks of every price. *)
Definition positive (x : num) : Prop :=
  match x with Fin a => 0 < a | _ => False end.

Definition isNaN (x : num) : bool :=
  match x with NaN => true | _ => false end.

Definition opp (x : num) : num :=
  match x with
  | Fin a => Fin (- a)
  | PInf => NInf
  | NInf => PInf
  | NaN => NaN
  end.

Definition add (x y : num) : num :=
  match x, y with
  | NaN, _ | _, NaN => NaN
  | Fin a, Fin b => Fin (a + b)
  | PInf, NInf | NInf, PInf => NaN
  | PInf, _ | _, PInf => PInf
  | NInf, _ | _, NInf => NInf
  end.

Definition sub (x y : num) : num := add x (opp y).

(** Sign of a number as a [comparison] with zero ([Eq] for zero and [NaN]). *)
Definition sign (x : num) : comparison :=
  match x with
  | Fin a => a ?= 0
  | PInf => Gt
  | NInf => Lt
  | NaN => Eq
  end.

Definition sign_mul (c d : comparison) : comparison :=
  match c, d with
  | Eq, _ | _, Eq => Eq
  | Gt, Gt | Lt, Lt => Gt
  | _, _ => Lt
  end.

(** The infinity of a sign; a zero sign stands for [0 * Infinity] or [0 / 0]. *)
Definition infinity (c : comparison) : num :=
  match c with Gt => PInf | Lt => NInf | Eq => NaN end.

Definition mul (x y : num) : num :=
  match x, y with
  | NaN, _ | _, NaN => NaN
  | Fin a, Fin b => Fin (a * b)
  | _, _ => infinity (sign_mul (sign x) (sign y))
  end.

Definition div (x y : num) : num :=
  match x, y with
  | NaN, _ | _, NaN => NaN
  | Fin a, Fin b =>
      if Qeq_bool b 0 then infinity (a ?= 0) else Fin (a / b)
  | Fin _, _ => Fin 0
  | _, Fin b =>
      infinity (sign_mul (sign x) (if Qeq_bool b 0 then Gt else b ?= 0))
  | _, _ => NaN
  end.

(** Relational comparison: [None] when an operand is [NaN]. *)
Definition cmp (x y : num) : option comparison :=
  match x, y with
  | NaN, _ | _, NaN => None
  | Fin a, Fin b => Some (a ?= b)
  | PInf, PInf | NInf, NInf => Some Eq
  | PInf, _ | _, NInf => Some Gt
  | NInf, _ | _, PInf => Some Lt
  end.

Definition ltb (x y : num) : bool :=
  match cmp x y with Some Lt => true | _ => false end.
Definition leb (x y : num) : bool :=
  match cmp x y with Some Lt | Some Eq => true | _ => false end.
Definition gtb (x y : num) : bool :=
  match cmp x y with Some Gt => true | _ => false end.
Definition geb (x y : num) : bool :=
  match cmp x y with Some Gt | Some Eq => true | _ => false end.
Definition eqb (x y : num) : bool :=
  match cmp x y with Some Eq => true | _ => false end.

(** [Math.min(x, y)] and [Math.max(x, y)]: [NaN] when an argument is. *)
Definition Math_min (x y : num) : num :=
  match cmp x y with
  | None => NaN
  | Some Gt => y
  | Some _ => x
  end.

Definition Math_max (x y : num) : num :=
  match cmp x y with
  | None => NaN
  | Some Lt => y
  | Some _ => x
  end.

(** [Math.min(...xs)] and [Math.max(...xs)]; the empty call gives the
    neutral infinity. *)
Definition Math_min_list (xs : list num) : num := fold_left Math_min xs PInf.
Definition Math_max_list (xs : list num) : num := fold_left Math_max xs NInf.

Definition Math_abs (x : num) : num :=
  match x with
  | Fin a => Fin (Qabs a)
  | PInf | NInf => PInf
  | NaN => NaN
  end.

(** [Math.round]: the nearest integer, a tie going up. *)
Definition Math_round (x : num) : num :=
  match x with
  | Fin a => Fin (inject_Z (Qfloor (a + (1 # 2))))
  | _ => x
  end.

Definition Math_ceil (x : num) : num :=
  match x with
  | Fin a => Fin (inject_Z (Qceiling a))
  | _ => x
  end.

Definition Math_floor (x : num) : num :=
  match x with
  | Fin a => Fin (inject_Z (Qfloor a))
  | _ => x
  end.

Definition pow10 (d : nat) : Q := inject_Z (10 ^ Z.of_nat d).

(** [Number.prototype.toFixed(d)] on a finite number, as the number its
    decimal string denotes: the integer [n] with [n / 10^d] closest to [|a|],
    the larger one on a tie, with the sign of [a]; from [10^21] on the
    string is [ToString a], which denotes [a]. *)
Definition toFixedQ (a : Q) (d : nat) : Q :=
  if Qle_bool (pow10 21) (Qabs a) then a
  else
    let n := Qfloor (Qabs a * pow10 d + (1 # 2)) in
    let m := inject_Z n / pow10 d in
    if Qle_bool 0 a then m else - m.

(** [x.toFixed(d)]; [NaN] and the infinities print as themselves. *)
Definition toFixed (x : num) (d : nat) : num :=
  match x with
  | Fin a => Fin (toFixedQ a d)
  | _ => x
  end.

(** [parseFloat] of a number, or of the string [toFixed] printed: the number
    itself. *)
Definition parseFloat (x : num) : num := x.

(** [ToBoolean] of a number: [0] and [NaN] are falsy. *)
Definition truthy (x : num) : bool :=
  match x with
  | Fin a => negb (Qeq_bool a 0)
  | NaN => false
  | _ => true
  end.

(** A value that may be [undefined]; [ToNumber undefined] is [NaN]. *)
Definition ToNumber (v : option num) : num :=
  match v with Some x => x | None => NaN end.

(** [xs[i]]: [undefined] outside the array, in particular for a negative
    index such as [xs.length - 2] on a one-element array. *)
Definition index {A : Type} (xs : list A) (i : Z) : option A :=
  if (i <? 0)%Z then None else nth_error xs (Z.to_nat i).

Definition len {A : Type} (xs : list A) : Z := Z.of_nat (List.length xs).

(** [xs.slice(-n)]: the last [n] elements, all of them when there are fewer. *)
Definition slice_last {A : Type} (n : nat) (xs : list A) : list A :=
  skipn (List.length xs - n) xs.

End JSNumber.

Import JSNumber.

Declare Scope num_scope.
Delimit Scope num_scope with num.
Bind Scope num_scope with num.
Notation "x + y" := (add x y) : num_scope.
Notation "x - y" := (sub x y) : num_scope.
Notation "x * y" := (mul x y) : num_scope.
Notation "x / y" := (div x y) : num_scope.
Notation "x <? y" := (ltb x y) : num_scope.
Notation "x <=? y" := (leb x y) : num_scope.
Notation "x >? y" := (gtb x y) (at level 70) : num_scope.
Notation "x >=? y" := (geb x y) (at level 70) : num_scope.
Notation "x =n= y" := (same x y) (at level 70) : num_scope.

Local Open Scope num_scope.

(* ================================================================== *)
(** * Shared data: candles, errors *)
(* ================================================================== *)

(** One OHLCV candle, its prices already numbers ([parseFloat] of a number
    is that number). *)
Record Candle : Type := mkCandle {
  open_ : num;
  high : num;
  low : num;
  close : num;
  volume : num;
  timestamp : string
}.

(** What the pipeline throws: the two [Error]s of the sources, named as the
    specification names them, and the [TypeError] raised by a method call on
    [undefined]. *)
Inductive error : Type :=
| InsufficientDataError
| InvalidEntryError
| TypeError.

Inductive result (A : Type) : Type :=
| Ok (a : A)
| Err (e : error).

Arguments Ok {A} a.
Arguments Err {A} e.

Inductive SignalKind : Type := BUY | SELL | HOLD.
Inductive Trend : Type := BULLISH | BEARISH | NEUTRAL.
Inductive Side : Type := LONG | SHORT.

(* ================================================================== *)
(** * strategy.js *)
(* ================================================================== *)

(** The interface of the [technicalindicators] package the strategy uses:
    [EMA.calculate({period, values})] and [RSI.calculate({period, values})]. *)
Class TechnicalIndicators : Type := {
  EMA_calculate : nat -> list num -> list num;
  RSI_calculate : nat -> list num -> list num
}.

Module Strategy.

Record Indicators : Type := mkIndicators {
  ema9 : num;
  ema21 : num;
  rsi : num
}.

Record Crossover : Type := mkCrossover {
  bullish : bool;
  bearish : bool
}.

Record CandleInfo : Type := mkCandleInfo {
  analyzed : nat;
  latest : Candle
}.

Record Signal : Type := mkSignal {
  signal : SignalKind;
  confidence : num;
  indicators : Indicators;
  trend : Trend;
  crossover : Crossover;
  currentPrice : num;
  signalTimestamp : string;
  candles : CandleInfo
}.

(** [calculateConfidence(ema9, ema21, rsi, signalType, crossover)];
    a [signalType] that is neither ['BUY'] nor ['SELL'] leaves the base. *)
Definition calculateConfidence
    (ema9 ema21 rsi : num) (signalType : SignalKind) (crossover : bool) : num :=
  let confidence := Fin 50 in
  let confidence :=
    match signalType with
    | BUY =>
        let emaSeparation := ((ema9 - ema21) / ema21) * Fin 100 in
        let confidence := confidence + Math_min (emaSeparation * Fin 10) (Fin 20) in
        let confidence :=
          if (rsi >=? Fin 55) && (rsi <=? Fin 65)
          then confidence + Fin 15 else confidence + Fin 5 in
        if crossover then confidence + Fin 15 else confidence
    | SELL =>
        let emaSeparation := ((ema21 - ema9) / ema21) * Fin 100 in
        let confidence := confidence + Math_min (emaSeparation * Fin 10) (Fin 20) in
        let confidence :=
          if (rsi >=? Fin 35) && (rsi <=? Fin 45)
          then confidence + Fin 15 else confidence + Fin 5 in
        if crossover then confidence + Fin 15 else confidence
    | HOLD => confidence
    end in
  Math_min (Math_round confidence) (Fin 100).

Section AnalyzeMarket.

Context {TI : TechnicalIndicators}.

(** The intermediate values of [analyzeMarket], in the order of the source. *)
Definition closePrices (cs : list Candle) : list num :=
  map (fun c => parseFloat (close c)) cs.

Definition ema9Values (cs : list Candle) : list num :=
  EMA_calculate 9 (closePrices cs).
Definition ema21Values (cs : list Candle) : list num :=
  EMA_calculate 21 (closePrices cs).
Definition rsiValues (cs : list Candle) : list num :=
  RSI_calculate 14 (closePrices cs).

Definition currentEMA9 (cs : list Candle) : option num :=
  index (ema9Values cs) (len (ema9Values cs) - 1).
Definition currentEMA21 (cs : list Candle) : option num :=
  index (ema21Values cs) (len (ema21Values cs) - 1).
Definition currentRSI (cs : list Candle) : option num :=
  index (rsiValues cs) (len (rsiValues cs) - 1).
Definition previousEMA9 (cs : list Candle) : option num :=
  index (ema9Values cs) (len (ema9Values cs) - 2).
Definition previousEMA21 (cs : list Candle) : option num :=
  index (ema21Values cs) (len (ema21Values cs) - 2).

Definition trendOf (cs : list Candle) : Trend :=
  let fast := ToNumber (currentEMA9 cs) in
  let slow := ToNumber (currentEMA21 cs) in
  if fast >? slow then BULLISH
  else if fast <? slow then BEARISH
  else NEUTRAL.

Definition bullishCrossover (cs : list Candle) : bool :=
  (ToNumber (previousEMA9 cs) <=? ToNumber (previousEMA21 cs))
  && (ToNumber (currentEMA9 cs) >? ToNumber (currentEMA21 cs)).

Definition bearishCrossover (cs : list Candle) : bool :=
  (ToNumber (previousEMA9 cs) >=? ToNumber (previousEMA21 cs))
  && (ToNumber (currentEMA9 cs) <? ToNumber (currentEMA21 cs)).

(** The two guards of the signal rule. *)
Definition buyRule (cs : list Candle) : bool :=
  (ToNumber (currentEMA9 cs) >? ToNumber (currentEMA21 cs))
  && (ToNumber (currentRSI cs) >? Fin 50)
  && (ToNumber (currentRSI cs) <? Fin 70).

Definition sellRule (cs : list Candle) : bool :=
  (ToNumber (currentEMA9 cs) <? ToNumber (currentEMA21 cs))
  && (ToNumber (currentRSI cs) <? Fin 50)
  && (ToNumber (currentRSI cs) >? Fin 30).

Definition signalAndConfidence (cs : list Candle) : SignalKind * num :=
  let fast := ToNumber (currentEMA9 cs) in
  let slow := ToNumber (currentEMA21 cs) in
  let r := ToNumber (currentRSI cs) in
  if buyRule cs
  then (BUY, calculateConfidence fast slow r BUY (bullishCrossover cs))
  else if sellRule cs
  then (SELL, calculateConfidence fast slow r SELL (bearishCrossover cs))
  else (HOLD, Fin 0).

(** [analyzeMarket(candles)].  [candles] is an array: the [!candles] half of
    the guard never fires.  Building the result calls [toFixed] on the three
    current values, which throws when one is [undefined]. *)
Definition analyzeMarket (clock : string) (cs : list Candle) : result Signal :=
  if (List.length cs <? 21)%nat then Err InsufficientDataError
  else
    let '(sig, conf) := signalAndConfidence cs in
    match currentEMA9 cs, currentEMA21 cs, currentRSI cs,
          index cs (len cs - 1) with
    | Some fast, Some slow, Some r, Some latestCandle =>
        Ok {| signal := sig;
              confidence := conf;
              indicators :=
                {| ema9 := parseFloat (toFixed fast 6);
                   ema21 := parseFloat (toFixed slow 6);
                   rsi := parseFloat (toFixed r 2) |};
              trend := trendOf cs;
              crossover :=
                {| bullish := bullishCrossover cs;
                   bearish := bearishCrossover cs |};
              currentPrice := parseFloat (close latestCandle);
              signalTimestamp :=
                if String.eqb (timestamp latestCandle) EmptyString
                then clock else timestamp latestCandle;
              candles :=
                {| analyzed := List.length cs; latest := latestCandle |} |}
    | _, _, _, _ => Err TypeError
    end.

End AnalyzeMarket.

End Strategy.

(* ================================================================== *)
(** * The indicators the specification describes *)
(* ================================================================== *)

Module SpecIndicators.

Definition sum (xs : list num) : num := fold_left add xs (Fin 0).

Definition mean (xs : list num) : num := sum xs / Fin (inject_Z (len xs)).

(** One smoothing step per remaining close: [previous*(1-k) + close*k]. *)
Fixpoint ema_steps (k previous : num) (closes : list num) : list num :=
  match closes with
  | [] => []
  | c :: rest =>
      let e := previous * (Fin 1 - k) + c * k in
      e :: ema_steps k e rest
  end.

(** Modelled from the spec: [EMA.calculate] of the [technicalindicators]
    package, which is not among the sources.  §4.1: "Exponential moving
    average with period P: seed = arithmetic mean of the first P closes; each
    subsequent value = previous*(1-k) + close*k where k = 2/(P+1)."  Fewer
    than P closes give no value. *)
Definition EMA (period : nat) (closes : list num) : list num :=
  if (List.length closes <? period)%nat then []
  else
    let k := Fin 2 / (Fin (inject_Z (Z.of_nat period)) + Fin 1) in
    let seed := mean (firstn period closes) in
    seed :: ema_steps k seed (skipn period closes).

(** The change from each close to the next. *)
Fixpoint changes (previous : num) (closes : list num) : list num :=
  match closes with
  | [] => []
  | c :: rest => (c - previous) :: changes c rest
  end.

Definition gain (d : num) : num := if d >? Fin 0 then d else Fin 0.
Definition loss (d : num) : num := if d <? Fin 0 then opp d else Fin 0.

(** "bounded to [0,100]; when average loss is zero, RSI = 100". *)
Definition rsi_of (avgGain avgLoss : num) : num :=
  if eqb avgLoss (Fin 0) then Fin 100
  else Fin 100 - Fin 100 / (Fin 1 + avgGain / avgLoss).

(** Wilder smoothing: [avg = (previous avg * (P-1) + current) / P]. *)
Fixpoint wilder_steps (p avgGain avgLoss : num) (ds : list num) : list num :=
  match ds with
  | [] => []
  | d :: rest =>
      let g := (avgGain * (p - Fin 1) + gain d) / p in
      let l := (avgLoss * (p - Fin 1) + loss d) / p in
      rsi_of g l :: wilder_steps p g l rest
  end.

(** Modelled from the spec: [RSI.calculate] of the [technicalindicators]
    package, which is not among the sources.  §4.1: "RSI with period 14:
    classic Wilder smoothing of average gains/losses over rolling windows of
    closes, bounded to [0,100]; when average loss is zero, RSI = 100."  The
    first averages are the means of the first P gains and losses, so P+1
    closes are needed for the first value. *)
Definition RSI (period : nat) (closes : list num) : list num :=
  match closes with
  | [] => []
  | c0 :: rest =>
      let ds := changes c0 rest in
      if (List.length ds <? period)%nat then []
      else
        let g0 := mean (map gain (firstn period ds)) in
        let l0 := mean (map loss (firstn period ds)) in
        rsi_of g0 l0
          :: wilder_steps (Fin (inject_Z (Z.of_nat period))) g0 l0
               (skipn period ds)
  end.

#[export] Instance spec_indicators : TechnicalIndicators :=
  {| EMA_calculate := EMA; RSI_calculate := RSI |}.

(** The same [RSI.calculate] next to any [EMA.calculate]: what is proved of
    these indicators does not depend on how the moving averages are computed
    or rounded. *)
Definition with_EMA (ema : nat -> list num -> list num) : TechnicalIndicators :=
  {| EMA_calculate := ema; RSI_calculate := RSI |}.

End SpecIndicators.

(* ================================================================== *)
(** * risk.js *)
(* ================================================================== *)

Module Risk.

Import Strategy.

(** The object [calculateDynamicRisk] returns ([rp_signal] is its [signal]
    property).  The HOLD variant has [null] for [side], [stopLoss] and
    [takeProfit] and carries no [stopLossPercent] or [takeProfitPercent]
    property. *)
Record RiskParameters : Type := mkRiskParameters {
  rp_signal : SignalKind;
  side : option Side;
  entry : num;
  stopLoss : option num;
  takeProfit : option num;
  quantity : num;
  positionSizeUSDT : num;
  riskRewardRatio : num;
  riskAmount : num;
  potentialProfit : num;
  stopLossPercent : option num;
  takeProfitPercent : option num
}.

Definition bufferPercent : num := Fin (5 # 1000).

(** [entryPrice || signal.currentPrice], with [entryPrice] defaulting to
    [null]. *)
Definition resolveEntry (s : Signal) (entryPrice : option num) : num :=
  match entryPrice with
  | Some e => if truthy e then e else currentPrice s
  | None => currentPrice s
  end.

Definition last5Candles (cs : list Candle) : list Candle := slice_last 5 cs.
Definition lows (cs : list Candle) : list num :=
  map (fun c => parseFloat (low c)) (last5Candles cs).
Definition highs (cs : list Candle) : list num :=
  map (fun c => parseFloat (high c)) (last5Candles cs).

(** The stop-loss and take-profit levels of the two trading branches, before
    any rounding; [None] for a signal that is neither BUY nor SELL. *)
Definition levels (k : SignalKind) (entry : num) (cs : list Candle)
  : option (Side * num * num) :=
  match k with
  | BUY =>
      let minLow := Math_min_list (lows cs) in
      let stopLoss := minLow * (Fin 1 - bufferPercent) in
      let riskDistance := entry - stopLoss in
      let takeProfit := entry + riskDistance * Fin 2 in
      Some (LONG, stopLoss, takeProfit)
  | SELL =>
      let maxHigh := Math_max_list (highs cs) in
      let stopLoss := maxHigh * (Fin 1 + bufferPercent) in
      let riskDistance := stopLoss - entry in
      let takeProfit := entry - riskDistance * Fin 2 in
      Some (SHORT, stopLoss, takeProfit)
  | HOLD => None
  end.

(** [calculateDynamicRisk(signal, candles, entryPrice = null,
    positionSizeUSDT = 100)]; [signal] and [candles] are objects, so the
    [!signal || !candles] half of the first guard never fires. *)
Definition calculateDynamicRisk
    (s : Signal) (cs : list Candle) (entryPrice : option num)
    (positionSizeUSDT : num) : result RiskParameters :=
  if (List.length cs <? 5)%nat then Err InsufficientDataError
  else
    let entry := resolveEntry s entryPrice in
    if negb (truthy entry) || (entry <=? Fin 0) then Err InvalidEntryError
    else
      match levels (signal s) entry cs with
      | None =>
          Ok {| rp_signal := HOLD;
                side := None;
                entry := entry;
                stopLoss := None;
                takeProfit := None;
                quantity := Fin 0;
                positionSizeUSDT := Fin 0;
                riskRewardRatio := Fin 0;
                riskAmount := Fin 0;
                potentialProfit := Fin 0;
                stopLossPercent := None;
                takeProfitPercent := None |}
      | Some (side, stopLoss, takeProfit) =>
          let quantity := positionSizeUSDT / entry in
          let riskPerUnit := Math_abs (entry - stopLoss) in
          let profitPerUnit := Math_abs (takeProfit - entry) in
          let riskAmount := riskPerUnit * quantity in
          let potentialProfit := profitPerUnit * quantity in
          let riskRewardRatio := profitPerUnit / riskPerUnit in
          Ok {| rp_signal := signal s;
                side := Some side;
                entry := parseFloat (toFixed entry 6);
                stopLoss := Some (parseFloat (toFixed stopLoss 6));
                takeProfit := Some (parseFloat (toFixed takeProfit 6));
                quantity := parseFloat (toFixed quantity 4);
                positionSizeUSDT := positionSizeUSDT;
                riskRewardRatio := parseFloat (toFixed riskRewardRatio 2);
                riskAmount := parseFloat (toFixed riskAmount 2);
                potentialProfit := parseFloat (toFixed potentialProfit 2);
                stopLossPercent :=
                  Some (parseFloat
                          (toFixed (Math_abs (entry - stopLoss) / entry * Fin 100) 2));
                takeProfitPercent :=
                  Some (parseFloat
                          (toFixed (Math_abs (takeProfit - entry) / entry * Fin 100) 2))
             |}
      end.

(** The [limits] argument of [validateRiskParameters]: a missing property
    takes its default. *)
Record Limits : Type := mkLimits {
  maxRiskPercent : option num;
  minRRRatio : option num;
  maxStopLossPercent : option num
}.

Definition noLimits : Limits :=
  {| maxRiskPercent := None; minRRRatio := None; maxStopLossPercent := None |}.

Definition withDefault (d : num) (v : option num) : num :=
  match v with Some x => x | None => d end.

(** The messages pushed on [reasons], with the numbers they interpolate. *)
Inductive Reason : Type :=
| RiskRewardBelowMinimum (ratio minimum : num)
| StopLossExceedsMaximum (percent : option num) (maximum : num)
| RiskExceedsMaximum (percent maximum : num)
| AllWithinLimits.

Record ValidationResult : Type := mkValidationResult {
  valid : bool;
  reasons : list Reason;
  riskPercent : num
}.

Definition accountSize : num := Fin 5000.

(** [validateRiskParameters(riskParams, limits = {})]: the three [if]
    statements run one after the other on the pair [(valid, reasons)]. *)
Definition validateRiskParameters (riskParams : RiskParameters) (limits : Limits)
  : ValidationResult :=
  let maxRisk := withDefault (Fin 2) (maxRiskPercent limits) in
  let minRR := withDefault (Fin (15 # 10)) (minRRRatio limits) in
  let maxSL := withDefault (Fin 5) (maxStopLossPercent limits) in
  let st : bool * list Reason := (true, []) in
  let st :=
    if riskRewardRatio riskParams <? minRR
    then (false,
          snd st ++ [RiskRewardBelowMinimum (riskRewardRatio riskParams) minRR])
    else st in
  let st :=
    if ToNumber (stopLossPercent riskParams) >? maxSL
    then (false,
          snd st ++ [StopLossExceedsMaximum (stopLossPercent riskParams) maxSL])
    else st in
  let riskPercent := (riskAmount riskParams / accountSize) * Fin 100 in
  let st :=
    if riskPercent >? maxRisk
    then (false, snd st ++ [RiskExceedsMaximum (toFixed riskPercent 2) maxRisk])
    else st in
  {| valid := fst st;
     reasons :=
       if (0 <? List.length (snd st))%nat then snd st else [AllWithinLimits];
     riskPercent := parseFloat (toFixed riskPercent 2) |}.

End Risk.

(* ================================================================== *)
(** * rateLimiter.js *)
(* ================================================================== *)

Module RateLimiter.

(** The fields of a [RateLimiter] instance.  [queue] and [processing] are
    set by the constructor and by [reset] and never read. *)
Record t : Type := mkRateLimiter {
  maxTokens : num;
  tokens : num;
  refillRate : num;
  lastRefill : Z;
  queue : list unit;
  processing : bool
}.

(** [new RateLimiter(maxTokens = 5, refillRate = 5)], built at time [now]. *)
Definition constructor (now : Z) (maxTokens refillRate : num) : t :=
  {| maxTokens := maxTokens;
     tokens := maxTokens;
     refillRate := refillRate;
     lastRefill := now;
     queue := [];
     processing := false |}.

Definition elapsedSeconds (now : Z) (s : t) : num :=
  Fin (inject_Z (now - lastRefill s)) / Fin 1000.

(** [refillTokens()] *)
Definition refillTokens (now : Z) (s : t) : t :=
  let elapsed := elapsedSeconds now s in
  let tokensToAdd := elapsed * refillRate s in
  {| maxTokens := maxTokens s;
     tokens := Math_min (maxTokens s) (tokens s + tokensToAdd);
     refillRate := refillRate s;
     lastRefill := now;
     queue := queue s;
     processing := processing s |}.

Definition setTokens (v : num) (s : t) : t :=
  {| maxTokens := maxTokens s;
     tokens := v;
     refillRate := refillRate s;
     lastRefill := lastRefill s;
     queue := queue s;
     processing := processing s |}.

(** [tryConsume(cost = 1)]: the boolean returned and the instance after. *)
Definition tryConsume (now : Z) (cost : num) (s : t) : bool * t :=
  let s := refillTokens now s in
  if tokens s >=? cost then (true, setTokens (tokens s - cost) s)
  else (false, s).

(** [getAvailableTokens()] *)
Definition getAvailableTokens (now : Z) (s : t) : num * t :=
  let s := refillTokens now s in
  (Math_floor (tokens s), s).

(** [reset()] *)
Definition reset (now : Z) (s : t) : t :=
  {| maxTokens := maxTokens s;
     tokens := maxTokens s;
     refillRate := refillRate s;
     lastRefill := now;
     queue := [];
     processing := processing s |}.

(** One run of the closure [attempt] inside [waitForToken]: it resolves the
    promise, or hands itself to [setTimeout] with a delay in milliseconds. *)
Inductive Outcome : Type :=
| Resolve
| SetTimeout (ms : num).

Definition attempt (now : Z) (cost : num) (s : t) : Outcome * t :=
  let '(ok, s) := tryConsume now cost s in
  if ok then (Resolve, s)
  else
    let tokensNeeded := cost - tokens s in
    let waitTime := Math_ceil ((tokensNeeded / refillRate s) * Fin 1000) in
    (SetTimeout (Math_max waitTime (Fin 100)), s).

(** [waitForToken(cost = 1)] along the clock readings of its successive
    attempts (the first one runs at once, each later one when its timer
    fires).  The result tells whether the promise is resolved once the
    readings are used up, and lists the delays handed to [setTimeout]. *)
Fixpoint waitForToken (clock : list Z) (cost : num) (s : t)
  : bool * list num * t :=
  match clock with
  | [] => (false, [], s)
  | now :: later =>
      match attempt now cost s with
      | (Resolve, s') => (true, [], s')
      | (SetTimeout ms, s') =>
          let '(resolved, delays, s'') := waitForToken later cost s' in
          (resolved, ms :: delays, s'')
      end
  end.

(** A bucket as the data model describes it: finite numbers, a
    non-negative refill rate, and [0 <= tokens <= maxTokens]. *)
Definition wellFormed (s : t) : Prop :=
  finite (maxTokens s) /\ finite (tokens s) /\ finite (refillRate s)
  /\ (Fin 0 <=? refillRate s) = true
  /\ (Fin 0 <=? tokens s) = true
  /\ (tokens s <=? maxTokens s) = true.

Definition inRange (s : t) : Prop :=
  (Fin 0 <=? tokens s) = true /\ (tokens s <=? maxTokens s) = true.

(** The calls a client makes on a bucket, and a history of such calls, each
    with the clock reading it runs at. *)
Inductive Call : Type :=
| CallTryConsume (cost : num)
| CallRefillTokens
| CallGetAvailableTokens
| CallReset.

Definition call (now : Z) (c : Call) (s : t) : t :=
  match c with
  | CallTryConsume cost => snd (tryConsume now cost s)
  | CallRefillTokens => refillTokens now s
  | CallGetAvailableTokens => snd (getAvailableTokens now s)
  | CallReset => reset now s
  end.

Fixpoint history (calls : list (Z * Call)) (s : t) : t :=
  match calls with
  | [] => s
  | (now, c) :: later => history later (call now c s)
  end.

(** The clock never goes back along the history, starting from [start],
    and no cost is negative. *)
Fixpoint admissible (start : Z) (calls : list (Z * Call)) : Prop :=
  match calls with
  | [] => True
  | (now, c) :: later =>
      (start <= now)%Z
      /\ match c with
         | CallTryConsume cost => (Fin 0 <=? cost) = true
         | _ => True
         end
      /\ admissible now later
  end.

End RateLimiter.

(* ================================================================== *)
(** * The rules as the specification words them *)
(* ================================================================== *)

Module SpecWords.

Import Strategy.

(** §4.3: "Entry price = entryOverride if provided and > 0, else
    signal.currentPrice". *)
Definition entryRule (s : Signal) (entryOverride : option num) : num :=
  match entryOverride with
  | Some e => if e >? Fin 0 then e else currentPrice s
  | None => currentPrice s
  end.

(** §7: "resolved entry price ≤ 0 or non-finite". *)
Definition invalidEntry (e : num) : bool :=
  match e with
  | Fin _ => e <=? Fin 0
  | _ => true
  end.

(** §4.2: "base 50, then additive bonuses": the trend-strength bonus
    [min(|percentage separation between fast and slow| * 10, 20)], the RSI
    sweet-spot bonus (+15 inside the band of the side, else +5) and the
    crossover bonus (+15 when the matching flag is set). *)
Definition confidenceSum
    (fast slow r : num) (k : SignalKind) (cross : bool) : num :=
  let separation := Math_abs ((fast - slow) / slow * Fin 100) in
  let trendBonus := Math_min (separation * Fin 10) (Fin 20) in
  let sweet :=
    match k with
    | BUY => (r >=? Fin 55) && (r <=? Fin 65)
    | SELL => (r >=? Fin 35) && (r <=? Fin 45)
    | HOLD => false
    end in
  let rsiBonus := if sweet then Fin 15 else Fin 5 in
  let crossBonus := if cross then Fin 15 else Fin 0 in
  Fin 50 + trendBonus + rsiBonus + crossBonus.

(** "... capped at 100". *)
Definition confidenceRule
    (fast slow r : num) (k : SignalKind) (cross : bool) : num :=
  Math_min (confidenceSum fast slow r k cross) (Fin 100).

(** The crossover flag that matches a side. *)
Definition matchingCrossover (k : SignalKind) (c : Crossover) : bool :=
  match k with
  | BUY => bullish c
  | SELL => bearish c
  | HOLD => false
  end.

End SpecWords.

(* ================================================================== *)
(** * The long branch and the moving averages in binary64 *)
(* ================================================================== *)

(** The stop-loss and the ratio of the BUY branch of [calculateDynamicRisk],
    and the moving averages behind the trend of [analyzeMarket], once more
    over the binary64 numbers a JavaScript engine computes with: used to
    evaluate concrete inputs with IEEE rounding. *)
Module Binary64.

Import PrimFloat.
Local Open Scope float_scope.
Local Set Warnings "-inexact-float".

Definition stopLossLong (minLow : float) : float := minLow * (1 - 0.005).

Definition ratioLong (entry minLow : float) : float :=
  let stopLoss := stopLossLong minLow in
  let riskDistance := entry - stopLoss in
  let takeProfit := entry + riskDistance * 2 in
  let riskPerUnit := abs (entry - stopLoss) in
  let profitPerUnit := abs (takeProfit - entry) in
  profitPerUnit / riskPerUnit.

(** A small natural number as a double. *)
Fixpoint ofNat (n : nat) : float :=
  match n with
  | O => 0
  | S m => ofNat m + 1
  end.

Definition sum (xs : list float) : float := fold_left add xs 0.

Definition mean (xs : list float) : float := sum xs / ofNat (List.length xs).

Fixpoint ema_steps (k previous : float) (closes : list float) : list float :=
  match closes with
  | [] => []
  | c :: rest =>
      let e := previous * (1 - k) + c * k in
      e :: ema_steps k e rest
  end.

(** Modelled from the spec: [EMA.calculate] of the [technicalindicators]
    package, which is not among the sources, as [SpecIndicators.EMA] words
    it, each operation rounded to binary64. *)
Definition EMA (period : nat) (closes : list float) : list float :=
  if (List.length closes <? period)%nat then []
  else
    let k := 2 / (ofNat period + 1) in
    let seed := mean (firstn period closes) in
    seed :: ema_steps k seed (skipn period closes).

(** The double nearest to 1/3. *)
Definition third : float := 1 / 3.

(** ** Doubles among the numbers of the exact model *)

(** A positive integer as a double: exactly, below 2^53. *)
Fixpoint ofPos (p : BinNums.positive) : float :=
  match p with
  | xH => 1
  | xO q => ofPos q * 2
  | xI q => ofPos q * 2 + 1
  end.

Definition ofZ (z : Z) : float :=
  match z with
  | Z0 => 0
  | Zpos p => ofPos p
  | Zneg p => - ofPos p
  end.

(** The double a number is read as.  A rational whose numerator and
    denominator are doubles themselves is rounded once, by the division; a
    rational that is a double is that double. *)
Definition ofNum (x : num) : float :=
  match x with
  | JSNumber.Fin q => ofZ (Qnum q) / ofPos (Qden q)
  | JSNumber.PInf => infinity
  | JSNumber.NInf => neg_infinity
  | JSNumber.NaN => nan
  end.

Fixpoint pow2 (n : nat) : float :=
  match n with
  | O => 1
  | S m => pow2 m * 2
  end.

(** The integer a double of [0, 2^bits) without a fractional part stands
    for, read bit by bit from the highest. *)
Fixpoint integer (bits : nat) (x : float) : Z :=
  match bits with
  | O => 0
  | S j =>
      if pow2 j <=? x then (2 ^ Z.of_nat j + integer j (x - pow2 j))%Z
      else integer j x
  end.

(** [x * 2^k] for the least [k] that takes a positive [x] to 2^52 or above,
    where every double is an integer, and [x / 2^k] for the least [k] that
    takes it below 2^53; both scalings are exact. *)
Fixpoint scaleUp (fuel : nat) (x : float) (k : nat) : float * nat :=
  match fuel with
  | O => (x, k)
  | S n => if x <? pow2 52 then scaleUp n (x * 2) (S k) else (x, k)
  end.

Fixpoint scaleDown (fuel : nat) (x : float) (k : nat) : float * nat :=
  match fuel with
  | O => (x, k)
  | S n => if pow2 53 <=? x then scaleDown n (x / 2) (S k) else (x, k)
  end.

(** The rational a finite double is. *)
Definition toQ (x : float) : Q :=
  let a := abs x in
  let magnitude :=
    if a =? 0 then 0%Q
    else if a <? pow2 53 then
      let '(m, k) := scaleUp 1100 a 0 in
      Qmake (integer 53 m) (Z.to_pos (2 ^ Z.of_nat k))
    else
      let '(m, k) := scaleDown 1100 a 0 in
      inject_Z (integer 53 m * 2 ^ Z.of_nat k) in
  if x <? 0 then Qopp magnitude else magnitude.

Definition toNum (x : float) : num :=
  if is_nan x then JSNumber.NaN
  else if x =? infinity then JSNumber.PInf
  else if x =? neg_infinity then JSNumber.NInf
  else JSNumber.Fin (toQ x).

(** [EMA.calculate] computing on doubles, for [analyzeMarket]. *)
Definition EMA_calculate (period : nat) (closes : list num) : list num :=
  map toNum (EMA period (map ofNum closes)).

End Binary64.

(* ================================================================== *)
(** * Sample inputs *)
(* ================================================================== *)

Module Samples.

Import Strategy Risk.

Definition candleAt (c : Q) : Candle :=
  {| open_ := Fin c;
     high := Fin (c + (1 # 100));
     low := Fin (c - (1 # 100));
     close := Fin c;
     volume := Fin 1000000;
     timestamp := "2024-01-01T00:00:00.000Z" |}.

(** [n] candles from price [p], moving by [up] and [down] in turn. *)
Fixpoint zigzag (n : nat) (p up down : Q) : list Candle :=
  match n with
  | O => []
  | S k =>
      candleAt p
        :: zigzag k (Qred (p + (if Nat.even k then up else down))) up down
  end.

Definition rising : list Candle := zigzag 30 (1 # 2) (3 # 1000) (- (2 # 1000)).
Definition falling : list Candle := zigzag 30 (1 # 2) (- (3 # 1000)) (2 # 1000).
Definition flat (n : nat) (c : Q) : list Candle := repeat (candleAt c) n.

(** The [mockCandles] and [mockSignal] of the risk tests. *)
Fixpoint mockFrom (n : nat) (i : Z) : list Candle :=
  match n with
  | O => []
  | S k =>
      {| open_ := Fin ((50 # 100) + inject_Z i * (5 # 1000));
         high := Fin ((51 # 100) + inject_Z i * (5 # 1000));
         low := Fin ((49 # 100) + inject_Z i * (5 # 1000));
         close := Fin ((50 # 100) + inject_Z i * (5 # 1000));
         volume := Fin 1000000;
         timestamp := "2024-01-01T00:00:00.000Z" |}
        :: mockFrom k (i + 1)
  end.

Definition mockCandles : list Candle := mockFrom 10 0.

Definition signalOf (k : SignalKind) (price : num) : Signal :=
  {| signal := k;
     confidence := Fin 75;
     indicators :=
       {| ema9 := Fin (55 # 100); ema21 := Fin (54 # 100); rsi := Fin 60 |};
     trend := BULLISH;
     crossover := {| bullish := false; bearish := false |};
     currentPrice := price;
     signalTimestamp := "2024-01-01T00:00:00.000Z";
     candles := {| analyzed := 10; latest := candleAt (545 # 1000) |} |}.

Definition mockSignal : Signal := signalOf BUY (Fin (545 # 1000)).

(** The [mockRiskParams] of the validation tests, with a chosen ratio. *)
Definition mockRiskParams (ratio : num) : RiskParameters :=
  {| rp_signal := BUY; side := Some LONG; entry := Fin (545 # 1000);
     stopLoss := None; takeProfit := None; quantity := Fin 0;
     positionSizeUSDT := Fin 100; riskRewardRatio := ratio;
     riskAmount := Fin 50; potentialProfit := Fin 0;
     stopLossPercent := Some (Fin 3); takeProfitPercent := None |}.

(** A bucket as [new RateLimiter(5, 5)] builds it at time 0. *)
Definition limiter55 : RateLimiter.t :=
  RateLimiter.constructor 0 (Fin 5) (Fin 5).

End Samples.

From Stdlib Require Ascii Permutation Sorted.

(* ================================================================== *)
(** * Market data as an exchange reports it *)
(* ================================================================== *)

(** A candle with finite prices, its low and high around its open and close. *)
Definition wellFormedCandle (c : Candle) : Prop :=
  finite (open_ c) /\ finite (close c) /\ finite (high c) /\ finite (low c)
  /\ (low c <=? open_ c) = true /\ (low c <=? close c) = true
  /\ (open_ c <=? high c) = true /\ (close c <=? high c) = true.

(** ... and with positive prices. *)
Definition marketCandle (c : Candle) : Prop :=
  wellFormedCandle c /\ positive (low c).

(* ================================================================== *)
(** * strategy.js: candle patterns *)
(* ================================================================== *)

Module CandlePatterns.

(** [xs.slice(start)] for an integer [start]: a negative one counts from the
    end of the array, and [-0] is [0], so that [slice(-0)] keeps everything. *)
Definition slice {A : Type} (start : Z) (xs : list A) : list A :=
  let k :=
    if (start <? 0)%Z then Z.max (len xs + start) 0 else Z.min start (len xs) in
  skipn (Z.to_nat k) xs.

Inductive PatternType : Type := DOJI | HAMMER | HANGING_MAN | SHOOTING_STAR.
Inductive Strength : Type := MEDIUM | HIGH.

(** One element of the array [detectCandlePatterns] returns. *)
Record Pattern : Type := mkPattern {
  pattern_type : PatternType;
  pattern_strength : Strength;
  pattern_index : nat
}.

Definition body (c : Candle) : num :=
  Math_abs (parseFloat (close c) - parseFloat (open_ c)).
Definition range (c : Candle) : num :=
  parseFloat (high c) - parseFloat (low c).
Definition lowerWick (c : Candle) : num :=
  Math_min (parseFloat (open_ c)) (parseFloat (close c)) - parseFloat (low c).
Definition upperWick (c : Candle) : num :=
  parseFloat (high c) - Math_max (parseFloat (open_ c)) (parseFloat (close c)).

(** The three tests of the callback. *)
Definition isDoji (c : Candle) : bool :=
  (body c / range c <? Fin (1 # 10)) && (range c >? Fin 0).
Definition isHammer (c : Candle) : bool :=
  (lowerWick c >? body c * Fin 2) && (upperWick c <? body c * Fin (3 # 10)).
Definition isShootingStar (c : Candle) : bool :=
  (upperWick c >? body c * Fin 2) && (lowerWick c <? body c * Fin (3 # 10)).

(** What one call of the callback pushes, in the order of its three [if]
    statements. *)
Definition patternsOf (c : Candle) (index : nat) : list Pattern :=
  (if isDoji c
   then [{| pattern_type := DOJI; pattern_strength := MEDIUM;
            pattern_index := index |}]
   else [])
  ++ (if isHammer c
      then [{| pattern_type :=
                 if parseFloat (close c) >? parseFloat (open_ c)
                 then HAMMER else HANGING_MAN;
               pattern_strength := HIGH;
               pattern_index := index |}]
      else [])
  ++ (if isShootingStar c
      then [{| pattern_type := SHOOTING_STAR; pattern_strength := HIGH;
               pattern_index := index |}]
      else []).

(** [recentCandles.forEach((candle, index) => ...)] from position [index] on,
    threading the array [patterns] the callback pushes to. *)
Fixpoint forEach (recentCandles : list Candle) (index : nat)
    (patterns : list Pattern) : list Pattern :=
  match recentCandles with
  | [] => patterns
  | candle :: rest => forEach rest (S index) (patterns ++ patternsOf candle index)
  end.

(** [detectCandlePatterns(candles, lookback = 3)] for an integer [lookback]. *)
Definition detectCandlePatterns (candles : list Candle) (lookback : Z)
  : list Pattern :=
  let recentCandles := slice (- lookback) candles in
  forEach recentCandles 0 [].

End CandlePatterns.

(* ================================================================== *)
(** * risk.js: position sizing *)
(* ================================================================== *)

Module PositionSize.

Record PositionSizing : Type := mkPositionSizing {
  ps_quantity : num;
  ps_positionSize : num;
  ps_riskAmount : num;
  ps_riskPerUnit : num
}.

(** [calculatePositionSize(accountBalance, riskPercent, entryPrice,
    stopLossPrice)]: arithmetic on numbers and [toFixed] with a constant
    digit count never throw, so the [catch] block is never entered. *)
Definition calculatePositionSize
    (accountBalance riskPercent entryPrice stopLossPrice : num)
  : PositionSizing :=
  let riskAmount := (accountBalance * riskPercent) / Fin 100 in
  let riskPerUnit := Math_abs (entryPrice - stopLossPrice) in
  let quantity := riskAmount / riskPerUnit in
  let positionSize := quantity * entryPrice in
  {| ps_quantity := parseFloat (toFixed quantity 4);
     ps_positionSize := parseFloat (toFixed positionSize 2);
     ps_riskAmount := parseFloat (toFixed riskAmount 2);
     ps_riskPerUnit := parseFloat (toFixed riskPerUnit 6) |}.

End PositionSize.
(* ================================================================== *)
(** * rateLimiter.js: the delay-based limiter *)
(* ================================================================== *)

Module DelayRateLimiter.

Record t : Type := mkDelayRateLimiter {
  minDelay : num;
  lastRequest : Z
}.

(** [new DelayRateLimiter(requestsPerSecond = 5)] *)
Definition constructor (requestsPerSecond : num) : t :=
  {| minDelay := Fin 1000 / requestsPerSecond; lastRequest := 0 |}.

(** [wait()]: [now] is the clock reading on entry and [resumed] the reading
    stored in [lastRequest] at the end, after the timer has fired when there
    was one.  The result carries the delay handed to [setTimeout], if any. *)
Definition wait (now resumed : Z) (s : t) : option num * t :=
  let timeSinceLastRequest := Fin (inject_Z (now - lastRequest s)) in
  let waitTime :=
    if timeSinceLastRequest <? minDelay s
    then Some (minDelay s - timeSinceLastRequest)
    else None in
  (waitTime, {| minDelay := minDelay s; lastRequest := resumed |}).

End DelayRateLimiter.

(* ================================================================== *)
(** * n8n-entry.js *)
(* ================================================================== *)

Module N8N.

Import Strategy Risk CandlePatterns.

(** [items[0].json]: an object whose [candles] and [klines] properties are
    arrays of candles or missing, or an array of candles itself. *)
Inductive InputData : Type :=
| DataObject (candles klines : option (list Candle))
| DataArray (cs : list Candle).

(** An n8n item; [json] may be missing. *)
Record Item : Type := mkItem { json : option InputData }.

(** [inputData.candles || inputData.klines || inputData], when the result
    is an array: an array is truthy even when it is empty, and an object
    with neither property is not an array. *)
Definition selectCandles (inputData : InputData) : option (list Candle) :=
  match inputData with
  | DataObject (Some cs) _ => Some cs
  | DataObject None (Some ks) => Some ks
  | DataObject None None => None
  | DataArray cs => Some cs
  end.

(** The [tradeParams] object: the risk parameters without their [signal]. *)
Record TradeParams : Type := mkTradeParams {
  tp_side : option Side;
  tp_entry : num;
  tp_stopLoss : option num;
  tp_takeProfit : option num;
  tp_quantity : num;
  tp_positionSizeUSDT : num;
  tp_riskRewardRatio : num;
  tp_riskAmount : num;
  tp_potentialProfit : num;
  tp_stopLossPercent : option num;
  tp_takeProfitPercent : option num
}.

Definition tradeParamsOf (riskParams : RiskParameters) : TradeParams :=
  {| tp_side := side riskParams;
     tp_entry := entry riskParams;
     tp_stopLoss := stopLoss riskParams;
     tp_takeProfit := takeProfit riskParams;
     tp_quantity := quantity riskParams;
     tp_positionSizeUSDT := positionSizeUSDT riskParams;
     tp_riskRewardRatio := riskRewardRatio riskParams;
     tp_riskAmount := riskAmount riskParams;
     tp_potentialProfit := potentialProfit riskParams;
     tp_stopLossPercent := stopLossPercent riskParams;
     tp_takeProfitPercent := takeProfitPercent riskParams |}.

Record MarketContext : Type := mkMarketContext {
  mc_trend : Trend;
  mc_rsi : num;
  mc_ema9 : num;
  mc_ema21 : num;
  mc_candlePatterns : string;
  mc_signal : SignalKind;
  mc_confidence : num
}.

Record Analysis : Type := mkAnalysis {
  candlesAnalyzed : nat;
  latestCandleTime : option string;
  analysisTime : string
}.

(** The [json] of a successful run. *)
Record Report : Type := mkReport {
  out_signal : SignalKind;
  out_confidence : num;
  out_timestamp : string;
  out_indicators : Indicators;
  out_trend : Trend;
  out_crossover : Crossover;
  out_currentPrice : num;
  out_patterns : list Pattern;
  tradeParams : option TradeParams;
  riskValidation : option ValidationResult;
  marketContext : MarketContext;
  analysis : Analysis
}.

(** The single item returned: the early return, the [catch] block, or the
    report. *)
Inductive Output : Type :=
| NoCandles (timestamp : string)
| Failure (e : error) (timestamp : string)
| Success (r : Report).

Definition typeName (t : PatternType) : string :=
  match t with
  | DOJI => "DOJI"
  | HAMMER => "HAMMER"
  | HANGING_MAN => "HANGING_MAN"
  | SHOOTING_STAR => "SHOOTING_STAR"
  end.

(** [patterns.map(p => p.type).join(', ') || 'None detected'] *)
Definition candlePatterns (patterns : list Pattern) : string :=
  let joined := String.concat ", " (map (fun p => typeName (pattern_type p)) patterns) in
  if String.eqb joined EmptyString then "None detected" else joined.

Section ProcessForN8N.

Context {TI : TechnicalIndicators}.

(** The body of the [try] block once [candles] is a non-empty array;
    [clock] is what [new Date().toISOString()] returns. *)
Definition report (clock : string) (candles : list Candle) : result Report :=
  match analyzeMarket clock candles with
  | Err e => Err e
  | Ok signal_ =>
      let patterns := detectCandlePatterns candles 3 in
      let risk : result (option (RiskParameters * ValidationResult)) :=
        match signal signal_ with
        | HOLD => Ok None
        | _ =>
            match calculateDynamicRisk signal_ candles None (Fin 100) with
            | Err e => Err e
            | Ok riskParams =>
                Ok (Some (riskParams, validateRiskParameters riskParams noLimits))
            end
        end in
      match risk with
      | Err e => Err e
      | Ok r =>
          Ok {| out_signal := signal signal_;
                out_confidence := confidence signal_;
                out_timestamp := signalTimestamp signal_;
                out_indicators := indicators signal_;
                out_trend := trend signal_;
                out_crossover := crossover signal_;
                out_currentPrice := currentPrice signal_;
                out_patterns := patterns;
                tradeParams := option_map (fun p => tradeParamsOf (fst p)) r;
                riskValidation := option_map snd r;
                marketContext :=
                  {| mc_trend := trend signal_;
                     mc_rsi := rsi (indicators signal_);
                     mc_ema9 := ema9 (indicators signal_);
                     mc_ema21 := ema21 (indicators signal_);
                     mc_candlePatterns := candlePatterns patterns;
                     mc_signal := signal signal_;
                     mc_confidence := confidence signal_ |};
                analysis :=
                  {| candlesAnalyzed := List.length candles;
                     latestCandleTime :=
                       option_map timestamp (index candles (len candles - 1));
                     analysisTime := clock |} |}
      end
  end.

(** [processForN8N(items)]: a missing [items[0]] or a missing [json] makes
    the first two property reads throw a [TypeError], which the [catch]
    block reports like every other error. *)
Definition processForN8N (clock : string) (items : list Item) : Output :=
  match items with
  | [] => Failure TypeError clock
  | item :: _ =>
      match json item with
      | None => Failure TypeError clock
      | Some inputData =>
          match selectCandles inputData with
          | None | Some [] => NoCandles clock
          | Some candles =>
              match report clock candles with
              | Ok r => Success r
              | Err e => Failure e clock
              end
          end
      end
  end.

End ProcessForN8N.

End N8N.

(* ================================================================== *)
(** * The backtest script *)
(* ================================================================== *)

Module Backtest.

Import Strategy Risk.

(** [CONFIG] *)
Definition initialBalance : num := Fin 5000.
Definition configPositionSizeUSDT : num := Fin 100.
Definition configCommission : num := Fin (1 # 10).
Definition configSlippage : num := Fin (5 # 100).

(** The object [openTrade] stores in [openPosition]. *)
Record Position : Type := mkPosition {
  pos_signal : SignalKind;
  pos_entry : num;
  pos_stopLoss : option num;
  pos_takeProfit : option num;
  pos_quantity : num;
  pos_positionSize : num;
  entryIndex : nat;
  entryTime : string;
  cost : num
}.

Inductive CloseReason : Type := STOP_LOSS | TAKE_PROFIT | END_OF_DATA.

(** An element of [trades]: the position spread into the record, and what
    [closeTrade] adds. *)
Record Trade : Type := mkTrade {
  position : Position;
  exit : num;
  exitTime : string;
  exitIndex : nat;
  reason : option CloseReason;
  pnl : num;
  pnlPercent : num;
  duration : Z
}.

Record Stats : Type := mkStats {
  totalTrades : nat;
  wins : nat;
  losses : nat;
  breakeven : nat;
  totalProfit : num;
  totalLoss : num;
  maxDrawdown : num;
  peakBalance : num;
  consecutiveWins : nat;
  consecutiveLosses : nat;
  maxConsecutiveWins : nat;
  maxConsecutiveLosses : nat
}.

(** The module-level variables of the script. *)
Record State : Type := mkState {
  balance : num;
  trades : list Trade;
  openPosition : option Position;
  stats : Stats
}.

Definition initialState : State :=
  {| balance := initialBalance;
     trades := [];
     openPosition := None;
     stats :=
       {| totalTrades := 0; wins := 0; losses := 0; breakeven := 0;
          totalProfit := Fin 0; totalLoss := Fin 0; maxDrawdown := Fin 0;
          peakBalance := initialBalance;
          consecutiveWins := 0; consecutiveLosses := 0;
          maxConsecutiveWins := 0; maxConsecutiveLosses := 0 |} |}.

(** [ToNumber] of a value that may be [null]: [null] converts to [0]. *)
Definition nullToNumber (v : option num) : num :=
  match v with Some x => x | None => Fin 0 end.

(** [openTrade(signal, riskParams, index)] *)
Definition openTrade
    (signal_ : Signal) (riskParams : RiskParameters) (index : nat) (st : State)
  : State :=
  let commission := (configPositionSizeUSDT * configCommission) / Fin 100 in
  let slippage := (configPositionSizeUSDT * configSlippage) / Fin 100 in
  let totalCost := commission + slippage in
  {| balance := balance st - totalCost;
     trades := trades st;
     openPosition :=
       Some {| pos_signal := signal signal_;
               pos_entry := entry riskParams;
               pos_stopLoss := stopLoss riskParams;
               pos_takeProfit := takeProfit riskParams;
               pos_quantity := quantity riskParams;
               pos_positionSize := configPositionSizeUSDT;
               entryIndex := index;
               entryTime := signalTimestamp signal_;
               cost := totalCost |};
     stats := stats st |}.

(** The statistics after a trade with profit [pnl] that leaves [balance]. *)
Definition updateStats (pnl balance : num) (s : Stats) : Stats :=
  let s :=
    {| totalTrades := S (totalTrades s); wins := wins s; losses := losses s;
       breakeven := breakeven s; totalProfit := totalProfit s;
       totalLoss := totalLoss s; maxDrawdown := maxDrawdown s;
       peakBalance := peakBalance s; consecutiveWins := consecutiveWins s;
       consecutiveLosses := consecutiveLosses s;
       maxConsecutiveWins := maxConsecutiveWins s;
       maxConsecutiveLosses := maxConsecutiveLosses s |} in
  let s :=
    if pnl >? Fin 0 then
      {| totalTrades := totalTrades s; wins := S (wins s); losses := losses s;
         breakeven := breakeven s; totalProfit := totalProfit s + pnl;
         totalLoss := totalLoss s; maxDrawdown := maxDrawdown s;
         peakBalance := peakBalance s;
         consecutiveWins := S (consecutiveWins s);
         consecutiveLosses := 0;
         maxConsecutiveWins :=
           Nat.max (maxConsecutiveWins s) (S (consecutiveWins s));
         maxConsecutiveLosses := maxConsecutiveLosses s |}
    else if pnl <? Fin 0 then
      {| totalTrades := totalTrades s; wins := wins s; losses := S (losses s);
         breakeven := breakeven s; totalProfit := totalProfit s;
         totalLoss := totalLoss s + Math_abs pnl; maxDrawdown := maxDrawdown s;
         peakBalance := peakBalance s;
         consecutiveWins := 0;
         consecutiveLosses := S (consecutiveLosses s);
         maxConsecutiveWins := maxConsecutiveWins s;
         maxConsecutiveLosses :=
           Nat.max (maxConsecutiveLosses s) (S (consecutiveLosses s)) |}
    else
      {| totalTrades := totalTrades s; wins := wins s; losses := losses s;
         breakeven := S (breakeven s); totalProfit := totalProfit s;
         totalLoss := totalLoss s; maxDrawdown := maxDrawdown s;
         peakBalance := peakBalance s; consecutiveWins := consecutiveWins s;
         consecutiveLosses := consecutiveLosses s;
         maxConsecutiveWins := maxConsecutiveWins s;
         maxConsecutiveLosses := maxConsecutiveLosses s |} in
  let peak := if balance >? peakBalance s then balance else peakBalance s in
  let drawdown := ((peak - balance) / peak) * Fin 100 in
  {| totalTrades := totalTrades s; wins := wins s; losses := losses s;
     breakeven := breakeven s; totalProfit := totalProfit s;
     totalLoss := totalLoss s;
     maxDrawdown := Math_max (maxDrawdown s) drawdown;
     peakBalance := peak;
     consecutiveWins := consecutiveWins s;
     consecutiveLosses := consecutiveLosses s;
     maxConsecutiveWins := maxConsecutiveWins s;
     maxConsecutiveLosses := maxConsecutiveLosses s |}.

(** The body of [closeTrade(exitPrice, reason, candle, index)] for the open
    position [p]. *)
Definition closeTradeOf
    (p : Position) (exitPrice : num) (reason : option CloseReason)
    (candle : Candle) (index : nat) (st : State) : State :=
  let commission := (configPositionSizeUSDT * configCommission) / Fin 100 in
  let pnl :=
    match pos_signal p with
    | BUY => (exitPrice - pos_entry p) * pos_quantity p
    | _ => (pos_entry p - exitPrice) * pos_quantity p
    end in
  let pnl := pnl - commission in
  let balance := balance st + (configPositionSizeUSDT + pnl) in
  let trade :=
    {| position := p;
       exit := exitPrice;
       exitTime := timestamp candle;
       exitIndex := index;
       reason := reason;
       pnl := parseFloat (toFixed pnl 2);
       pnlPercent :=
         parseFloat (toFixed ((pnl / configPositionSizeUSDT) * Fin 100) 2);
       duration := (Z.of_nat index - Z.of_nat (entryIndex p))%Z |} in
  {| balance := balance;
     trades := trades st ++ [trade];
     openPosition := None;
     stats := updateStats pnl balance (stats st) |}.

(** [closeTrade]: reading [openPosition.signal] throws when no position is
    open. *)
Definition closeTrade
    (exitPrice : num) (reason : option CloseReason) (candle : Candle)
    (index : nat) (st : State) : result State :=
  match openPosition st with
  | Some p => Ok (closeTradeOf p exitPrice reason candle index st)
  | None => Err TypeError
  end.

(** The price and the reason [checkAndClosePosition] settles on: the
    take-profit test comes second and overwrites the stop-loss. *)
Definition closeDecision (p : Position) (candle : Candle)
  : option num * option CloseReason :=
  let d : option num * option CloseReason := (None, None) in
  let d :=
    match pos_signal p with
    | BUY =>
        if low candle <=? nullToNumber (pos_stopLoss p)
        then (pos_stopLoss p, Some STOP_LOSS) else d
    | SELL =>
        if high candle >=? nullToNumber (pos_stopLoss p)
        then (pos_stopLoss p, Some STOP_LOSS) else d
    | HOLD => d
    end in
  match pos_signal p with
  | BUY =>
      if high candle >=? nullToNumber (pos_takeProfit p)
      then (pos_takeProfit p, Some TAKE_PROFIT) else d
  | SELL =>
      if low candle <=? nullToNumber (pos_takeProfit p)
      then (pos_takeProfit p, Some TAKE_PROFIT) else d
  | HOLD => d
  end.

(** [checkAndClosePosition(candle, index)]; [if (closePrice)] is false for
    [null], [0] and [NaN]. *)
Definition checkAndClosePosition (candle : Candle) (index : nat) (st : State)
  : bool * State :=
  match openPosition st with
  | None => (false, st)
  | Some p =>
      match closeDecision p candle with
      | (Some closePrice, closeReason) =>
          if truthy closePrice
          then (true, closeTradeOf p closePrice closeReason candle index st)
          else (false, st)
      | (None, _) => (false, st)
      end
  end.

Section RunBacktest.

Context {TI : TechnicalIndicators}.

(** One turn of the loop of [runBacktest], at index [i] on [currentCandle];
    [clock i] is the time [analyzeMarket] reads there.  Whatever the [try]
    block throws is dropped. *)
Definition turn
    (clock : nat -> string) (candles : list Candle) (currentCandle : Candle)
    (i : nat) (st : State) : State :=
  let lookbackCandles := firstn (i + 1) candles in
  match openPosition st with
  | Some _ => snd (checkAndClosePosition currentCandle i st)
  | None =>
      match analyzeMarket (clock i) lookbackCandles with
      | Err _ => st
      | Ok signal_ =>
          if negb (match signal signal_ with HOLD => true | _ => false end)
             && (confidence signal_ >=? Fin 60)
          then
            match calculateDynamicRisk signal_ lookbackCandles None (Fin 100) with
            | Err _ => st
            | Ok riskParams =>
                let validation := validateRiskParameters riskParams noLimits in
                if valid validation then openTrade signal_ riskParams i st
                else st
            end
          else st
      end
  end.

(** [for (let i = ...; i < candles.length; i++)] from index [i] on, [rest]
    being the candles from that index. *)
Fixpoint loop
    (clock : nat -> string) (candles rest : list Candle) (i : nat) (st : State)
  : State :=
  match rest with
  | [] => st
  | currentCandle :: rest' =>
      loop clock candles rest' (S i) (turn clock candles currentCandle i st)
  end.

(** [runBacktest(candles)] from the state [st] of the module variables. *)
Definition runBacktest
    (clock : nat -> string) (candles : list Candle) (st : State)
  : result State :=
  let st := loop clock candles (skipn 21 candles) 21 st in
  match openPosition st with
  | None => Ok st
  | Some _ =>
      match index candles (len candles - 1) with
      | None => Err TypeError
      | Some finalCandle =>
          closeTrade (close finalCandle) (Some END_OF_DATA) finalCandle
            (List.length candles - 1) st
      end
  end.

End RunBacktest.

(** What the counters of [stats] keep true. *)
Definition countersConsistent (st : State) : Prop :=
  let s := stats st in
  totalTrades s = List.length (trades st)
  /\ totalTrades s = (wins s + losses s + breakeven s)%nat
  /\ (consecutiveWins s = 0%nat \/ consecutiveLosses s = 0%nat)
  /\ (consecutiveWins s <= maxConsecutiveWins s <= wins s)%nat
  /\ (consecutiveLosses s <= maxConsecutiveLosses s <= losses s)%nat.

(** A recorded trade lies within the candles before index [i]: it was
    entered at index 21 or later and left no earlier, strictly later unless
    it was closed at the end of the data; its exit price is the level named
    by its reason. *)
Definition tradeWithin (i : nat) (t : Trade) : Prop :=
  (21 <= entryIndex (position t) <= exitIndex t)%nat
  /\ (exitIndex t < i)%nat
  /\ duration t
     = (Z.of_nat (exitIndex t) - Z.of_nat (entryIndex (position t)))%Z
  /\ match reason t with
     | Some STOP_LOSS =>
         (entryIndex (position t) < exitIndex t)%nat
         /\ pos_stopLoss (position t) = Some (exit t)
     | Some TAKE_PROFIT =>
         (entryIndex (position t) < exitIndex t)%nat
         /\ pos_takeProfit (position t) = Some (exit t)
     | Some END_OF_DATA => True
     | None => False
     end.

(** Each trade is left before the next one is entered. *)
Definition sequential (ts : list Trade) : Prop :=
  ForallOrdPairs
    (fun t1 t2 => (exitIndex t1 < entryIndex (position t2))%nat) ts.

(** What holds of the module variables when the loop reaches index [i]. *)
Definition loopInvariant (i : nat) (st : State) : Prop :=
  countersConsistent st
  /\ Forall (tradeWithin i) (trades st)
  /\ sequential (trades st)
  /\ match openPosition st with
     | None => True
     | Some p =>
         (21 <= entryIndex p < i)%nat
         /\ Forall (fun t => (exitIndex t < entryIndex p)%nat) (trades st)
     end.

End Backtest.

(* ================================================================== *)
(** * rateLimiter.js: the weighted limiter of the exchange *)
(* ================================================================== *)

Module MEXCRateLimiter.

Record t : Type := mkMEXCRateLimiter {
  ipLimiter : RateLimiter.t;
  uidLimiter : RateLimiter.t
}.

(** [new MEXCRateLimiter()]; each of the two buckets reads the clock. *)
Definition constructor (nowIp nowUid : Z) : t :=
  {| ipLimiter := RateLimiter.constructor nowIp (Fin 60) (Fin 15);
     uidLimiter := RateLimiter.constructor nowUid (Fin 100) (Fin 20) |}.

(** The object literal [weights]. *)
Definition weights : list (string * num) :=
  [("klines", Fin 1); ("depth", Fin 1); ("ticker", Fin 1); ("order", Fin 1);
   ("account", Fin 10); ("default", Fin 1)]%string.

(** The property names an object literal inherits from [Object.prototype]. *)
Definition inheritedKeys : list string :=
  ["constructor"; "__proto__"; "hasOwnProperty"; "isPrototypeOf";
   "propertyIsEnumerable"; "toLocaleString"; "toString"; "valueOf";
   "__defineGetter__"; "__defineSetter__"; "__lookupGetter__";
   "__lookupSetter__"]%string.

Fixpoint lookup (key : string) (o : list (string * num)) : option num :=
  match o with
  | [] => None
  | (k, v) :: rest => if String.eqb k key then Some v else lookup key rest
  end.

(** [weights[endpoint] || weights.default], as the number the buckets
    compute with.  An own property gives its weight; a name inherited from
    [Object.prototype] gives a function or an object, which is truthy and
    which the comparison and the subtraction of [tryConsume] and
    [waitForToken] convert to [NaN]; any other name gives the default. *)
Definition weightOf (endpoint : string) : num :=
  match lookup endpoint weights with
  | Some w => if truthy w then w else ToNumber (lookup "default" weights)
  | None =>
      if existsb (String.eqb endpoint) inheritedKeys then NaN
      else ToNumber (lookup "default" weights)
  end.

(** [wait(endpoint = 'default')]: the two waits of [Promise.all] run on
    their own buckets, each along the clock readings of its attempts; the
    promise is resolved once both are. *)
Definition wait (endpoint : string) (ipClock uidClock : list Z) (s : t)
  : bool * t :=
  let weight := weightOf endpoint in
  let '(ipResolved, _, ip) :=
    RateLimiter.waitForToken ipClock weight (ipLimiter s) in
  let '(uidResolved, _, uid) :=
    RateLimiter.waitForToken uidClock weight (uidLimiter s) in
  (ipResolved && uidResolved, {| ipLimiter := ip; uidLimiter := uid |}).

End MEXCRateLimiter.

(* ================================================================== *)
(** * mexc.js: the query string *)
(* ================================================================== *)

(** Strings here are the byte strings of Rocq: a JavaScript string stands
    for its UTF-8 bytes.  For text without surrogate pairs the order of the
    bytes is the order of the UTF-16 code units by which [sort] compares,
    and [encodeURIComponent] escapes the UTF-8 bytes one by one. *)
Module MexcClient.

Import Ascii.
Local Open Scope string_scope.

(** The characters [encodeURIComponent] leaves alone: letters, digits and
    [- _ . ! ~ * ' ( )]. *)
Definition isUnreserved (c : ascii) : bool :=
  let n := nat_of_ascii c in
  ((65 <=? n) && (n <=? 90))%nat || ((97 <=? n) && (n <=? 122))%nat
  || ((48 <=? n) && (n <=? 57))%nat
  || existsb (Ascii.eqb c) ["-"; "_"; "."; "!"; "~"; "*"; "'"; "("; ")"]%char.

Definition hexDigit (n : nat) : ascii :=
  nth n ["0"; "1"; "2"; "3"; "4"; "5"; "6"; "7"; "8"; "9";
         "A"; "B"; "C"; "D"; "E"; "F"]%char "0"%char.

Definition percentEncode (c : ascii) : string :=
  let n := nat_of_ascii c in
  String "%" (String (hexDigit (n / 16)) (String (hexDigit (n mod 16)) "")).

Fixpoint encodeURIComponent (s : string) : string :=
  match s with
  | EmptyString => ""
  | String c rest =>
      (if isUnreserved c then String c "" else percentEncode c)
      ++ encodeURIComponent rest
  end.

(** [s.replace(/c/g, by)] for a single character [c]. *)
Fixpoint replaceAll (c : ascii) (by_ : string) (s : string) : string :=
  match s with
  | EmptyString => ""
  | String x rest =>
      (if Ascii.eqb x c then by_ else String x "") ++ replaceAll c by_ rest
  end.

(** A [params] object: its own properties in the order of [Object.keys],
    the values already converted to strings. *)
Definition Params : Type := list (string * string).

Definition keys (params : Params) : list string := map fst params.

Fixpoint lookup (key : string) (params : Params) : option string :=
  match params with
  | [] => None
  | (k, v) :: rest => if String.eqb k key then Some v else lookup key rest
  end.

(** [`${params[key]}`] *)
Definition property (params : Params) (key : string) : string :=
  match lookup key params with Some v => v | None => "undefined" end.

(** [Array.prototype.sort()] without a comparator, on strings. *)
Fixpoint insert (k : string) (sorted : list string) : list string :=
  match sorted with
  | [] => [k]
  | h :: t => if String.leb k h then k :: sorted else h :: insert k t
  end.

Fixpoint sort (l : list string) : list string :=
  match l with
  | [] => []
  | h :: t => insert h (sort t)
  end.

(** [buildQueryString(params)] *)
Definition buildQueryString (params : Params) : string :=
  replaceAll ")" "%29"
    (replaceAll "(" "%28"
       (String.concat "&"
          (map (fun key => key ++ "=" ++ encodeURIComponent (property params key))
               (sort (keys params))))).

(** The order [sort] arranges the names in. *)
Definition le (a b : string) : Prop := String.leb a b = true.

(** The number of occurrences of a character. *)
Fixpoint count (c : ascii) (s : string) : nat :=
  match s with
  | EmptyString => 0
  | String x rest => (if Ascii.eqb x c then 1 else 0) + count c rest
  end.

End MexcClient.

(* ================================================================== *)
(** * More sample inputs *)
(* ================================================================== *)

Module MoreSamples.

Import Strategy Risk CandlePatterns.

Definition ohlc (o h l c : Q) : Candle :=
  {| open_ := Fin o; high := Fin h; low := Fin l; close := Fin c;
     volume := Fin 1000; timestamp := "2024-01-01T00:00:00.000Z" |}.

(** A plain candle, a hammer, a doji, and a candle that is both a doji and
    a shooting star. *)
Definition plainCandle : Candle := ohlc 1 (105 # 100) (95 # 100) (103 # 100).
Definition hammerCandle : Candle :=
  ohlc 1 (1021 # 1000) (9 # 10) (102 # 100).
Definition dojiCandle : Candle := ohlc 1 (11 # 10) (9 # 10) 1.
Definition starCandle : Candle := ohlc 1 (11 # 10) 1 (1001 # 1000).

Definition patternCandles : list Candle :=
  [plainCandle; plainCandle; hammerCandle; dojiCandle; starCandle].

Definition pattern (t : PatternType) (s : Strength) (i : nat) : Pattern :=
  {| pattern_type := t; pattern_strength := s; pattern_index := i |}.

(** An open BUY position entered at index 25, and a candle that touches
    both of its levels. *)
Definition longPosition : Backtest.Position :=
  {| Backtest.pos_signal := BUY;
     Backtest.pos_entry := Fin 1;
     Backtest.pos_stopLoss := Some (Fin (95 # 100));
     Backtest.pos_takeProfit := Some (Fin (11 # 10));
     Backtest.pos_quantity := Fin 100;
     Backtest.pos_positionSize := Fin 100;
     Backtest.entryIndex := 25;
     Backtest.entryTime := "2024-01-01T00:00:00.000Z";
     Backtest.cost := Fin (15 # 100) |}.

Definition holding : Backtest.State :=
  {| Backtest.balance := Fin (499985 # 100);
     Backtest.trades := [];
     Backtest.openPosition := Some longPosition;
     Backtest.stats := Backtest.stats Backtest.initialState |}.

Definition wideCandle : Candle := ohlc 1 (12 # 10) (9 # 10) 1.

End MoreSamples.

(* ================================================================== *)
(** * Facts about JavaScript numbers *)
(* ================================================================== *)

Module JSNumberFacts.

(** Turns what [Qcompare] and the boolean tests returned into
    propositions [lra] reads. *)
Ltac qprop :=
  repeat match goal with
  | H : (_ ?= _)%Q = Eq |- _ => apply <- Qeq_alt in H
  | H : (_ ?= _)%Q = Lt |- _ => apply <- Qlt_alt in H
  | H : (_ ?= _)%Q = Gt |- _ => apply <- Qgt_alt in H
  | H : Qeq_bool _ _ = true |- _ => apply Qeq_bool_iff in H
  | H : Qeq_bool _ _ = false |- _ => apply Qeq_bool_neq in H
  | H : Qle_bool _ _ = true |- _ => apply Qle_bool_iff in H
  | H : Qle_bool _ _ = false |- _ =>
      apply not_true_iff_false in H; rewrite Qle_bool_iff in H
  end.

(** Splits on one comparison of rationals occurring in the goal. *)
Ltac qsplit :=
  match goal with
  | |- context [(?a ?= ?b)%Q] =>
      let E := fresh "E" in destruct (a ?= b)%Q eqn:E
  | |- context [Qeq_bool ?a ?b] =>
      let E := fresh "E" in destruct (Qeq_bool a b) eqn:E
  | |- context [Qle_bool ?a ?b] =>
      let E := fresh "E" in destruct (Qle_bool a b) eqn:E
  end.

Ltac qsplit_in H :=
  match type of H with
  | context [(?a ?= ?b)%Q] =>
      let E := fresh "E" in destruct (a ?= b)%Q eqn:E
  | context [Qeq_bool ?a ?b] =>
      let E := fresh "E" in destruct (Qeq_bool a b) eqn:E
  | context [Qle_bool ?a ?b] =>
      let E := fresh "E" in destruct (Qle_bool a b) eqn:E
  end.

Ltac qlra := first [ easy | lra | exfalso; lra ].

Ltac unfold_cmp :=
  unfold ltb, leb, gtb, geb, eqb, Math_min, Math_max, cmp in *.

Lemma ltb_Fin (a b : Q) : (Fin a <? Fin b) = true <-> (a < b)%Q.
Proof.
  unfold_cmp. destruct (a ?= b)%Q eqn:E; qprop; split; intros; qlra.
Qed.

Lemma leb_Fin (a b : Q) : (Fin a <=? Fin b) = true <-> (a <= b)%Q.
Proof.
  unfold_cmp. destruct (a ?= b)%Q eqn:E; qprop; split; intros; qlra.
Qed.

Lemma gtb_Fin (a b : Q) : (Fin a >? Fin b) = true <-> (b < a)%Q.
Proof.
  unfold_cmp. destruct (a ?= b)%Q eqn:E; qprop; split; intros; qlra.
Qed.

Lemma geb_Fin (a b : Q) : (Fin a >=? Fin b) = true <-> (b <= a)%Q.
Proof.
  unfold_cmp. destruct (a ?= b)%Q eqn:E; qprop; split; intros; qlra.
Qed.

Lemma eqb_Fin (a b : Q) : eqb (Fin a) (Fin b) = true <-> (a == b)%Q.
Proof.
  unfold_cmp. destruct (a ?= b)%Q eqn:E; qprop; split; intros; qlra.
Qed.

Lemma gtb_ltb (x y : num) : (x >? y) = (y <? x).
Proof.
  destruct x as [a| | |], y as [b| | |]; try reflexivity.
  unfold_cmp. rewrite <- (Qcompare_antisym a b).
  destruct (a ?= b)%Q; reflexivity.
Qed.

Lemma geb_leb (x y : num) : (x >=? y) = (y <=? x).
Proof.
  destruct x as [a| | |], y as [b| | |]; try reflexivity.
  unfold_cmp. rewrite <- (Qcompare_antisym a b).
  destruct (a ?= b)%Q; reflexivity.
Qed.

Lemma gtb_false_of_same (x y : num) : x =n= y -> (x >? y) = false.
Proof.
  destruct x as [a| | |], y as [b| | |]; simpl; try easy.
  intros H. unfold_cmp. destruct (a ?= b)%Q eqn:E; qprop; qlra.
Qed.

Lemma ltb_false_of_same (x y : num) : x =n= y -> (x <? y) = false.
Proof.
  destruct x as [a| | |], y as [b| | |]; simpl; try easy.
  intros H. unfold_cmp. destruct (a ?= b)%Q eqn:E; qprop; qlra.
Qed.

Lemma same_refl (x : num) : x =n= x.
Proof. destruct x; simpl; auto. reflexivity. Qed.

Lemma same_sym (x y : num) : x =n= y -> y =n= x.
Proof. destruct x, y; simpl; auto. intros H; symmetry; exact H. Qed.

Lemma same_trans (x y z : num) : x =n= y -> y =n= z -> x =n= z.
Proof.
  destruct x, y, z; simpl; try easy. intros H1 H2. now rewrite H1.
Qed.

Lemma pow10_pos (d : nat) : (0 < pow10 d)%Q.
Proof.
  unfold pow10. change 0%Q with (inject_Z 0). rewrite <- Zlt_Qlt.
  apply Z.pow_pos_nonneg; lia.
Qed.

Local Open Scope Q_scope.

Lemma Qfloor_le_of_lt_succ (x : Q) (n : Z) :
  x < inject_Z (n + 1) -> (Qfloor x <= n)%Z.
Proof.
  intros H. pose proof (Qfloor_le x) as Hf.
  assert (inject_Z (Qfloor x) < inject_Z (n + 1)) as Hlt by lra.
  rewrite <- Zlt_Qlt in Hlt. lia.
Qed.

Lemma pow10_add (m n : nat) : pow10 (m + n) == pow10 m * pow10 n.
Proof.
  unfold pow10. rewrite Nat2Z.inj_add, Z.pow_add_r by lia.
  rewrite inject_Z_mult. reflexivity.
Qed.

(** The rounded magnitude. *)
Lemma scaled_floor_mono (a b : Q) (d : nat) :
  a <= b ->
  inject_Z (Qfloor (a * pow10 d + (1 # 2))) / pow10 d
  <= inject_Z (Qfloor (b * pow10 d + (1 # 2))) / pow10 d.
Proof.
  intros H. pose proof (pow10_pos d) as Hp.
  apply Qmult_le_compat_r.
  - rewrite <- Zle_Qle. apply Qfloor_resp_le.
    assert (a * pow10 d <= b * pow10 d) by (apply Qmult_le_compat_r; lra).
    lra.
  - apply Qlt_le_weak, Qinv_lt_0_compat, Hp.
Qed.

Lemma scaled_floor_nonneg (a : Q) (d : nat) :
  0 <= a -> 0 <= inject_Z (Qfloor (a * pow10 d + (1 # 2))) / pow10 d.
Proof.
  intros H. pose proof (pow10_pos d) as Hp.
  apply Qmult_le_0_compat.
  - change 0 with (inject_Z 0). rewrite <- Zle_Qle.
    change 0%Z with (Qfloor (inject_Z 0)) at 1. apply Qfloor_resp_le.
    assert (0 <= a * pow10 d) by (apply Qmult_le_0_compat; lra).
    change (inject_Z 0) with 0. lra.
  - apply Qlt_le_weak, Qinv_lt_0_compat, Hp.
Qed.

Lemma scaled_floor_below_big (a : Q) (d : nat) :
  a < pow10 21 ->
  inject_Z (Qfloor (a * pow10 d + (1 # 2))) / pow10 d <= pow10 21.
Proof.
  intros H. pose proof (pow10_pos d) as Hp.
  apply Qle_shift_div_r; [exact Hp |].
  rewrite <- pow10_add.
  change (pow10 (21 + d)) with (inject_Z (10 ^ Z.of_nat (21 + d))).
  rewrite <- Zle_Qle. apply Qfloor_le_of_lt_succ.
  rewrite inject_Z_plus.
  change (inject_Z (10 ^ Z.of_nat (21 + d))) with (pow10 (21 + d)).
  rewrite pow10_add.
  change (inject_Z 1) with 1.
  assert (a * pow10 d < pow10 21 * pow10 d) by (apply Qmult_lt_compat_r; lra).
  lra.
Qed.

Lemma toFixedQ_of_nonneg (a : Q) (d : nat) :
  0 <= a ->
  toFixedQ a d =
    if Qle_bool (pow10 21) a then a
    else inject_Z (Qfloor (a * pow10 d + (1 # 2))) / pow10 d.
Proof.
  intros H. unfold toFixedQ. cbv zeta.
  assert (Qfloor (Qabs a * pow10 d + (1 # 2))
          = Qfloor (a * pow10 d + (1 # 2))) as ->
    by (apply Qfloor_comp; rewrite (Qabs_pos a H); reflexivity).
  assert (Qle_bool (pow10 21) (Qabs a) = Qle_bool (pow10 21) a) as ->
    by (apply Qleb_comp; [reflexivity | apply Qabs_pos, H]).
  assert (Qle_bool 0 a = true) as -> by (apply Qle_bool_iff, H).
  reflexivity.
Qed.

Lemma toFixedQ_nonneg (a : Q) (d : nat) : 0 <= a -> 0 <= toFixedQ a d.
Proof.
  intros H. rewrite (toFixedQ_of_nonneg a d H).
  destruct (Qle_bool (pow10 21) a); [exact H |].
  apply scaled_floor_nonneg, H.
Qed.

Lemma toFixedQ_opp (a : Q) (d : nat) :
  a < 0 -> toFixedQ a d == - toFixedQ (- a) d.
Proof.
  intros H. unfold toFixedQ. cbv zeta.
  assert (Qfloor (Qabs (- a) * pow10 d + (1 # 2))
          = Qfloor (Qabs a * pow10 d + (1 # 2))) as ->
    by (apply Qfloor_comp; rewrite Qabs_opp; reflexivity).
  assert (Qle_bool (pow10 21) (Qabs (- a)) = Qle_bool (pow10 21) (Qabs a)) as ->
    by (apply Qleb_comp; [reflexivity | apply Qabs_opp]).
  destruct (Qle_bool (pow10 21) (Qabs a)); [lra |].
  destruct (Qle_bool 0 a) eqn:E; destruct (Qle_bool 0 (- a)) eqn:E'; qprop;
    lra.
Qed.

Lemma toFixedQ_mono_nonneg (a b : Q) (d : nat) :
  0 <= a -> a <= b -> toFixedQ a d <= toFixedQ b d.
Proof.
  intros Ha Hab.
  rewrite (toFixedQ_of_nonneg a d Ha), (toFixedQ_of_nonneg b d) by lra.
  destruct (Qle_bool (pow10 21) a) eqn:Ea;
    destruct (Qle_bool (pow10 21) b) eqn:Eb; qprop.
  - exact Hab.
  - lra.
  - apply Qnot_le_lt in Ea.
    pose proof (scaled_floor_below_big a d Ea). lra.
  - apply scaled_floor_mono, Hab.
Qed.

Lemma toFixedQ_mono (a b : Q) (d : nat) : a <= b -> toFixedQ a d <= toFixedQ b d.
Proof.
  intros Hab.
  destruct (Qlt_le_dec a 0) as [Ha | Ha]; destruct (Qlt_le_dec b 0) as [Hb | Hb].
  - rewrite (toFixedQ_opp a d Ha), (toFixedQ_opp b d Hb).
    apply Qopp_le_compat. apply toFixedQ_mono_nonneg; lra.
  - rewrite (toFixedQ_opp a d Ha).
    pose proof (toFixedQ_nonneg (- a) d). pose proof (toFixedQ_nonneg b d Hb). lra.
  - lra.
  - apply toFixedQ_mono_nonneg; assumption.
Qed.

Lemma toFixedQ_comp (a b : Q) (d : nat) : a == b -> toFixedQ a d == toFixedQ b d.
Proof. intros H. apply Qle_antisym; apply toFixedQ_mono; lra. Qed.


Lemma toFixed_leb (x y : num) (d : nat) :
  (x <=? y)%num = true -> (toFixed x d <=? toFixed y d)%num = true.
Proof.
  destruct x as [a | | |], y as [b | | |]; simpl; try easy.
  rewrite !leb_Fin. apply toFixedQ_mono.
Qed.

Lemma toFixed_same (x y : num) (d : nat) :
  (x =n= y)%num -> (toFixed x d =n= toFixed y d)%num.
Proof.
  destruct x as [a | | |], y as [b | | |]; simpl; try easy.
  apply toFixedQ_comp.
Qed.

End JSNumberFacts.

Import JSNumberFacts.

Import Strategy Risk Samples.
Import RateLimiter.

(* ================================================================== *)
(** * The model on the scenarios of the test suites *)
(* ================================================================== *)

Example toFixed_four_decimals :
  toFixed (Fin 100 / Fin (545 # 1000)) 4 =n= Fin (1834862 # 10000).
Proof. vm_compute. reflexivity. Qed.

Example toFixed_tie : toFixed (Fin (25 # 10)) 0 =n= Fin 3.
Proof. vm_compute. reflexivity. Qed.

Example toFixed_negative_tie : toFixed (Fin (- (15 # 10))) 0 =n= Fin (- 2).
Proof. vm_compute. reflexivity. Qed.

Example Math_round_negative_tie : Math_round (Fin (- (15 # 10))) =n= Fin (- 1).
Proof. vm_compute. reflexivity. Qed.

Example division_by_zero :
  Fin 0 / Fin 0 = NaN /\ Fin 1 / Fin 0 = PInf /\ Fin (- 1) / Fin 0 = NInf.
Proof. repeat split. Qed.

(** "should throw error with insufficient candles" *)
Example risk_three_candles :
  calculateDynamicRisk mockSignal (firstn 3 mockCandles) None (Fin 100)
  = Err InsufficientDataError.
Proof. reflexivity. Qed.

(** The BUY scenario: stop-loss at min(last-5 lows) * 0.995 = 0.515 * 0.995,
    take-profit at entry + 2 * (entry - stopLoss), quantity 100 / entry. *)
Example risk_buy_scenario :
  exists rp,
    calculateDynamicRisk mockSignal mockCandles None (Fin 100) = Ok rp
    /\ rp_signal rp = BUY /\ side rp = Some LONG
    /\ entry rp =n= Fin (545 # 1000)
    /\ ToNumber (stopLoss rp) =n= Fin (512425 # 1000000)
    /\ ToNumber (takeProfit rp) =n= Fin (61015 # 100000)
    /\ quantity rp =n= Fin (1834862 # 10000)
    /\ riskRewardRatio rp =n= Fin 2.
Proof. eexists. split; [vm_compute; reflexivity |]. repeat split. Qed.

(** "should return null values for HOLD signal" *)
Example risk_hold_scenario :
  exists rp,
    calculateDynamicRisk (signalOf HOLD (Fin (545 # 1000))) mockCandles None
      (Fin 100) = Ok rp
    /\ rp_signal rp = HOLD /\ side rp = None
    /\ stopLoss rp = None /\ takeProfit rp = None /\ quantity rp = Fin 0.
Proof. eexists. split; [vm_compute; reflexivity |]. repeat split. Qed.

(** "should validate good risk parameters" and "should reject low
    risk/reward ratio" *)
Example validate_good :
  valid (validateRiskParameters (mockRiskParams (Fin 2)) noLimits) = true
  /\ reasons (validateRiskParameters (mockRiskParams (Fin 2)) noLimits)
     = [AllWithinLimits]
  /\ riskPercent (validateRiskParameters (mockRiskParams (Fin 2)) noLimits)
     =n= Fin 1.
Proof. repeat split. Qed.

Example validate_low_ratio :
  valid (validateRiskParameters (mockRiskParams (Fin 1)) noLimits) = false
  /\ reasons (validateRiskParameters (mockRiskParams (Fin 1)) noLimits)
     = [RiskRewardBelowMinimum (Fin 1) (Fin (15 # 10))].
Proof. repeat split. Qed.

(** [RateLimiter(5, 5)]: consume 5 (succeeds, 0 left), consume 1 (fails at
    once), and 1.1 s later tokens are available again. *)
Example limiter_scenario :
  let s1 := snd (tryConsume 0 (Fin 5) limiter55) in
  fst (tryConsume 0 (Fin 5) limiter55) = true
  /\ tokens s1 =n= Fin 0
  /\ fst (tryConsume 0 (Fin 1) s1) = false
  /\ fst (getAvailableTokens 1100 s1) =n= Fin 5
  /\ tokens (reset 1100 s1) = maxTokens s1.
Proof. vm_compute. repeat split. Qed.

(* ================================================================== *)
(** * strategy.js: errors and the signal rule *)
(* ================================================================== *)

Section StrategyFacts.

Context {TI : TechnicalIndicators}.

Lemma analyzeMarket_insufficient (clock : string) (cs : list Candle) :
  analyzeMarket clock cs = Err InsufficientDataError
  <-> (List.length cs < 21)%nat.
Proof.
  unfold analyzeMarket.
  destruct (Nat.ltb_spec (List.length cs) 21) as [Hlt | Hge].
  - split; auto.
  - destruct (signalAndConfidence cs) as [sig conf].
    split; [| lia].
    destruct (currentEMA9 cs), (currentEMA21 cs), (currentRSI cs),
      (index cs (len cs - 1)); discriminate.
Qed.

Lemma analyzeMarket_Ok_inv (clock : string) (cs : list Candle) (s : Signal) :
  analyzeMarket clock cs = Ok s ->
  (21 <= List.length cs)%nat
  /\ signal s = fst (signalAndConfidence cs)
  /\ confidence s = snd (signalAndConfidence cs)
  /\ trend s = trendOf cs
  /\ bullish (crossover s) = bullishCrossover cs
  /\ bearish (crossover s) = bearishCrossover cs
  /\ exists fast slow r,
       currentEMA9 cs = Some fast /\ currentEMA21 cs = Some slow
       /\ currentRSI cs = Some r
       /\ ema9 (indicators s) = toFixed fast 6
       /\ ema21 (indicators s) = toFixed slow 6
       /\ rsi (indicators s) = toFixed r 2.
Proof.
  unfold analyzeMarket.
  destruct (Nat.ltb_spec (List.length cs) 21) as [Hlt | Hge]; [discriminate |].
  destruct (signalAndConfidence cs) as [sig conf].
  destruct (currentEMA9 cs) as [fast |]; [| discriminate].
  destruct (currentEMA21 cs) as [slow |]; [| discriminate].
  destruct (currentRSI cs) as [r |]; [| discriminate].
  destruct (index cs (len cs - 1)) as [latestCandle |]; [| discriminate].
  intros H; injection H as <-; simpl.
  repeat split; auto.
  exists fast, slow, r. repeat split; reflexivity.
Qed.

End StrategyFacts.

Lemma calculateDynamicRisk_insufficient
    (s : Signal) (cs : list Candle) (entryPrice : option num) (size : num) :
  calculateDynamicRisk s cs entryPrice size = Err InsufficientDataError
  <-> (List.length cs < 5)%nat.
Proof.
  unfold calculateDynamicRisk.
  destruct (Nat.ltb_spec (List.length cs) 5) as [Hlt | Hge].
  - split; auto.
  - split; [| lia].
    destruct (negb (truthy (resolveEntry s entryPrice))
              || (resolveEntry s entryPrice <=? Fin 0)); [discriminate |].
    destruct (levels (signal s) (resolveEntry s entryPrice) cs)
      as [[[sd sl] tp] |]; discriminate.
Qed.

(** C3.  [analyzeMarket] throws the insufficient-data error exactly when it
    is given fewer than 21 candles, and [calculateDynamicRisk] exactly when
    it is given fewer than 5; in either case the call yields no result. *)
Theorem insufficient_data_exactly
    (TI : TechnicalIndicators) (clock : string) (cs : list Candle)
    (s : Signal) (entryPrice : option num) (size : num) :
  (analyzeMarket clock cs = Err InsufficientDataError
   <-> (List.length cs < 21)%nat)
  /\ (calculateDynamicRisk s cs entryPrice size = Err InsufficientDataError
      <-> (List.length cs < 5)%nat)
  /\ ((List.length cs < 21)%nat ->
      forall r, analyzeMarket clock cs <> Ok r)
  /\ ((List.length cs < 5)%nat ->
      forall r, calculateDynamicRisk s cs entryPrice size <> Ok r).
Proof.
  split; [apply analyzeMarket_insufficient |].
  split; [apply calculateDynamicRisk_insufficient |].
  split; intros Hlen r Hr.
  - apply <- (analyzeMarket_insufficient clock) in Hlen. congruence.
  - apply <- (calculateDynamicRisk_insufficient s cs entryPrice size) in Hlen.
    congruence.
Qed.

(** C5.  On every accepted candle sequence the signal is BUY when the
    current fast EMA is above the slow one and 50 < RSI < 70; failing that,
    SELL when the fast EMA is below the slow one and 30 < RSI < 50; failing
    both, HOLD with confidence 0. *)
Theorem signal_rule_first_match
    (TI : TechnicalIndicators) (clock : string) (cs : list Candle) (s : Signal) :
  analyzeMarket clock cs = Ok s ->
  exists fast slow r,
    currentEMA9 cs = Some fast /\ currentEMA21 cs = Some slow
    /\ currentRSI cs = Some r
    /\ signal s =
         (if (fast >? slow) && (Fin 50 <? r) && (r <? Fin 70) then BUY
          else if (fast <? slow) && (Fin 30 <? r) && (r <? Fin 50) then SELL
          else HOLD)
    /\ (signal s = HOLD -> confidence s = Fin 0).
Proof.
  intros H. apply analyzeMarket_Ok_inv in H.
  destruct H as (_ & Hsig & Hconf & _ & _ & _ & fast & slow & r & H9 & H21 & Hr & _).
  exists fast, slow, r. repeat split; auto.
  - rewrite Hsig. unfold signalAndConfidence, buyRule, sellRule.
    rewrite H9, H21, Hr; simpl.
    rewrite !(gtb_ltb r).
    destruct ((fast >? slow) && (Fin 50 <? r) && (r <? Fin 70)); [reflexivity |].
    rewrite <- !andb_assoc, (andb_comm (r <? Fin 50)), !andb_assoc.
    destruct ((fast <? slow) && (Fin 30 <? r) && (r <? Fin 50)); reflexivity.
  - rewrite Hsig, Hconf. unfold signalAndConfidence.
    destruct (buyRule cs); [discriminate |].
    destruct (sellRule cs); [discriminate | reflexivity].
Qed.

Lemma signal_rule_first_match_witness :
  exists s,
    analyzeMarket (TI := SpecIndicators.spec_indicators) "" rising = Ok s
    /\ signal s = BUY.
Proof.
  destruct (analyzeMarket (TI := SpecIndicators.spec_indicators) "" rising)
    as [s | e] eqn:E; [| vm_compute in E; discriminate].
  exists s. split; [reflexivity |].
  destruct (signal_rule_first_match _ _ _ _ E)
    as (fast & slow & r & H9 & H21 & Hr & Hsig & _).
  rewrite Hsig.
  vm_compute in H9; injection H9 as <-.
  vm_compute in H21; injection H21 as <-.
  vm_compute in Hr; injection Hr as <-.
  reflexivity.
Defined.

(* ================================================================== *)
(** * risk.js: validation *)
(* ================================================================== *)

(** C7.  [validateRiskParameters] evaluates its three checks independently
    of one another: the result is valid exactly when none fired, [reasons]
    holds one entry per check that fired, in the order of the checks, or the
    single informational entry when none did, and [riskPercent] is returned
    in every case. *)
Theorem validateRiskParameters_checks (rp : RiskParameters) (limits : Limits) :
  let minRR := withDefault (Fin (15 # 10)) (minRRRatio limits) in
  let maxSL := withDefault (Fin 5) (maxStopLossPercent limits) in
  let maxRisk := withDefault (Fin 2) (maxRiskPercent limits) in
  let percent := riskAmount rp / accountSize * Fin 100 in
  let check1 := riskRewardRatio rp <? minRR in
  let check2 := ToNumber (stopLossPercent rp) >? maxSL in
  let check3 := percent >? maxRisk in
  let v := validateRiskParameters rp limits in
  valid v = negb (check1 || check2 || check3)
  /\ reasons v =
       (if check1 || check2 || check3
        then
          (if check1
           then [RiskRewardBelowMinimum (riskRewardRatio rp) minRR] else [])
          ++ (if check2
              then [StopLossExceedsMaximum (stopLossPercent rp) maxSL] else [])
          ++ (if check3
              then [RiskExceedsMaximum (toFixed percent 2) maxRisk] else [])
        else [AllWithinLimits])
  /\ riskPercent v = toFixed percent 2.
Proof.
  cbv zeta. unfold validateRiskParameters.
  destruct (riskRewardRatio rp <? withDefault (Fin (15 # 10)) (minRRRatio limits));
    destruct (ToNumber (stopLossPercent rp)
              >? withDefault (Fin 5) (maxStopLossPercent limits));
    destruct (riskAmount rp / accountSize * Fin 100
              >? withDefault (Fin 2) (maxRiskPercent limits));
    simpl; repeat split; reflexivity.
Qed.

(* ================================================================== *)
(** * risk.js: the entry price *)
(* ================================================================== *)

Lemma entry_guard (e : num) :
  negb (truthy e) || (e <=? Fin 0) = negb (e >? Fin 0).
Proof.
  destruct e as [a | | |]; try reflexivity.
  unfold truthy, leb, gtb, cmp.
  destruct (Qeq_bool a 0) eqn:E0; destruct (a ?= 0)%Q eqn:E;
    qprop; simpl; qlra.
Qed.

Lemma calculateDynamicRisk_invalid_entry
    (s : Signal) (cs : list Candle) (entryPrice : option num) (size : num) :
  (5 <= List.length cs)%nat ->
  (calculateDynamicRisk s cs entryPrice size = Err InvalidEntryError
   <-> (resolveEntry s entryPrice >? Fin 0) = false).
Proof.
  intros Hlen. unfold calculateDynamicRisk.
  destruct (Nat.ltb_spec (List.length cs) 5) as [Hlt | _]; [lia |].
  rewrite entry_guard.
  destruct (resolveEntry s entryPrice >? Fin 0); simpl.
  - split; [| discriminate].
    destruct (levels (signal s) (resolveEntry s entryPrice) cs)
      as [[[sd sl] tp] |]; discriminate.
  - split; reflexivity.
Qed.

Lemma calculateDynamicRisk_Ok_entry
    (s : Signal) (cs : list Candle) (entryPrice : option num) (size : num)
    (rp : RiskParameters) :
  calculateDynamicRisk s cs entryPrice size = Ok rp ->
  entry rp =
    match signal s with
    | HOLD => resolveEntry s entryPrice
    | _ => toFixed (resolveEntry s entryPrice) 6
    end.
Proof.
  unfold calculateDynamicRisk.
  destruct (List.length cs <? 5)%nat; [discriminate |].
  destruct (negb (truthy (resolveEntry s entryPrice))
            || (resolveEntry s entryPrice <=? Fin 0)); [discriminate |].
  destruct (signal s); simpl; intros H; injection H as <-; reflexivity.
Qed.

(** C4, the claim as stated fails.  With an override of -5 and a current
    price of 0.545 the rule of the specification resolves the entry to
    0.545, which is valid, while the code keeps -5 and throws. *)
Lemma entry_rule_counterexample :
  calculateDynamicRisk mockSignal mockCandles (Some (Fin (-5))) (Fin 100)
    = Err InvalidEntryError
  /\ SpecWords.entryRule mockSignal (Some (Fin (-5))) = Fin (545 # 1000)
  /\ SpecWords.invalidEntry (SpecWords.entryRule mockSignal (Some (Fin (-5))))
     = false
  /\ resolveEntry mockSignal (Some (Fin (-5))) = Fin (-5).
Proof. repeat split; vm_compute; reflexivity. Qed.

(** C4, amended.  The entry price is the override when one is given and is
    truthy (neither 0 nor NaN), and the signal's current price otherwise; on
    five candles or more the call throws the invalid-entry error exactly
    when that price is not greater than 0 (zero, negative, -Infinity or
    NaN; +Infinity is let through); on success the entry is returned,
    rounded to 6 decimals for a trade. *)
Theorem entry_resolution
    (s : Signal) (cs : list Candle) (entryPrice : option num) (size : num) :
  (5 <= List.length cs)%nat ->
  resolveEntry s entryPrice =
    match entryPrice with
    | Some e => if truthy e then e else currentPrice s
    | None => currentPrice s
    end
  /\ (calculateDynamicRisk s cs entryPrice size = Err InvalidEntryError
      <-> (resolveEntry s entryPrice >? Fin 0) = false)
  /\ (forall rp,
        calculateDynamicRisk s cs entryPrice size = Ok rp ->
        entry rp =
          match signal s with
          | HOLD => resolveEntry s entryPrice
          | _ => toFixed (resolveEntry s entryPrice) 6
          end).
Proof.
  intros Hlen. split; [reflexivity |].
  split; [apply calculateDynamicRisk_invalid_entry; exact Hlen |].
  intros rp. apply calculateDynamicRisk_Ok_entry.
Qed.

Lemma entry_resolution_witness :
  calculateDynamicRisk mockSignal mockCandles (Some (Fin 0)) (Fin 100)
    = Err InvalidEntryError
  <-> (resolveEntry mockSignal (Some (Fin 0)) >? Fin 0) = false.
Proof.
  apply (entry_resolution mockSignal mockCandles (Some (Fin 0)) (Fin 100)).
  simpl. lia.
Defined.

(* ================================================================== *)
(** * risk.js: stop-loss, take-profit and their ratio *)
(* ================================================================== *)

(** What a successful trade call returns, field by field. *)
Lemma calculateDynamicRisk_trade
    (s : Signal) (cs : list Candle) (entryPrice : option num) (size : num)
    (rp : RiskParameters) (sd : Side) (sl tp : num) :
  calculateDynamicRisk s cs entryPrice size = Ok rp ->
  levels (signal s) (resolveEntry s entryPrice) cs = Some (sd, sl, tp) ->
  let e := resolveEntry s entryPrice in
  side rp = Some sd
  /\ entry rp = toFixed e 6
  /\ stopLoss rp = Some (toFixed sl 6)
  /\ takeProfit rp = Some (toFixed tp 6)
  /\ riskRewardRatio rp = toFixed (Math_abs (tp - e) / Math_abs (e - sl)) 2.
Proof.
  unfold calculateDynamicRisk.
  destruct (List.length cs <? 5)%nat; [discriminate |].
  destruct (negb (truthy (resolveEntry s entryPrice))
            || (resolveEntry s entryPrice <=? Fin 0)); [discriminate |].
  intros H L. rewrite L in H. injection H as <-. simpl.
  repeat split; reflexivity.
Qed.

Lemma quotient_undefined (n x : Q) :
  (n == 0)%Q -> (x == 0)%Q -> Fin (Qabs n) / Fin (Qabs x) = NaN.
Proof.
  intros Hn Hx. unfold div.
  assert (Qabs x == 0)%Q as Hax by (rewrite Hx; reflexivity).
  assert (Qabs n == 0)%Q as Han by (rewrite Hn; reflexivity).
  apply Qeq_bool_iff in Hax. rewrite Hax.
  apply Qeq_alt in Han. rewrite Han. reflexivity.
Qed.

(** The take-profit of either branch, as the source computes it from the
    entry and the stop-loss. *)
Lemma levels_take_profit
    (k : SignalKind) (e : num) (cs : list Candle) (sd : Side) (sl tp : num) :
  levels k e cs = Some (sd, sl, tp) ->
  tp = e + (e - sl) * Fin 2 \/ tp = e - (sl - e) * Fin 2.
Proof.
  destruct k; cbn [levels]; intros L; try discriminate L;
    injection L as _ <- <-; auto.
Qed.

(** With the stop-loss on the entry both distances are zero and their
    quotient is 0/0; on an infinite entry they are not numbers at all. *)
Lemma zero_distance_quotient (e sl tp : num) :
  tp = e + (e - sl) * Fin 2 \/ tp = e - (sl - e) * Fin 2 ->
  e =n= sl ->
  Math_abs (tp - e) / Math_abs (e - sl) = NaN.
Proof.
  intros Htp Heq.
  destruct e as [a | | |], sl as [b | | |]; try contradiction;
    try (destruct Htp as [-> | ->]; reflexivity).
  cbn [same] in Heq.
  destruct Htp as [-> | ->]; cbn [add sub opp mul Math_abs];
    apply quotient_undefined; lra.
Qed.





Module Binary64Facts.

Import PrimFloat.
Local Open Scope float_scope.
Local Set Warnings "-inexact-float".

(** The same input in binary64: [200 * (1 - 0.005)] rounds to 199 exactly,
    and the ratio is NaN there too. *)
Remark zero_risk_distance_binary64 :
  eqb (Binary64.stopLossLong 200) 199 = true
  /\ is_nan (Binary64.ratioLong 199 200) = true.
Proof. split; vm_compute; reflexivity. Qed.

(** An entry three units of the last place under 1 over lows whose stop-loss
    is five such units under 1: the stop is below the entry, the sum
    [entry + riskDistance * 2] is rounded, and the quotient of the two
    distances is 1.5; at an entry of 1e308 over lows of 1 that sum overflows
    and the quotient is infinite. *)
Remark rounded_take_profit_binary64 :
  ltb (Binary64.stopLossLong 1.0050251256281402) 0.9999999999999997 = true
  /\ eqb (Binary64.ratioLong 0.9999999999999997 1.0050251256281402) 1.5 = true
  /\ eqb (Binary64.ratioLong 1e308 1) infinity = true.
Proof. repeat split; vm_compute; reflexivity. Qed.

(** The double nearest to 1/3 is 6004799503160661 / 2^54, and reading that
    rational as a double gives it back. *)
Remark third_binary64 :
  (Binary64.toQ Binary64.third == 6004799503160661 # 18014398509481984)%Q
  /\ eqb (Binary64.ofNum (Binary64.toNum Binary64.third)) Binary64.third = true.
Proof. split; vm_compute; reflexivity. Qed.

End Binary64Facts.

Lemma long_order (e sl : num) :
  (e - sl >? Fin 0) = true ->
  (sl <=? e) = true /\ (e <=? e + (e - sl) * Fin 2) = true.
Proof.
  destruct e as [a | | |], sl as [b | | |]; intros H;
    try discriminate H; try (split; reflexivity).
  cbn [add sub opp mul] in *. rewrite gtb_Fin in H. rewrite !leb_Fin.
  split; lra.
Qed.

Lemma short_order (e sl : num) :
  (sl - e >? Fin 0) = true ->
  (e - (sl - e) * Fin 2 <=? e) = true /\ (e <=? sl) = true.
Proof.
  destruct e as [a | | |], sl as [b | | |]; intros H;
    try discriminate H; try (split; reflexivity).
  cbn [add sub opp mul] in *. rewrite gtb_Fin in H. rewrite !leb_Fin.
  split; lra.
Qed.

(** C2.  On a BUY whose risk distance [entry - stopLoss] is positive the
    returned levels satisfy stopLoss <= entry <= takeProfit; on a SELL whose
    risk distance [stopLoss - entry] is positive they satisfy
    takeProfit <= entry <= stopLoss. *)
Theorem stop_entry_target_ordered
    (s : Signal) (cs : list Candle) (entryPrice : option num) (size : num)
    (rp : RiskParameters) :
  calculateDynamicRisk s cs entryPrice size = Ok rp ->
  (signal s = BUY ->
   (resolveEntry s entryPrice
    - Math_min_list (lows cs) * (Fin 1 - bufferPercent) >? Fin 0) = true ->
   exists sl tp,
     side rp = Some LONG /\ stopLoss rp = Some sl /\ takeProfit rp = Some tp
     /\ (sl <=? entry rp) = true /\ (entry rp <=? tp) = true)
  /\ (signal s = SELL ->
      (Math_max_list (highs cs) * (Fin 1 + bufferPercent)
       - resolveEntry s entryPrice >? Fin 0) = true ->
      exists sl tp,
        side rp = Some SHORT /\ stopLoss rp = Some sl /\ takeProfit rp = Some tp
        /\ (tp <=? entry rp) = true /\ (entry rp <=? sl) = true).
Proof.
  intros Hok. split; intros Hk Hd.
  - destruct (calculateDynamicRisk_trade s cs entryPrice size rp LONG
                _ _ Hok ltac:(rewrite Hk; reflexivity))
      as (Hsd & He & Hsl & Htp & _).
    destruct (long_order _ _ Hd) as [H1 H2].
    eexists; eexists. repeat split; try eassumption.
    + rewrite He. apply toFixed_leb, H1.
    + rewrite He. apply toFixed_leb, H2.
  - destruct (calculateDynamicRisk_trade s cs entryPrice size rp SHORT
                _ _ Hok ltac:(rewrite Hk; reflexivity))
      as (Hsd & He & Hsl & Htp & _).
    destruct (short_order _ _ Hd) as [H1 H2].
    eexists; eexists. repeat split; try eassumption.
    + rewrite He. apply toFixed_leb, H1.
    + rewrite He. apply toFixed_leb, H2.
Qed.

Lemma stop_entry_target_ordered_witness :
  (exists rp,
     calculateDynamicRisk mockSignal mockCandles None (Fin 100) = Ok rp
     /\ exists sl tp,
          side rp = Some LONG /\ stopLoss rp = Some sl /\ takeProfit rp = Some tp
          /\ (sl <=? entry rp) = true /\ (entry rp <=? tp) = true)
  /\ (exists rp,
        calculateDynamicRisk (signalOf SELL (Fin (545 # 1000))) mockCandles None
          (Fin 100) = Ok rp
        /\ exists sl tp,
             side rp = Some SHORT /\ stopLoss rp = Some sl
             /\ takeProfit rp = Some tp
             /\ (tp <=? entry rp) = true /\ (entry rp <=? sl) = true).
Proof.
  split.
  - destruct (calculateDynamicRisk mockSignal mockCandles None (Fin 100))
      as [rp | e] eqn:E; [| vm_compute in E; discriminate E].
    exists rp. split; [reflexivity |].
    apply (stop_entry_target_ordered mockSignal mockCandles None (Fin 100) rp E);
      reflexivity.
  - destruct (calculateDynamicRisk (signalOf SELL (Fin (545 # 1000))) mockCandles
                None (Fin 100))
      as [rp | e] eqn:E; [| vm_compute in E; discriminate E].
    exists rp. split; [reflexivity |].
    apply (stop_entry_target_ordered (signalOf SELL (Fin (545 # 1000)))
             mockCandles None (Fin 100) rp E);
      reflexivity.
Defined.

(* ================================================================== *)
(** * strategy.js: the confidence score *)
(* ================================================================== *)

Lemma cmp_same (x x' y y' : num) :
  x =n= x' -> y =n= y' -> cmp x y = cmp x' y'.
Proof.
  destruct x as [a | | |], x' as [a' | | |]; simpl; try easy;
    destruct y as [b | | |], y' as [b' | | |]; simpl; try easy.
  intros Ha Hb. f_equal. apply Qcompare_comp; assumption.
Qed.

Lemma add_same (x x' y y' : num) :
  x =n= x' -> y =n= y' -> x + y =n= x' + y'.
Proof.
  destruct x as [a | | |], x' as [a' | | |]; simpl; try easy;
    destruct y as [b | | |], y' as [b' | | |]; simpl; try easy.
  intros Ha Hb. now rewrite Ha, Hb.
Qed.

Lemma add_zero_r (x : num) : x + Fin 0 =n= x.
Proof. destruct x as [a | | |]; simpl; auto. lra. Qed.

Lemma Math_min_same (x x' y y' : num) :
  x =n= x' -> y =n= y' -> Math_min x y =n= Math_min x' y'.
Proof.
  intros Hx Hy. unfold Math_min. rewrite (cmp_same x x' y y' Hx Hy).
  destruct (cmp x' y') as [[| |] |]; simpl; auto.
Qed.

Lemma Math_round_same (x x' : num) : x =n= x' -> Math_round x =n= Math_round x'.
Proof.
  destruct x as [a | | |], x' as [a' | | |]; cbn [same]; try easy.
  intros H. cbn [Math_round same].
  assert (Qfloor (a + (1 # 2)) = Qfloor (a' + (1 # 2))) as ->
    by (apply Qfloor_comp; rewrite H; reflexivity).
  reflexivity.
Qed.

Lemma mul_Fin_same (x x' : num) (c : Q) :
  x =n= x' -> x * Fin c =n= x' * Fin c.
Proof.
  destruct x as [a | | |], x' as [a' | | |]; simpl; try easy.
  - intros H. now rewrite H.
  - intros _. apply same_refl.
  - intros _. apply same_refl.
Qed.

(** Above a positive slow EMA the signed separation of a BUY is its
    magnitude; below it, so is the one of a SELL. *)
Lemma separation_buy (fast slow : num) :
  (slow >? Fin 0) = true -> (fast >? slow) = true ->
  (fast - slow) / slow * Fin 100
  =n= Math_abs ((fast - slow) / slow * Fin 100)
  /\ ((fast - slow) / slow * Fin 100 >? Fin 0) = true.
Proof.
  destruct slow as [b | | |]; try discriminate;
    destruct fast as [a | | |]; try discriminate; intros Hb Hab.
  - apply gtb_Fin in Hb, Hab. cbn [add sub opp div].
    destruct (Qeq_bool b 0) eqn:E; qprop; [lra |].
    cbn [mul Math_abs same]. rewrite gtb_Fin.
    assert (0 < (a + - b) / b * 100)%Q as Hpos.
    { apply Qmult_lt_0_compat; [| lra].
      apply Qlt_shift_div_l; lra. }
    split; [| exact Hpos]. rewrite Qabs_pos; lra.
  - apply gtb_Fin in Hb. cbn [add sub opp div sign].
    destruct (Qeq_bool b 0) eqn:E; qprop; [lra |].
    apply Qgt_alt in Hb. rewrite Hb. split; reflexivity.
Qed.

Lemma separation_sell (fast slow : num) :
  finite slow -> (slow >? Fin 0) = true -> (fast <? slow) = true ->
  (slow - fast) / slow * Fin 100
  =n= Math_abs ((fast - slow) / slow * Fin 100)
  /\ ((slow - fast) / slow * Fin 100 >? Fin 0) = true.
Proof.
  destruct slow as [b | | |]; try contradiction; intros _;
    destruct fast as [a | | |]; try discriminate; intros Hb Hab.
  - apply gtb_Fin in Hb. apply ltb_Fin in Hab. cbn [add sub opp div].
    destruct (Qeq_bool b 0) eqn:E; qprop; [lra |].
    cbn [mul Math_abs same]. rewrite gtb_Fin.
    assert (0 < (b + - a) / b * 100)%Q as Hpos.
    { apply Qmult_lt_0_compat; [| lra].
      apply Qlt_shift_div_l; lra. }
    split; [| exact Hpos].
    assert ((a + - b) / b * 100 == - ((b + - a) / b * 100))%Q as ->
      by (field; lra).
    rewrite Qabs_opp, Qabs_pos; lra.
  - apply gtb_Fin in Hb. cbn [add sub opp div sign].
    destruct (Qeq_bool b 0) eqn:E; qprop; [lra |].
    apply Qgt_alt in Hb. rewrite Hb. split; reflexivity.
Qed.

Lemma trend_bonus (sep : num) :
  (sep >? Fin 0) = true ->
  exists q, Math_min (sep * Fin 10) (Fin 20) = Fin q /\ (0 < q <= 20)%Q.
Proof.
  destruct sep as [a | | |]; try discriminate; intros H.
  - apply gtb_Fin in H. cbn [mul]. unfold Math_min, cmp.
    destruct (a * 10 ?= 20)%Q eqn:E; qprop; eexists; (split; [reflexivity |]);
      lra.
  - exists 20%Q. split; [reflexivity | lra].
Qed.

Lemma Qfloor_ge (n : Z) (x : Q) : (inject_Z n <= x)%Q -> (n <= Qfloor x)%Z.
Proof.
  intros H. rewrite <- (Qfloor_Z n). apply Qfloor_resp_le, H.
Qed.

Lemma round_cap_range (x : Q) :
  (55 <= x)%Q ->
  exists q,
    Math_min (Math_round (Fin x)) (Fin 100) = Fin q /\ (55 <= q <= 100)%Q.
Proof.
  intros H.
  assert (55 <= inject_Z (Qfloor (x + (1 # 2))))%Q as Hr.
  { change 55%Q with (inject_Z 55). rewrite <- Zle_Qle.
    apply Qfloor_ge. change (inject_Z 55) with 55%Q. lra. }
  cbn [Math_round]. unfold Math_min, cmp.
  destruct (inject_Z (Qfloor (x + (1 # 2))) ?= 100)%Q eqn:E; qprop;
    eexists; (split; [reflexivity |]); lra.
Qed.

(** The score before rounding, as the source accumulates it. *)
Lemma calculateConfidence_unfold
    (fast slow r : num) (k : SignalKind) (cross : bool) :
  calculateConfidence fast slow r k cross =
    Math_min
      (Math_round
         match k with
         | BUY =>
             let c :=
               Fin 50 + Math_min ((fast - slow) / slow * Fin 100 * Fin 10) (Fin 20)
               + (if (r >=? Fin 55) && (r <=? Fin 65) then Fin 15 else Fin 5) in
             if cross then c + Fin 15 else c
         | SELL =>
             let c :=
               Fin 50 + Math_min ((slow - fast) / slow * Fin 100 * Fin 10) (Fin 20)
               + (if (r >=? Fin 35) && (r <=? Fin 45) then Fin 15 else Fin 5) in
             if cross then c + Fin 15 else c
         | HOLD => Fin 50
         end)
      (Fin 100).
Proof.
  unfold calculateConfidence.
  destruct k; cbv zeta;
    [destruct ((r >=? Fin 55) && (r <=? Fin 65))
    | destruct ((r >=? Fin 35) && (r <=? Fin 45)) |]; reflexivity.
Qed.

Lemma accumulate_same (tb tb' rb : num) (cross : bool) :
  tb =n= tb' ->
  (if cross then Fin 50 + tb + rb + Fin 15 else Fin 50 + tb + rb)
  =n= Fin 50 + tb' + rb + (if cross then Fin 15 else Fin 0).
Proof.
  intros H.
  assert (Fin 50 + tb + rb =n= Fin 50 + tb' + rb) as Hc
    by (repeat apply add_same; auto using same_refl).
  destruct cross.
  - apply add_same; [exact Hc | apply same_refl].
  - apply (same_trans _ _ _ Hc). apply same_sym, add_zero_r.
Qed.

Lemma calculateConfidence_rounded_rule
    (fast slow r : num) (k : SignalKind) (cross : bool) :
  k <> HOLD -> finite slow -> (slow >? Fin 0) = true ->
  (k = BUY -> (fast >? slow) = true) ->
  (k = SELL -> (fast <? slow) = true) ->
  calculateConfidence fast slow r k cross
  =n= Math_min (Math_round (SpecWords.confidenceSum fast slow r k cross))
        (Fin 100).
Proof.
  intros Hk Hfin Hpos Hbuy Hsell. rewrite calculateConfidence_unfold.
  apply Math_min_same; [| apply same_refl]. apply Math_round_same.
  unfold SpecWords.confidenceSum. cbv zeta.
  destruct k; [| | contradiction].
  - destruct (separation_buy fast slow Hpos (Hbuy eq_refl)) as [Hs _].
    apply accumulate_same, Math_min_same; [| apply same_refl].
    apply mul_Fin_same, Hs.
  - destruct (separation_sell fast slow Hfin Hpos (Hsell eq_refl)) as [Hs _].
    apply accumulate_same, Math_min_same; [| apply same_refl].
    apply mul_Fin_same, Hs.
Qed.

Lemma calculateConfidence_range
    (fast slow r : num) (k : SignalKind) (cross : bool) :
  k <> HOLD -> finite slow -> (slow >? Fin 0) = true ->
  (k = BUY -> (fast >? slow) = true) ->
  (k = SELL -> (fast <? slow) = true) ->
  exists q,
    calculateConfidence fast slow r k cross = Fin q /\ (55 <= q <= 100)%Q.
Proof.
  intros Hk Hfin Hpos Hbuy Hsell. rewrite calculateConfidence_unfold.
  destruct k; [| | contradiction]; cbv zeta.
  - destruct (separation_buy fast slow Hpos (Hbuy eq_refl)) as [_ Hs].
    destruct (trend_bonus _ Hs) as (q & -> & Hq).
    destruct ((r >=? Fin 55) && (r <=? Fin 65)); destruct cross; cbn [add];
      apply round_cap_range; lra.
  - destruct (separation_sell fast slow Hfin Hpos (Hsell eq_refl)) as [_ Hs].
    destruct (trend_bonus _ Hs) as (q & -> & Hq).
    destruct ((r >=? Fin 35) && (r <=? Fin 45)); destruct cross; cbn [add];
      apply round_cap_range; lra.
Qed.

Section ConfidenceFacts.

Context {TI : TechnicalIndicators}.

Lemma signalAndConfidence_cases (cs : list Candle) :
  let fast := ToNumber (currentEMA9 cs) in
  let slow := ToNumber (currentEMA21 cs) in
  let r := ToNumber (currentRSI cs) in
  (fst (signalAndConfidence cs) = BUY
   /\ (fast >? slow) = true
   /\ snd (signalAndConfidence cs)
      = calculateConfidence fast slow r BUY (bullishCrossover cs))
  \/ (fst (signalAndConfidence cs) = SELL
      /\ (fast <? slow) = true
      /\ snd (signalAndConfidence cs)
         = calculateConfidence fast slow r SELL (bearishCrossover cs))
  \/ (fst (signalAndConfidence cs) = HOLD
      /\ snd (signalAndConfidence cs) = Fin 0).
Proof.
  cbv zeta. unfold signalAndConfidence.
  destruct (buyRule cs) eqn:Eb.
  - left. unfold buyRule in Eb.
    apply andb_prop in Eb as [Eb _]. apply andb_prop in Eb as [Eb _].
    simpl. auto.
  - destruct (sellRule cs) eqn:Es.
    + right; left. unfold sellRule in Es.
      apply andb_prop in Es as [Es _]. apply andb_prop in Es as [Es _].
      simpl. auto.
    + right; right. simpl. auto.
Qed.

End ConfidenceFacts.

(** C6, the claim as stated fails.  On the rising sample the signal is BUY
    and the sum of base and bonuses is 70.748...: the code returns it rounded
    to the nearest integer, 71, not the sum itself; likewise
    [calculateConfidence(1.0013, 1, 60, 'BUY', false)] is 66 where the sum is
    66.3.  And nothing clamps from below: over negative EMAs the signed
    separation is negative and the score returned is negative. *)
Lemma confidence_counterexample :
  (exists s,
     analyzeMarket (TI := SpecIndicators.spec_indicators) "" rising = Ok s
     /\ signal s = BUY
     /\ confidence s =n= Fin 71
     /\ (SpecWords.confidenceRule
           (ToNumber (currentEMA9 (TI := SpecIndicators.spec_indicators) rising))
           (ToNumber (currentEMA21 (TI := SpecIndicators.spec_indicators) rising))
           (ToNumber (currentRSI (TI := SpecIndicators.spec_indicators) rising))
           BUY (bullish (crossover s))
         <? Fin 71) = true)
  /\ calculateConfidence (Fin (10013 # 10000)) (Fin 1) (Fin 60) BUY false
     =n= Fin 66
  /\ SpecWords.confidenceRule (Fin (10013 # 10000)) (Fin 1) (Fin 60) BUY false
     =n= Fin (663 # 10)
  /\ (calculateConfidence (Fin (- (11 # 10))) (Fin (- (12 # 10))) (Fin 60)
        BUY false
      <? Fin 0) = true.
Proof.
  split; [| repeat split; vm_compute; reflexivity].
  eexists. split; [vm_compute; reflexivity |].
  repeat split; vm_compute; reflexivity.
Qed.

(** The confidence of an accepted analysis, case by case. *)
Lemma analyzeMarket_confidence
    (TI : TechnicalIndicators) (clock : string) (cs : list Candle) (s : Signal) :
  analyzeMarket clock cs = Ok s ->
  exists fast slow r,
    currentEMA9 cs = Some fast /\ currentEMA21 cs = Some slow
    /\ currentRSI cs = Some r
    /\ (signal s = HOLD -> confidence s = Fin 0)
    /\ (signal s <> HOLD ->
        confidence s
        = calculateConfidence fast slow r (signal s)
            (SpecWords.matchingCrossover (signal s) (crossover s)))
    /\ (signal s <> HOLD -> finite slow -> (slow >? Fin 0) = true ->
        confidence s
        =n= Math_min
              (Math_round
                 (SpecWords.confidenceSum fast slow r (signal s)
                    (SpecWords.matchingCrossover (signal s) (crossover s))))
              (Fin 100)
        /\ (Fin 55 <=? confidence s) = true)
    /\ (finite slow -> (slow >? Fin 0) = true ->
        (Fin 0 <=? confidence s) = true /\ (confidence s <=? Fin 100) = true).
Proof.
  intros H. apply analyzeMarket_Ok_inv in H.
  destruct H as (_ & Hsig & Hconf & _ & Hbull & Hbear
                 & fast & slow & r & H9 & H21 & Hr & _).
  exists fast, slow, r. do 3 (split; [assumption |]).
  pose proof (signalAndConfidence_cases cs) as Hcases. cbv zeta in Hcases.
  rewrite H9, H21, Hr, <- Hsig, <- Hconf, <- Hbull, <- Hbear in Hcases.
  simpl ToNumber in Hcases.
  assert (signal s <> HOLD -> finite slow -> (slow >? Fin 0) = true ->
          exists q,
            confidence s = Fin q /\ (55 <= q <= 100)%Q
            /\ confidence s
               =n= Math_min
                     (Math_round
                        (SpecWords.confidenceSum fast slow r (signal s)
                           (SpecWords.matchingCrossover (signal s) (crossover s))))
                     (Fin 100)) as Htrade.
  { intros Hk Hfin Hpos.
    destruct Hcases as [(Ek & Hord & Ec) | [(Ek & Hord & Ec) | (Ek & _)]];
      [| | contradiction]; rewrite Ek, Ec; simpl SpecWords.matchingCrossover.
    - destruct (calculateConfidence_range fast slow r BUY (bullish (crossover s)))
        as (q & Eq & Hq); auto; try discriminate.
      exists q. split; [exact Eq |]. split; [exact Hq |].
      apply calculateConfidence_rounded_rule; auto; discriminate.
    - destruct (calculateConfidence_range fast slow r SELL (bearish (crossover s)))
        as (q & Eq & Hq); auto; try discriminate.
      exists q. split; [exact Eq |]. split; [exact Hq |].
      apply calculateConfidence_rounded_rule; auto; discriminate. }
  split; [| split; [| split]].
  - intros Ek.
    destruct Hcases as [(Ek' & _) | [(Ek' & _) | (_ & Ec)]];
      [congruence | congruence | exact Ec].
  - intros Hk.
    destruct Hcases as [(Ek & _ & Ec) | [(Ek & _ & Ec) | (Ek & _)]];
      [| | contradiction]; rewrite Ec, Ek; reflexivity.
  - intros Hk Hfin Hpos.
    destruct (Htrade Hk Hfin Hpos) as (q & Eq & Hq & Hrule).
    split; [exact Hrule |]. rewrite Eq. apply leb_Fin. lra.
  - intros Hfin Hpos.
    destruct (signal s) eqn:Ek.
    1, 2: destruct (Htrade ltac:(discriminate) Hfin Hpos) as (q & Eq & Hq & _);
      rewrite Eq; split; apply leb_Fin; lra.
    destruct Hcases as [(Ek' & _) | [(Ek' & _) | (_ & Ec)]];
      [discriminate | discriminate |].
    rewrite Ec. split; reflexivity.
Qed.


(** C6, amended.  For a HOLD the confidence is 0.  For a BUY or SELL it is
    [calculateConfidence] of the current values and the matching crossover
    flag; when the slow EMA is finite and positive (as it is for positive
    prices) that is the sum of base 50, the trend bonus
    min(|separation %| * 10, 20), the sweet-spot bonus 15 or 5 and the
    crossover bonus 15, rounded to the nearest integer and then capped at
    100, and it lies in [55,100]; so under that condition every confidence
    returned lies in [0,100]. *)
Theorem confidence_score
    (TI : TechnicalIndicators) (clock : string) (cs : list Candle) (s : Signal) :
  analyzeMarket clock cs = Ok s ->
  exists fast slow r,
    currentEMA9 cs = Some fast /\ currentEMA21 cs = Some slow
    /\ currentRSI cs = Some r
    /\ (signal s = HOLD -> confidence s = Fin 0)
    /\ (signal s <> HOLD ->
        confidence s
        = calculateConfidence fast slow r (signal s)
            (SpecWords.matchingCrossover (signal s) (crossover s)))
    /\ (signal s <> HOLD -> finite slow -> (slow >? Fin 0) = true ->
        confidence s
        =n= Math_min
              (Math_round
                 (SpecWords.confidenceSum fast slow r (signal s)
                    (SpecWords.matchingCrossover (signal s) (crossover s))))
              (Fin 100)
        /\ (Fin 55 <=? confidence s) = true)
    /\ (finite slow -> (slow >? Fin 0) = true ->
        (Fin 0 <=? confidence s) = true /\ (confidence s <=? Fin 100) = true).
Proof. apply analyzeMarket_confidence. Qed.

Lemma confidence_score_witness :
  exists s,
    analyzeMarket (TI := SpecIndicators.spec_indicators) "" falling = Ok s
    /\ signal s = SELL
    /\ (Fin 0 <=? confidence s) = true /\ (confidence s <=? Fin 100) = true.
Proof.
  destruct (analyzeMarket (TI := SpecIndicators.spec_indicators) "" falling)
    as [s | e] eqn:E; [| vm_compute in E; discriminate E].
  exists s.
  destruct (confidence_score _ _ _ _ E)
    as (fast & slow & r & H9 & H21 & Hr & _ & _ & _ & Hrange).
  split; [reflexivity |].
  split; [vm_compute in E; injection E as <-; reflexivity |].
  vm_compute in H21; injection H21 as <-.
  apply Hrange; [exact I | reflexivity].
Defined.

(* ================================================================== *)
(** * rateLimiter.js: the token bucket *)
(* ================================================================== *)

Lemma elapsedSeconds_value (now : Z) (s : t) :
  elapsedSeconds now s = Fin (inject_Z (now - lastRefill s) / 1000).
Proof. reflexivity. Qed.

Lemma elapsed_nonneg (now last : Z) :
  (last <= now)%Z -> (0 <= inject_Z (now - last) / 1000)%Q.
Proof.
  intros H. apply Qle_shift_div_l; [lra |].
  change (0 * 1000)%Q with (inject_Z 0). rewrite <- Zle_Qle. lia.
Qed.

(** The refilled token count of a well-formed bucket read on a clock that
    has not gone back. *)
Lemma refill_value (now : Z) (s : t) :
  wellFormed s -> (lastRefill s <= now)%Z ->
  exists cap q rate,
    maxTokens s = Fin cap /\ refillRate s = Fin rate
    /\ tokens (refillTokens now s) = Fin q
    /\ (0 <= rate)%Q /\ (0 <= q <= cap)%Q.
Proof.
  intros (Hcap & Htok & Hrate & Hr0 & Ht0 & Htc) Hclock.
  unfold refillTokens; cbn [tokens]. rewrite elapsedSeconds_value.
  destruct (maxTokens s) as [cap | | |]; try contradiction.
  destruct (tokens s) as [tok | | |]; try contradiction.
  destruct (refillRate s) as [rate | | |]; try contradiction.
  apply leb_Fin in Hr0, Ht0, Htc.
  pose proof (elapsed_nonneg now (lastRefill s) Hclock) as Hel.
  assert (0 <= inject_Z (now - lastRefill s) / 1000 * rate)%Q as Hadd
    by (apply Qmult_le_0_compat; assumption).
  cbn [mul add]. unfold Math_min, cmp.
  destruct (cap ?= tok + inject_Z (now - lastRefill s) / 1000 * rate)%Q eqn:E;
    qprop; exists cap; eexists; exists rate;
    (split; [reflexivity |]); (split; [reflexivity |]);
    (split; [reflexivity |]); split; lra.
Qed.

Lemma wellFormed_intro (s : t) (cap q rate : Q) :
  maxTokens s = Fin cap -> refillRate s = Fin rate -> tokens s = Fin q ->
  (0 <= rate)%Q -> (0 <= q <= cap)%Q -> wellFormed s.
Proof.
  intros Hc Hr Ht Hr0 Hq. unfold wellFormed. rewrite Hc, Hr, Ht.
  repeat split; try exact I; apply leb_Fin; lra.
Qed.

Lemma wellFormed_inRange (s : t) : wellFormed s -> inRange s.
Proof. intros (_ & _ & _ & _ & H1 & H2). split; assumption. Qed.

Lemma refillTokens_wellFormed (now : Z) (s : t) :
  wellFormed s -> (lastRefill s <= now)%Z -> wellFormed (refillTokens now s).
Proof.
  intros Hwf Hclock.
  destruct (refill_value now s Hwf Hclock)
    as (cap & q & rate & Hc & Hr & Ht & Hr0 & Hq).
  apply (wellFormed_intro _ cap q rate); auto.
Qed.

Lemma reset_wellFormed (now : Z) (s : t) : wellFormed s -> wellFormed (reset now s).
Proof.
  intros (Hcap & Htok & Hrate & Hr0 & Ht0 & Htc).
  unfold wellFormed, reset; cbn [maxTokens tokens refillRate].
  destruct (maxTokens s) as [cap | | |]; try contradiction.
  destruct (tokens s) as [tok | | |]; try contradiction.
  apply leb_Fin in Ht0, Htc.
  repeat split; auto; apply leb_Fin; lra.
Qed.

Lemma tryConsume_wellFormed (now : Z) (cost : num) (s : t) :
  wellFormed s -> (lastRefill s <= now)%Z -> (Fin 0 <=? cost) = true ->
  wellFormed (snd (tryConsume now cost s)).
Proof.
  intros Hwf Hclock Hcost.
  destruct (refill_value now s Hwf Hclock)
    as (cap & q & rate & Hc & Hr & Ht & Hr0 & Hq).
  unfold tryConsume. cbv zeta. rewrite Ht.
  destruct (Fin q >=? cost) eqn:E; cbn [snd].
  - destruct cost as [c | | |]; try discriminate.
    apply geb_Fin in E. apply leb_Fin in Hcost.
    apply (wellFormed_intro _ cap (q + - c) rate); auto; lra.
  - apply (wellFormed_intro _ cap q rate); auto.
Qed.

Lemma call_lastRefill (now : Z) (c : Call) (s : t) :
  lastRefill (call now c s) = now.
Proof.
  destruct c as [cost | | |]; cbn [call]; try reflexivity.
  unfold tryConsume. cbv zeta.
  destruct (tokens (refillTokens now s) >=? cost); reflexivity.
Qed.

Lemma call_wellFormed (now : Z) (c : Call) (s : t) :
  wellFormed s -> admissible (lastRefill s) [(now, c)] ->
  wellFormed (call now c s).
Proof.
  intros Hwf (Hclock & Hcost & _).
  destruct c as [cost | | |]; cbn [call].
  - apply tryConsume_wellFormed; assumption.
  - apply refillTokens_wellFormed; assumption.
  - apply refillTokens_wellFormed; assumption.
  - apply reset_wellFormed; assumption.
Qed.

(** The invariant along any admissible history of calls. *)
Lemma history_wellFormed (calls : list (Z * Call)) :
  forall s : t,
    wellFormed s -> admissible (lastRefill s) calls ->
    wellFormed (history calls s).
Proof.
  induction calls as [| [now c] later IH]; intros s Hwf Hadm;
    cbn [history]; [exact Hwf |].
  destruct Hadm as (Hclock & Hcost & Hlater).
  apply IH.
  - apply call_wellFormed; [exact Hwf | cbn [admissible]; auto].
  - rewrite call_lastRefill. exact Hlater.
Qed.

(** C8, amended.  [tryConsume] first refills: the tokens become
    min(capacity, tokens + (now - lastRefill) / 1000 * refillRate) and
    [lastRefill] becomes the clock reading; it succeeds exactly when the
    refilled count is at least the cost, and then takes exactly the cost;
    otherwise it fails and leaves the refilled bucket as it is.  On a
    well-formed bucket (finite numbers, a refill rate that is not negative,
    tokens within [0, capacity]), read on a clock that has not gone back,
    with a cost that is not negative, the tokens are within [0, capacity]
    after [tryConsume], [refillTokens] and [reset], and the bucket is
    well-formed again; so they are after any history of such calls. *)
Theorem tryConsume_bucket (now : Z) (cost : num) (s : t) :
  let refilled :=
    Math_min (maxTokens s)
      (tokens s
       + Fin (inject_Z (now - lastRefill s)) / Fin 1000 * refillRate s) in
  (tokens (refillTokens now s) = refilled
   /\ lastRefill (refillTokens now s) = now
   /\ maxTokens (refillTokens now s) = maxTokens s
   /\ refillRate (refillTokens now s) = refillRate s)
  /\ (fst (tryConsume now cost s) = true <-> (refilled >=? cost) = true)
  /\ (fst (tryConsume now cost s) = true ->
      tokens (snd (tryConsume now cost s)) = refilled - cost
      /\ lastRefill (snd (tryConsume now cost s)) = now)
  /\ (fst (tryConsume now cost s) = false ->
      snd (tryConsume now cost s) = refillTokens now s)
  /\ (wellFormed s -> (lastRefill s <= now)%Z -> (Fin 0 <=? cost) = true ->
      (inRange (snd (tryConsume now cost s))
       /\ inRange (refillTokens now s)
       /\ inRange (reset now s))
      /\ (wellFormed (snd (tryConsume now cost s))
          /\ wellFormed (refillTokens now s)
          /\ wellFormed (reset now s)))
  /\ (wellFormed s ->
      forall calls,
        admissible (lastRefill s) calls -> inRange (history calls s)).
Proof.
  cbv zeta.
  split; [repeat split |].
  split; [| split; [| split; [| split]]].
  - unfold tryConsume. cbv zeta. cbn [refillTokens tokens].
    destruct (_ >=? cost); cbn [fst]; split; auto.
  - unfold tryConsume. cbv zeta. cbn [refillTokens tokens].
    destruct (_ >=? cost); cbn [fst snd]; [split; reflexivity | discriminate].
  - unfold tryConsume. cbv zeta.
    destruct (_ >=? cost); cbn [fst snd]; [discriminate | reflexivity].
  - intros Hwf Hclock Hcost.
    pose proof (tryConsume_wellFormed now cost s Hwf Hclock Hcost) as H1.
    pose proof (refillTokens_wellFormed now s Hwf Hclock) as H2.
    pose proof (reset_wellFormed now s Hwf) as H3.
    auto 10 using wellFormed_inRange.
  - intros Hwf calls Hadm.
    apply wellFormed_inRange, history_wellFormed; assumption.
Qed.

Lemma tryConsume_bucket_witness :
  fst (tryConsume 1000 (Fin 2) limiter55) = true
  /\ inRange (snd (tryConsume 1000 (Fin 2) limiter55)).
Proof.
  destruct (tryConsume_bucket 1000 (Fin 2) limiter55)
    as (_ & Hok & _ & _ & Hinv).
  split; [apply Hok; reflexivity |].
  apply Hinv.
  - unfold wellFormed. repeat split.
  - cbn. lia.
  - reflexivity.
Defined.

(** C8, the claim as stated fails.  Nothing keeps the refill from being
    negative.  A bucket [RateLimiter(5, 5)] built and emptied at time 1000
    holds 0 tokens; read again at time 0, a clock set back by a second, it
    is refilled by -1 s * 5 tokens/s: the attempt fails and leaves -5 tokens,
    below the range [0, capacity]. *)
Lemma tryConsume_bucket_counterexample :
  let emptied := snd (tryConsume 1000 (Fin 5) (constructor 1000 (Fin 5) (Fin 5))) in
  inRange emptied
  /\ tokens emptied =n= Fin 0
  /\ lastRefill emptied = 1000%Z
  /\ fst (tryConsume 0 (Fin 1) emptied) = false
  /\ tokens (snd (tryConsume 0 (Fin 1) emptied)) =n= Fin (-5)
  /\ (Fin 0 <=? tokens (snd (tryConsume 0 (Fin 1) emptied))) = false
  /\ (Fin 0 <=? tokens (refillTokens 0 emptied)) = false.
Proof.
  cbv zeta. repeat split; vm_compute; reflexivity.
Qed.

Lemma attempt_outcome (now : Z) (cost : num) (s : t) :
  attempt now cost s =
    if fst (tryConsume now cost s)
    then (Resolve, snd (tryConsume now cost s))
    else
      (SetTimeout
         (Math_max
            (Math_ceil
               ((cost - tokens (snd (tryConsume now cost s)))
                / refillRate (snd (tryConsume now cost s)) * Fin 1000))
            (Fin 100)),
       snd (tryConsume now cost s)).
Proof.
  unfold attempt. destruct (tryConsume now cost s) as [[|] s']; reflexivity.
Qed.

(** A resolved wait ends on a successful [tryConsume], after attempts that
    all failed. *)
Lemma waitForToken_resolved (cost : num) (clock : list Z) :
  forall (s s' : t) (delays : list num),
    waitForToken clock cost s = (true, delays, s') ->
    exists before now after s1,
      clock = before ++ now :: after
      /\ waitForToken before cost s = (false, delays, s1)
      /\ List.length delays = List.length before
      /\ tryConsume now cost s1 = (true, s').
Proof.
  induction clock as [| now later IH]; intros s s' delays H.
  - discriminate H.
  - cbn [waitForToken] in H. rewrite attempt_outcome in H.
    destruct (tryConsume now cost s) as [ok s1] eqn:E. cbn [fst snd] in H.
    destruct ok.
    + injection H as <- <-.
      exists [], now, later, s. repeat split; auto.
    + destruct (waitForToken later cost s1) as [[resolved ds] s2] eqn:W.
      injection H as -> <- ->.
      destruct (IH _ _ _ W) as (before & now' & after & s3 & Hc & Hw & Hl & Ht).
      exists (now :: before), now', after, s3.
      split; [rewrite Hc; reflexivity |].
      split; [| split; [cbn [List.length]; rewrite Hl; reflexivity | exact Ht]].
      cbn [waitForToken]. rewrite attempt_outcome, E. cbn [fst snd].
      rewrite Hw. reflexivity.
Qed.

Lemma tryConsume_over_capacity (now : Z) (cost : num) (s : t) :
  (maxTokens s <? cost) = true -> fst (tryConsume now cost s) = false.
Proof.
  intros H. unfold tryConsume. cbv zeta. cbn [refillTokens tokens].
  destruct (Math_min (maxTokens s) (tokens s + elapsedSeconds now s * refillRate s)
            >=? cost) eqn:E; [| reflexivity].
  exfalso. revert H E.
  generalize (tokens s + elapsedSeconds now s * refillRate s) as v.
  intros v. destruct (maxTokens s) as [cap | | |], v as [q | | |],
    cost as [c | | |]; try discriminate;
    unfold Math_min, cmp; try (destruct (cap ?= q)%Q eqn:E0);
    try discriminate; rewrite ?ltb_Fin, ?geb_Fin; intros; qprop; qlra.
Qed.

(** [Math.max(x, 100)] is at least 100 unless it is [NaN]. *)
Lemma Math_max_floor (x : num) :
  isNaN (Math_max x (Fin 100)) = true
  \/ (Fin 100 <=? Math_max x (Fin 100)) = true.
Proof.
  destruct x as [a | | |]; [| right; reflexivity | right; reflexivity
                            | left; reflexivity].
  right. unfold Math_max, cmp.
  destruct (a ?= 100)%Q eqn:E; qprop; apply leb_Fin; lra.
Qed.

Lemma tryConsume_failed (now : Z) (cost : num) (s : t) :
  fst (tryConsume now cost s) = false ->
  snd (tryConsume now cost s) = refillTokens now s.
Proof.
  unfold tryConsume. cbv zeta.
  destruct (tokens (refillTokens now s) >=? cost);
    [discriminate | reflexivity].
Qed.

(** The first step of a wait whose first attempt fails: the delay handed to
    [setTimeout], then the wait of the attempt the timer starts. *)
Lemma waitForToken_failed (now : Z) (later : list Z) (cost : num) (s : t) :
  fst (tryConsume now cost s) = false ->
  waitForToken (now :: later) cost s
  = (fst (fst (waitForToken later cost (refillTokens now s))),
     Math_max
       (Math_ceil
          ((cost - tokens (refillTokens now s)) / refillRate s * Fin 1000))
       (Fin 100)
     :: snd (fst (waitForToken later cost (refillTokens now s))),
     snd (waitForToken later cost (refillTokens now s))).
Proof.
  intros Hfail. cbn [waitForToken]. rewrite attempt_outcome, Hfail.
  rewrite (tryConsume_failed now cost s Hfail).
  cbn [refillTokens refillRate].
  destruct (waitForToken later cost _) as [[resolved delays] s'].
  reflexivity.
Qed.

(** Every delay of a wait is the result of a [Math.max(_, 100)]. *)
Lemma waitForToken_delays (cost : num) (clock : list Z) :
  forall s : t,
    Forall (fun d => isNaN d = true \/ (Fin 100 <=? d) = true)
      (snd (fst (waitForToken clock cost s))).
Proof.
  induction clock as [| now later IH]; intros s; [constructor |].
  destruct (fst (tryConsume now cost s)) eqn:E.
  - cbn [waitForToken]. rewrite attempt_outcome, E. constructor.
  - rewrite (waitForToken_failed now later cost s E). cbn [fst snd].
    constructor; [apply Math_max_floor | apply IH].
Qed.

(** Past the capacity every attempt fails: the promise stays pending however
    many attempts the clock allows. *)
Lemma waitForToken_over_capacity (cost : num) (clock : list Z) :
  forall s : t,
    (maxTokens s <? cost) = true ->
    exists delays s',
      waitForToken clock cost s = (false, delays, s')
      /\ List.length delays = List.length clock.
Proof.
  induction clock as [| now later IH]; intros s Hcap.
  - exists [], s. split; reflexivity.
  - pose proof (tryConsume_over_capacity now cost s Hcap) as Hfail.
    rewrite (waitForToken_failed now later cost s Hfail).
    destruct (IH (refillTokens now s) Hcap) as (ds & s' & Hw & Hl).
    rewrite Hw. cbn [fst snd]. eexists; eexists. split; [reflexivity |].
    cbn [List.length]. rewrite Hl. reflexivity.
Qed.

(** C9.  [waitForToken] makes its first attempt at once.  When the
    [tryConsume] of that attempt succeeds the promise is resolved and no
    timer is set.  When it fails, the attempt hands itself to [setTimeout]
    with a delay of max(ceil(tokensNeeded / refillRate * 1000), 100)
    milliseconds, where tokensNeeded is the cost minus the tokens the bucket
    holds after the refill of the failed [tryConsume], and the wait goes on
    with the attempt that timer starts; every delay is thus at least 100
    (or not a number).  A wait that resolves does so on a successful
    [tryConsume], after attempts that all failed, and nothing bounds the
    wait: for a cost above the capacity the promise is still pending after
    any number of attempts. *)
Theorem waitForToken_retry (now : Z) (later : list Z) (cost : num) (s : t) :
  let available := tokens (refillTokens now s) in
  let delay :=
    Math_max (Math_ceil ((cost - available) / refillRate s * Fin 1000))
      (Fin 100) in
  (fst (tryConsume now cost s) = true ->
   waitForToken (now :: later) cost s
   = (true, [], snd (tryConsume now cost s)))
  /\ (fst (tryConsume now cost s) = false ->
      waitForToken (now :: later) cost s
      = (fst (fst (waitForToken later cost (refillTokens now s))),
         delay :: snd (fst (waitForToken later cost (refillTokens now s))),
         snd (waitForToken later cost (refillTokens now s)))
      /\ attempt now cost s = (SetTimeout delay, refillTokens now s))
  /\ (forall clock,
        Forall (fun d => isNaN d = true \/ (Fin 100 <=? d) = true)
          (snd (fst (waitForToken clock cost s))))
  /\ (forall clock delays s',
        waitForToken clock cost s = (true, delays, s') ->
        exists before now' after s1,
          clock = before ++ now' :: after
          /\ waitForToken before cost s = (false, delays, s1)
          /\ List.length delays = List.length before
          /\ tryConsume now' cost s1 = (true, s'))
  /\ ((maxTokens s <? cost) = true ->
      forall clock,
      exists delays s',
        waitForToken clock cost s = (false, delays, s')
        /\ List.length delays = List.length clock).
Proof.
  cbv zeta. split; [| split; [| split; [| split]]].
  - intros H. cbn [waitForToken]. rewrite attempt_outcome, H. reflexivity.
  - intros H. split; [apply waitForToken_failed, H |].
    rewrite attempt_outcome, H, (tryConsume_failed now cost s H).
    reflexivity.
  - intros clock. apply waitForToken_delays.
  - intros clock delays s'. apply waitForToken_resolved.
  - intros H clock. apply waitForToken_over_capacity, H.
Qed.

(** The drained test bucket [RateLimiter(5, 5)]: one token is missing, the
    timer is set to 200 ms, and the attempt it starts resolves the wait. *)
Lemma waitForToken_retry_witness :
  exists d s',
    waitForToken [0; 200]%Z (Fin 1) (snd (tryConsume 0 (Fin 5) limiter55))
    = (true, [d], s')
    /\ d =n= Fin 200.
Proof.
  destruct (waitForToken_retry 0 [200%Z] (Fin 1)
              (snd (tryConsume 0 (Fin 5) limiter55)))
    as (_ & Hretry & _).
  destruct (Hretry eq_refl) as [Hwait _].
  eexists; eexists. split; [rewrite Hwait; reflexivity |].
  vm_compute. reflexivity.
Defined.

(* ================================================================== *)
(** * Constant closes *)
(* ================================================================== *)

Import SpecIndicators.

Lemma Forall_firstn_skipn {A : Type} (P : A -> Prop) (n : nat) (xs : list A) :
  Forall P xs -> Forall P (firstn n xs) /\ Forall P (skipn n xs).
Proof.
  intros H. rewrite <- (firstn_skipn n xs) in H.
  apply Forall_app in H. exact H.
Qed.

Lemma index_last {A : Type} (P : A -> Prop) (xs : list A) :
  xs <> [] -> Forall P xs ->
  exists x, index xs (len xs - 1) = Some x /\ P x.
Proof.
  intros Hne HP. unfold index, len.
  destruct xs as [| x0 xs']; [contradiction |].
  destruct (Z.ltb_spec (Z.of_nat (List.length (x0 :: xs')) - 1) 0) as [Hlt | _];
    [cbn [List.length] in Hlt; lia |].
  destruct (nth_error (x0 :: xs')
              (Z.to_nat (Z.of_nat (List.length (x0 :: xs')) - 1))) as [x |] eqn:E.
  - exists x. split; [reflexivity |].
    rewrite Forall_forall in HP. apply HP. eapply nth_error_In, E.
  - exfalso. apply nth_error_None in E. cbn [List.length] in E. lia.
Qed.

(** ** Sums and means of a constant series *)

Lemma sum_from_const (c : Q) (xs : list num) :
  Forall (near c) xs ->
  forall a : Q,
    fold_left add xs (Fin a)
    =n= Fin (a + inject_Z (Z.of_nat (List.length xs)) * c).
Proof.
  induction 1 as [| x xs Hx _ IH]; intros a.
  - cbn [fold_left List.length same]. change (inject_Z (Z.of_nat 0)) with 0%Q.
    ring.
  - cbn [fold_left]. destruct x as [q | | |]; try contradiction.
    cbn [add]. unfold near, same in Hx.
    eapply same_trans; [apply IH |]. cbn [same List.length].
    rewrite Nat2Z.inj_succ, <- Z.add_1_r, inject_Z_plus.
    change (inject_Z 1) with 1%Q. rewrite Hx. ring.
Qed.

Lemma mean_const (c : Q) (xs : list num) :
  xs <> [] -> Forall (near c) xs -> near c (mean xs).
Proof.
  intros Hne H. unfold mean, sum, near.
  pose proof (sum_from_const c xs H 0) as Hs.
  destruct (fold_left add xs (Fin 0)) as [t | | |]; try contradiction.
  cbn [same] in Hs. unfold len, div.
  assert (0 < inject_Z (Z.of_nat (List.length xs)))%Q as Hlen.
  { change 0%Q with (inject_Z 0). rewrite <- Zlt_Qlt.
    destruct xs; [contradiction | cbn [List.length]; lia]. }
  destruct (Qeq_bool (inject_Z (Z.of_nat (List.length xs))) 0) eqn:E; qprop;
    [lra |].
  cbn [same]. rewrite Hs. field. lra.
Qed.

(** ** RSI of a constant series *)

Lemma changes_const (c : Q) (closes : list num) :
  Forall (near c) closes ->
  forall previous, near c previous ->
    Forall (near 0) (changes previous closes).
Proof.
  induction 1 as [| x xs Hx _ IH]; intros previous Hp; cbn [changes].
  - constructor.
  - constructor; [| apply IH, Hx].
    destruct previous as [p | | |]; try contradiction.
    destruct x as [q | | |]; try contradiction.
    unfold near in *. cbn [same sub add opp] in *. rewrite Hp, Hx. ring.
Qed.

Lemma gain_zero (d : num) : near 0 d -> gain d = Fin 0.
Proof.
  intros H. unfold gain. rewrite (gtb_false_of_same _ _ H). reflexivity.
Qed.

Lemma loss_zero (d : num) : near 0 d -> loss d = Fin 0.
Proof.
  intros H. unfold loss. rewrite (ltb_false_of_same _ _ H). reflexivity.
Qed.

Lemma Forall_map_zero (f : num -> num) (ds : list num) :
  (forall d, near 0 d -> f d = Fin 0) ->
  Forall (near 0) ds -> Forall (near 0) (map f ds).
Proof.
  intros Hf H. induction H as [| d ds Hd _ IH]; cbn [map]; constructor.
  - rewrite (Hf d Hd). apply same_refl.
  - exact IH.
Qed.

Lemma rsi_of_no_loss (g l : num) : near 0 l -> rsi_of g l = Fin 100.
Proof.
  intros H. unfold rsi_of.
  destruct l as [q | | |]; try contradiction.
  assert (eqb (Fin q) (Fin 0) = true) as -> by (apply eqb_Fin, H).
  reflexivity.
Qed.

Lemma smooth_zero (avg d : num) (p : Q) :
  (0 < p)%Q -> near 0 avg -> d = Fin 0 ->
  near 0 ((avg * (Fin p - Fin 1) + d) / Fin p).
Proof.
  intros Hp Ha ->. destruct avg as [a | | |]; try contradiction.
  unfold near in *. cbn [same sub add opp mul div] in *.
  destruct (Qeq_bool p 0) eqn:E; qprop; [lra |].
  cbn [same]. rewrite Ha. field. lra.
Qed.

Lemma wilder_steps_const (p : Q) (ds : list num) :
  (0 < p)%Q -> Forall (near 0) ds ->
  forall g l, near 0 g -> near 0 l ->
    Forall (eq (Fin 100)) (wilder_steps (Fin p) g l ds).
Proof.
  intros Hp H. induction H as [| d ds Hd _ IH]; intros g l Hg Hl;
    cbn [wilder_steps]; constructor.
  - symmetry. apply rsi_of_no_loss, smooth_zero; auto using loss_zero.
  - apply IH; apply smooth_zero; auto using gain_zero, loss_zero.
Qed.

Lemma RSI_const (c : Q) (period : nat) (closes : list num) :
  (1 <= period < List.length closes)%nat ->
  Forall (near c) closes ->
  RSI period closes <> [] /\ Forall (eq (Fin 100)) (RSI period closes).
Proof.
  intros Hlen H. unfold RSI.
  destruct closes as [| c0 rest]; [cbn in Hlen; lia |].
  apply Forall_cons_iff in H as [H0 Hrest].
  pose proof (changes_const c rest Hrest c0 H0) as Hds.
  assert (List.length (changes c0 rest) = List.length rest) as Hl.
  { clear. revert c0. induction rest as [| x xs IH]; intros c0;
      cbn [changes List.length]; [reflexivity | now rewrite IH]. }
  cbn [List.length] in Hlen.
  destruct (Nat.ltb_spec (List.length (changes c0 rest)) period) as [Hlt | _];
    [lia |].
  split; [discriminate |].
  destruct (Forall_firstn_skipn _ period _ Hds) as [Hf Hs].
  assert (firstn period (changes c0 rest) <> []) as Hne.
  { intros E. apply (f_equal (@List.length num)) in E.
    rewrite length_firstn in E. cbn in E. lia. }
  assert (near 0 (mean (map gain (firstn period (changes c0 rest))))) as Hg.
  { apply mean_const.
    - intros E. apply map_eq_nil in E. contradiction.
    - apply Forall_map_zero; [apply gain_zero | exact Hf]. }
  assert (near 0 (mean (map loss (firstn period (changes c0 rest))))) as Hlo.
  { apply mean_const.
    - intros E. apply map_eq_nil in E. contradiction.
    - apply Forall_map_zero; [apply loss_zero | exact Hf]. }
  constructor.
  - symmetry. apply rsi_of_no_loss, Hlo.
  - apply wilder_steps_const; auto.
    change 0%Q with (inject_Z 0). rewrite <- Zlt_Qlt. lia.
Qed.

(** C10, amended.  Over 21 candles or more that all close at one finite
    price, with the RSI the specification describes and whatever values
    [EMA.calculate] returns for the two periods: no error is raised, the RSI
    is the in-range value 100 its zero-loss rule gives, and the signal is
    HOLD with confidence 0.  The trend is the comparison of the two current
    averages: NEUTRAL exactly when neither is greater, and then no crossover
    is flagged. *)
Theorem constant_close_hold
    (ema : nat -> list num -> list num) (clock : string) (cs : list Candle)
    (c : Q) :
  (21 <= List.length cs)%nat ->
  Forall (fun cd => close cd =n= Fin c) cs ->
  ema 9%nat (closePrices cs) <> [] ->
  ema 21%nat (closePrices cs) <> [] ->
  exists s fast slow,
    analyzeMarket (TI := with_EMA ema) clock cs = Ok s
    /\ currentEMA9 (TI := with_EMA ema) cs = Some fast
    /\ currentEMA21 (TI := with_EMA ema) cs = Some slow
    /\ currentRSI (TI := with_EMA ema) cs = Some (Fin 100)
    /\ rsi (indicators s) =n= Fin 100
    /\ signal s = HOLD
    /\ confidence s = Fin 0
    /\ (trend s = NEUTRAL <-> (fast >? slow) = false /\ (fast <? slow) = false)
    /\ (fast =n= slow ->
        trend s = NEUTRAL
        /\ crossover s = {| bullish := false; bearish := false |}).
Proof.
  intros Hlen Hall N9 N21.
  assert (Forall (near c) (closePrices cs)) as Hcl.
  { unfold closePrices. apply Forall_map. exact Hall. }
  assert (List.length (closePrices cs) = List.length cs) as Hl
    by apply length_map.
  destruct (RSI_const c 14 (closePrices cs) ltac:(lia) Hcl) as [Nr Fr].
  destruct (index_last (fun _ => True) _ N9) as (fast & H9' & _);
    [apply Forall_forall; auto |].
  destruct (index_last (fun _ => True) _ N21) as (slow & H21' & _);
    [apply Forall_forall; auto |].
  destruct (index_last _ _ Nr Fr) as (r & Hr' & <-).
  assert (currentEMA9 (TI := with_EMA ema) cs = Some fast) as H9 by exact H9'.
  assert (currentEMA21 (TI := with_EMA ema) cs = Some slow) as H21
    by exact H21'.
  assert (currentRSI (TI := with_EMA ema) cs = Some (Fin 100)) as Hr
    by exact Hr'.
  clear H9' H21' Hr'.
  destruct (index_last (fun _ => True) cs) as (latestCandle & Hlast & _);
    [destruct cs; [cbn in Hlen; lia | discriminate]
    | apply Forall_forall; auto |].
  assert (signalAndConfidence (TI := with_EMA ema) cs = (HOLD, Fin 0)) as Hsig.
  { unfold signalAndConfidence, buyRule, sellRule.
    rewrite H9, H21, Hr. cbn [ToNumber].
    change (Fin 100 <? Fin 70) with false.
    change (Fin 100 <? Fin 50) with false.
    rewrite !andb_false_r. reflexivity. }
  exists {| signal := HOLD;
            confidence := Fin 0;
            indicators :=
              {| ema9 := parseFloat (toFixed fast 6);
                 ema21 := parseFloat (toFixed slow 6);
                 rsi := parseFloat (toFixed (Fin 100) 2) |};
            trend := trendOf (TI := with_EMA ema) cs;
            crossover :=
              {| bullish := bullishCrossover (TI := with_EMA ema) cs;
                 bearish := bearishCrossover (TI := with_EMA ema) cs |};
            currentPrice := parseFloat (close latestCandle);
            signalTimestamp :=
              if String.eqb (timestamp latestCandle) EmptyString
              then clock else timestamp latestCandle;
            candles :=
              {| analyzed := List.length cs; latest := latestCandle |} |},
         fast, slow.
  split.
  { unfold analyzeMarket.
    destruct (Nat.ltb_spec (List.length cs) 21) as [Hshort | _]; [lia |].
    rewrite Hsig, H9, H21, Hr, Hlast. reflexivity. }
  cbn [indicators rsi trend signal confidence crossover].
  do 3 (split; [assumption |]).
  split; [vm_compute; reflexivity |].
  do 2 (split; [reflexivity |]).
  unfold trendOf, bullishCrossover, bearishCrossover.
  rewrite H9, H21. cbn [ToNumber]. split.
  - destruct (fast >? slow), (fast <? slow); split;
      try discriminate; try (intros [? ?]; discriminate); auto.
  - intros Hsame.
    rewrite (gtb_false_of_same _ _ Hsame), (ltb_false_of_same _ _ Hsame).
    rewrite !andb_false_r. split; reflexivity.
Qed.

(** Twenty-one candles closing at the double nearest to 1/3, the averages
    computed on doubles. *)
Lemma constant_close_hold_witness :
  exists s,
    analyzeMarket (TI := with_EMA Binary64.EMA_calculate) ""
      (flat 21 (Binary64.toQ Binary64.third)) = Ok s
    /\ signal s = HOLD /\ confidence s = Fin 0 /\ rsi (indicators s) =n= Fin 100.
Proof.
  destruct (constant_close_hold Binary64.EMA_calculate ""
              (flat 21 (Binary64.toQ Binary64.third))
              (Binary64.toQ Binary64.third))
    as (s & fast & slow & H & _ & _ & _ & Hr & Hs & Hc & _).
  - cbn [flat repeat List.length]. lia.
  - unfold flat. repeat constructor; reflexivity.
  - vm_compute. discriminate.
  - vm_compute. discriminate.
  - exists s. auto.
Defined.

(** C10, the claim as stated fails.  Twenty-one candles closing at the
    double nearest to 1/3, with the averages of the specification computed
    on doubles: the slow average, the mean of the 21 closes, comes out below
    the close and the fast one above the slow one, so [analyzeMarket]
    reports a BULLISH trend, not a NEUTRAL one, next to its HOLD. *)
Lemma constant_close_counterexample :
  let c := Binary64.toQ Binary64.third in
  let cs := flat 21 c in
  exists s fast slow,
    analyzeMarket (TI := with_EMA Binary64.EMA_calculate) "" cs = Ok s
    /\ Forall (fun cd => close cd = Fin c) cs
    /\ currentEMA9 (TI := with_EMA Binary64.EMA_calculate) cs = Some fast
    /\ currentEMA21 (TI := with_EMA Binary64.EMA_calculate) cs = Some slow
    /\ (slow <? Fin c) = true
    /\ (slow <? fast) = true
    /\ signal s = HOLD
    /\ trend s = BULLISH.
Proof.
  cbv zeta. do 3 eexists.
  split; [vm_compute; reflexivity |].
  split; [repeat constructor |].
  split; [vm_compute; reflexivity |].
  split; [vm_compute; reflexivity |].
  repeat split.
Qed.

(** ** Positive closes give positive averages *)

Lemma sum_from_positive (xs : list num) :
  Forall positive xs ->
  forall a : Q, (0 <= a)%Q ->
    exists t, fold_left add xs (Fin a) = Fin t
              /\ (a <= t)%Q /\ (xs <> [] -> 0 < t)%Q.
Proof.
  induction 1 as [| x xs Hx _ IH]; intros a Ha; cbn [fold_left].
  - exists a. split; [reflexivity |]. split; [lra | congruence].
  - destruct x as [q | | |]; try contradiction. cbn [positive] in Hx.
    cbn [add]. destruct (IH (a + q)%Q ltac:(lra)) as (t & Et & Hle & _).
    exists t. split; [exact Et |]. split; [lra |]. intros _. lra.
Qed.

Lemma mean_positive (xs : list num) :
  xs <> [] -> Forall positive xs -> positive (mean xs).
Proof.
  intros Hne H. unfold mean, sum.
  destruct (sum_from_positive xs H 0 ltac:(lra)) as (t & -> & _ & Ht).
  specialize (Ht Hne). unfold len, div.
  assert (0 < inject_Z (Z.of_nat (List.length xs)))%Q as Hlen.
  { change 0%Q with (inject_Z 0). rewrite <- Zlt_Qlt.
    destruct xs; [contradiction | cbn [List.length]; lia]. }
  destruct (Qeq_bool (inject_Z (Z.of_nat (List.length xs))) 0) eqn:E; qprop;
    [lra |].
  cbn [positive]. apply Qlt_shift_div_l; lra.
Qed.

Lemma ema_steps_positive (k : Q) (closes : list num) :
  (0 < k <= 1)%Q -> Forall positive closes ->
  forall previous, positive previous ->
    Forall positive (ema_steps (Fin k) previous closes).
Proof.
  intros Hk H. induction H as [| x xs Hx _ IH]; intros previous Hp;
    cbn [ema_steps].
  - constructor.
  - assert (positive (previous * (Fin 1 - Fin k) + x * Fin k)) as He.
    { destruct previous as [p | | |]; try contradiction.
      destruct x as [q | | |]; try contradiction.
      cbn [positive sub add opp mul] in *.
      assert (0 <= p * (1 + - k))%Q by (apply Qmult_le_0_compat; lra).
      assert (0 < q * k)%Q by (apply Qmult_lt_0_compat; lra).
      lra. }
    constructor; [exact He | apply IH, He].
Qed.

Lemma EMA_positive (period : nat) (closes : list num) :
  (1 <= period)%nat -> Forall positive closes ->
  Forall positive (EMA period closes).
Proof.
  intros Hp H. unfold EMA.
  destruct (Nat.ltb_spec (List.length closes) period) as [Hlt | Hge];
    [constructor |].
  destruct (Forall_firstn_skipn _ period closes H) as [Hf Hs].
  assert (positive (mean (firstn period closes))) as Hseed.
  { apply mean_positive; [| exact Hf].
    intros E. apply (f_equal (@List.length num)) in E.
    rewrite length_firstn in E. cbn in E. lia. }
  assert (1 <= inject_Z (Z.of_nat period))%Q as Hq
    by (change 1%Q with (inject_Z 1); rewrite <- Zle_Qle; lia).
  cbn [add div].
  destruct (Qeq_bool (inject_Z (Z.of_nat period) + 1) 0) eqn:E; qprop;
    [exfalso; lra |].
  constructor; [exact Hseed |].
  apply ema_steps_positive; auto. split.
  - apply Qlt_shift_div_l; lra.
  - apply Qle_shift_div_r; lra.
Qed.

(** Over positive prices the indicators of the specification keep the slow
    EMA positive, so the confidence [analyzeMarket] returns is within
    [0,100]. *)
Lemma confidence_in_range_positive_prices
    (clock : string) (cs : list Candle) (s : Signal) :
  Forall (fun cd => positive (close cd)) cs ->
  analyzeMarket (TI := spec_indicators) clock cs = Ok s ->
  (Fin 0 <=? confidence s) = true /\ (confidence s <=? Fin 100) = true.
Proof.
  intros Hpos H.
  destruct (analyzeMarket_confidence _ _ _ _ H)
    as (fast & slow & r & _ & H21 & _ & _ & _ & _ & Hrange).
  assert (positive slow) as Hslow.
  { assert (Forall positive (ema21Values (TI := spec_indicators) cs)) as Hall.
    { apply EMA_positive; [lia |]. unfold closePrices. apply Forall_map, Hpos. }
    unfold currentEMA21, index in H21.
    destruct (len (ema21Values cs) - 1 <? 0)%Z; [discriminate |].
    rewrite Forall_forall in Hall. apply Hall. eapply nth_error_In, H21. }
  destruct slow as [b | | |]; try contradiction.
  apply Hrange; [exact I | apply gtb_Fin, Hslow].
Qed.
Import CandlePatterns PositionSize MoreSamples.

(* ================================================================== *)
(** * strategy.js: candle patterns *)
(* ================================================================== *)

Lemma slice_window {A : Type} (lookback : Z) (xs : list A) :
  (1 <= lookback)%Z ->
  slice (- lookback) xs
  = skipn (List.length xs - Nat.min (Z.to_nat lookback) (List.length xs)) xs.
Proof.
  intros H. unfold slice, len.
  assert ((- lookback <? 0)%Z = true) as -> by (apply Z.ltb_lt; lia).
  f_equal. lia.
Qed.

Lemma slice_all {A : Type} (lookback : Z) (xs : list A) :
  lookback = 0%Z \/ (len xs <= lookback)%Z -> slice (- lookback) xs = xs.
Proof.
  unfold slice, len. intros H.
  destruct (- lookback <? 0)%Z eqn:E;
    [apply Z.ltb_lt in E | apply Z.ltb_ge in E];
    match goal with
    | |- skipn ?k _ = _ => replace k with 0%nat by lia
    end; reflexivity.
Qed.

Lemma In_patternsOf_index (c : Candle) (i : nat) (p : Pattern) :
  In p (patternsOf c i) -> pattern_index p = i.
Proof.
  unfold patternsOf. intros H.
  repeat (apply in_app_or in H; destruct H as [H | H]);
    match type of H with
    | In _ (if ?b then _ else _) => destruct b
    end; simpl in H; try easy; destruct H as [<- | []]; reflexivity.
Qed.

Lemma patternsOf_reindex (c : Candle) (i j : nat) (p : Pattern) :
  In p (patternsOf c i) ->
  In {| pattern_type := pattern_type p; pattern_strength := pattern_strength p;
        pattern_index := j |} (patternsOf c j).
Proof.
  unfold patternsOf. intros H.
  repeat (apply in_app_or in H; destruct H as [H | H]).
  - apply in_or_app. left. destruct (isDoji c); simpl in *; [| easy].
    destruct H as [<- | []]. left. reflexivity.
  - apply in_or_app. right. apply in_or_app. left.
    destruct (isHammer c); simpl in *; [| easy].
    destruct H as [<- | []]. left. reflexivity.
  - apply in_or_app. right. apply in_or_app. right.
    destruct (isShootingStar c); simpl in *; [| easy].
    destruct H as [<- | []]. left. reflexivity.
Qed.

(** The loop pushes, after what was there, the patterns of each candle under
    the candle's position. *)
Lemma forEach_flat (cs : list Candle) (i : nat) (acc : list Pattern) :
  forEach cs i acc = acc ++ forEach cs i [].
Proof.
  revert i acc. induction cs as [| c cs IH]; intros i acc; simpl.
  - now rewrite app_nil_r.
  - rewrite (IH (S i) (acc ++ patternsOf c i)), (IH (S i) (patternsOf c i)).
    now rewrite app_assoc.
Qed.

Lemma In_forEach (cs : list Candle) (i : nat) (p : Pattern) :
  In p (forEach cs i [])
  <-> exists k c, nth_error cs k = Some c /\ In p (patternsOf c (i + k)).
Proof.
  revert i. induction cs as [| c cs IH]; intros i; simpl.
  - split; [easy |]. intros (k & c & H & _). destruct k; discriminate.
  - rewrite forEach_flat. rewrite in_app_iff, IH. split.
    + intros [H | (k & c' & Hk & Hp)].
      * exists 0%nat, c. rewrite Nat.add_0_r. auto.
      * exists (S k), c'. rewrite Nat.add_succ_r. auto.
    + intros (k & c' & Hk & Hp). destruct k as [| k]; simpl in Hk.
      * injection Hk as <-. rewrite Nat.add_0_r in Hp. auto.
      * right. exists k, c'. rewrite Nat.add_succ_r in Hp. auto.
Qed.

Lemma In_detect (candles : list Candle) (lookback : Z) (p : Pattern) :
  In p (detectCandlePatterns candles lookback)
  <-> exists c, nth_error (slice (- lookback) candles) (pattern_index p) = Some c
                /\ In p (patternsOf c (pattern_index p)).
Proof.
  unfold detectCandlePatterns. cbv zeta. rewrite In_forEach. simpl. split.
  - intros (k & c & Hk & Hp). pose proof (In_patternsOf_index _ _ _ Hp) as E.
    rewrite E. eauto.
  - intros (c & Hk & Hp). eauto.
Qed.

(** X1. For a lookback of at least 1, the [index] of a reported pattern
    counts from the start of the window of the last [min(lookback, length)]
    candles, not from the start of [candles]: the pattern is one of those
    the callback pushes for the candle at that offset from the window's
    start, and every such pattern is reported. *)
Theorem detectCandlePatterns_window
    (candles : list Candle) (lookback : Z) (p : Pattern) :
  (1 <= lookback)%Z ->
  let n := Nat.min (Z.to_nat lookback) (List.length candles) in
  In p (detectCandlePatterns candles lookback)
  <-> (pattern_index p < n)%nat
      /\ exists c,
           nth_error candles (List.length candles - n + pattern_index p) = Some c
           /\ In p (patternsOf c (pattern_index p)).
Proof.
  intros H n. rewrite In_detect, (slice_window lookback candles H). fold n.
  assert (n <= List.length candles)%nat as Hn by (subst n; lia).
  split.
  - intros (c & Hk & Hp). rewrite nth_error_skipn in Hk. split; [| eauto].
    assert (List.length candles - n + pattern_index p < List.length candles)%nat
      by (apply nth_error_Some; congruence).
    lia.
  - intros (_ & c & Hk & Hp). exists c. rewrite nth_error_skipn. auto.
Qed.

Lemma detectCandlePatterns_window_witness :
  In (pattern DOJI MEDIUM 1) (detectCandlePatterns patternCandles 3).
Proof.
  apply (detectCandlePatterns_window patternCandles 3 (pattern DOJI MEDIUM 1));
    [lia |].
  split; [cbn; lia |].
  exists dojiCandle. split; [reflexivity |]. vm_compute. auto.
Defined.

Lemma body_cases (c : Candle) :
  body c = NaN \/ body c = PInf \/ exists b, body c = Fin b /\ (0 <= b)%Q.
Proof.
  unfold body, parseFloat.
  destruct (close c) as [a | | |], (open_ c) as [o | | |];
    cbn [Math_abs sub add opp]; auto.
  right. right. eexists. split; [reflexivity | apply Qabs_nonneg].
Qed.

(** The hammer test and the shooting-star test never hold together: each
    asks one wick to be above twice the body and the other below 0.3 of it. *)
Lemma hammer_star_exclusive (c : Candle) :
  isHammer c = true -> isShootingStar c = true -> False.
Proof.
  unfold isHammer, isShootingStar. intros H1 H2.
  apply andb_prop in H1 as [H1 _]. apply andb_prop in H2 as [_ H2].
  destruct (body_cases c) as [E | [E | (b & E & Hb)]]; rewrite E in *.
  - destruct (lowerWick c); discriminate.
  - destruct (lowerWick c); discriminate.
  - destruct (lowerWick c) as [l | | |]; try discriminate.
    simpl in H1, H2. apply gtb_Fin in H1. apply ltb_Fin in H2. lra.
Qed.

Lemma In_patternsOf_cases (c : Candle) (i : nat) (p : Pattern) :
  In p (patternsOf c i) ->
  (isDoji c = true /\ pattern_type p = DOJI)
  \/ (isHammer c = true
      /\ pattern_type p
         = if parseFloat (close c) >? parseFloat (open_ c)
           then HAMMER else HANGING_MAN)
  \/ (isShootingStar c = true /\ pattern_type p = SHOOTING_STAR).
Proof.
  unfold patternsOf. intros H.
  repeat (apply in_app_or in H; destruct H as [H | H]).
  - destruct (isDoji c); simpl in H; [| easy]. destruct H as [<- | []]. auto.
  - destruct (isHammer c); simpl in H; [| easy]. destruct H as [<- | []]. auto.
  - destruct (isShootingStar c); simpl in H; [| easy].
    destruct H as [<- | []]. auto.
Qed.

(** X2. No candle is reported both as a shooting star and as a hammer or
    hanging man, whatever its four prices are (infinite and NaN included):
    a second pattern at the index of a SHOOTING_STAR is a DOJI. *)
Theorem shooting_star_excludes_hammer
    (candles : list Candle) (lookback : Z) (p q : Pattern) :
  In p (detectCandlePatterns candles lookback) ->
  In q (detectCandlePatterns candles lookback) ->
  pattern_index p = pattern_index q ->
  pattern_type p = SHOOTING_STAR ->
  pattern_type q = SHOOTING_STAR \/ pattern_type q = DOJI.
Proof.
  intros Hp Hq Hi Ht.
  apply In_detect in Hp as (c & Hc & Hp), Hq as (c' & Hc' & Hq).
  rewrite Hi in Hc. rewrite Hc in Hc'. injection Hc' as <-.
  apply In_patternsOf_cases in Hp, Hq.
  assert (isShootingStar c = true) as Hs.
  { destruct Hp as [[_ E] | [[_ E] | [Hs _]]]; [congruence | | exact Hs].
    rewrite Ht in E. destruct (_ >? _); discriminate. }
  destruct Hq as [[_ E] | [[Hh _] | [_ E]]]; auto.
  destruct (hammer_star_exclusive c Hh Hs).
Qed.

Lemma shooting_star_excludes_hammer_witness :
  In (pattern SHOOTING_STAR HIGH 2) (detectCandlePatterns patternCandles 3)
  /\ In (pattern DOJI MEDIUM 2) (detectCandlePatterns patternCandles 3)
  /\ (pattern_type (pattern DOJI MEDIUM 2) = SHOOTING_STAR
      \/ pattern_type (pattern DOJI MEDIUM 2) = DOJI).
Proof.
  assert (In (pattern SHOOTING_STAR HIGH 2)
            (detectCandlePatterns patternCandles 3)) as Hp
    by (vm_compute; auto 10).
  assert (In (pattern DOJI MEDIUM 2) (detectCandlePatterns patternCandles 3))
    as Hq by (vm_compute; auto 10).
  split; [exact Hp |]. split; [exact Hq |].
  apply (shooting_star_excludes_hammer patternCandles 3 _ _ Hp Hq);
    reflexivity.
Defined.

(** X3. A lookback of 0 does not give an empty window: [slice(-0)] is
    [slice(0)], so every candle is inspected, as with a lookback equal to
    the number of candles. *)
Theorem detectCandlePatterns_lookback_zero (candles : list Candle) :
  detectCandlePatterns candles 0
  = detectCandlePatterns candles (len candles).
Proof.
  unfold detectCandlePatterns. cbv zeta.
  rewrite (slice_all 0 candles) by (left; reflexivity).
  rewrite (slice_all (len candles) candles) by (right; lia).
  reflexivity.
Qed.

Lemma Math_min_Fin (a b : Q) :
  exists m, Math_min (Fin a) (Fin b) = Fin m /\ (m <= a)%Q /\ (m <= b)%Q
            /\ (m == a \/ m == b)%Q.
Proof.
  unfold_cmp. destruct (a ?= b)%Q eqn:E; qprop; eexists;
    (split; [reflexivity |]); repeat split; try lra; auto; right; reflexivity.
Qed.

Lemma Math_max_Fin (a b : Q) :
  exists m, Math_max (Fin a) (Fin b) = Fin m /\ (a <= m)%Q /\ (b <= m)%Q
            /\ (m == a \/ m == b)%Q.
Proof.
  unfold_cmp. destruct (a ?= b)%Q eqn:E; qprop; eexists;
    (split; [reflexivity |]); repeat split; try lra; auto; right; reflexivity.
Qed.

(** On a well-formed candle the two wicks are non-negative, so the hammer
    and the shooting-star tests both need a body that is not zero. *)
Lemma wick_pattern_body (c : Candle) :
  wellFormedCandle c ->
  isHammer c = true \/ isShootingStar c = true ->
  eqb (close c) (open_ c) = false.
Proof.
  intros (Fo & Fc & Fh & Fl & H1 & H2 & H3 & H4) H.
  unfold isHammer, isShootingStar, lowerWick, upperWick, body, parseFloat in H.
  destruct (open_ c) as [o | | |], (close c) as [cl | | |],
    (high c) as [h | | |], (low c) as [l | | |];
    cbn [finite] in Fo, Fc, Fh, Fl; try tauto.
  apply leb_Fin in H1, H2, H3, H4.
  destruct (eqb (Fin cl) (Fin o)) eqn:E; [| reflexivity].
  apply eqb_Fin in E. exfalso.
  destruct (Math_min_Fin o cl) as (m & Em & _ & _ & Hm).
  destruct (Math_max_Fin o cl) as (M & EM & _ & _ & HM).
  rewrite Em, EM in H. cbn [sub add opp Math_abs mul] in H.
  assert (Qabs (cl + - o) == 0)%Q as Hb.
  { assert (cl + - o == 0)%Q as -> by lra. reflexivity. }
  destruct H as [H | H]; apply andb_prop in H as [_ H];
    apply ltb_Fin in H; rewrite Hb in H.
  - destruct HM; lra.
  - destruct Hm; lra.
Qed.

(** X4. On well-formed candles (finite prices, low and high around open and
    close) the direction of a wick pattern is strict: a HAMMER closes above
    its open, a HANGING_MAN closes below it (the [else] of the ternary is
    never reached with [close = open]), a SHOOTING_STAR has a non-zero body
    and a DOJI a high above its low. *)
Theorem pattern_direction
    (candles : list Candle) (lookback : Z) (p : Pattern) :
  Forall wellFormedCandle candles ->
  In p (detectCandlePatterns candles lookback) ->
  exists c,
    nth_error (slice (- lookback) candles) (pattern_index p) = Some c
    /\ match pattern_type p with
       | HAMMER => (close c >? open_ c) = true
       | HANGING_MAN => (close c <? open_ c) = true
       | SHOOTING_STAR => eqb (close c) (open_ c) = false
       | DOJI => (high c >? low c) = true
       end.
Proof.
  intros Hwf Hp. apply In_detect in Hp as (c & Hc & Hp).
  exists c. split; [exact Hc |].
  assert (wellFormedCandle c) as Hw.
  { apply nth_error_In in Hc. unfold slice in Hc.
    apply (proj1 (Forall_forall _ _) Hwf).
    revert Hc. generalize (Z.to_nat
      (if (- lookback <? 0)%Z then Z.max (len candles + - lookback) 0
       else Z.min (- lookback) (len candles))).
    intros k Hc. rewrite <- (firstn_skipn k candles). apply in_or_app. auto. }
  apply In_patternsOf_cases in Hp.
  destruct Hp as [[Hd ->] | [[Hh ->] | [Hs ->]]].
  - unfold isDoji in Hd. apply andb_prop in Hd as [_ Hd].
    unfold range, parseFloat in Hd.
    destruct Hw as (_ & _ & Fh & Fl & _).
    destruct (high c) as [h | | |], (low c) as [l | | |]; simpl in *; try easy.
    apply gtb_Fin in Hd. apply gtb_Fin. lra.
  - pose proof (wick_pattern_body c Hw (or_introl Hh)) as Hne.
    unfold parseFloat.
    destruct Hw as (Fo & Fc & _).
    destruct (open_ c) as [o | | |], (close c) as [cl | | |]; simpl in *;
      try easy.
    destruct (Fin cl >? Fin o) eqn:E; [reflexivity |].
    revert Hne E. unfold_cmp. destruct (cl ?= o)%Q; easy.
  - apply (wick_pattern_body c Hw). auto.
Qed.

Lemma pattern_direction_witness :
  exists c,
    nth_error (slice (- 3) patternCandles) 0 = Some c
    /\ (close c >? open_ c) = true.
Proof.
  apply (pattern_direction patternCandles 3 (pattern HAMMER HIGH 0)).
  - repeat constructor.
  - vm_compute. auto 10.
Defined.

(* ================================================================== *)
(** * risk.js: position sizing *)
(* ================================================================== *)

Lemma div_Fin (a b : Q) : ~ (b == 0)%Q -> Fin a / Fin b = Fin (a / b).
Proof.
  intros H. cbn [div].
  assert (Qeq_bool b 0 = false) as ->; [| reflexivity].
  apply not_true_iff_false. rewrite Qeq_bool_iff. exact H.
Qed.

(** X6. When the entry and the stop coincide the risk per unit is 0 and
    nothing is thrown: the quantity returned is the quotient by zero,
    [Infinity] for a positive risk amount, [-Infinity] for a negative one
    and [NaN] for none, and neither it nor the position size is finite. *)
Theorem calculatePositionSize_zero_distance (balance percent entry stop : Q) :
  (entry == stop)%Q ->
  let r := calculatePositionSize (Fin balance) (Fin percent) (Fin entry)
             (Fin stop) in
  ps_quantity r = infinity (balance * percent / 100 ?= 0)%Q
  /\ ~ finite (ps_positionSize r)
  /\ ps_riskPerUnit r =n= Fin 0.
Proof.
  intros He r. subst r.
  unfold calculatePositionSize, parseFloat.
  cbn [ps_quantity ps_positionSize ps_riskPerUnit mul sub add opp Math_abs].
  rewrite (div_Fin _ 100) by (intros H; discriminate H).
  assert (Qabs (entry + - stop) == 0)%Q as Hz.
  { assert (entry + - stop == 0)%Q as -> by lra. reflexivity. }
  cbn [div]. rewrite (proj2 (Qeq_bool_iff _ _) Hz).
  split; [| split].
  - destruct (balance * percent / 100 ?= 0)%Q; reflexivity.
  - destruct (balance * percent / 100 ?= 0)%Q; cbn [infinity mul sign];
      try (intros []); destruct (entry ?= 0)%Q; intros [].
  - cbn [toFixed same]. rewrite (toFixedQ_comp _ 0 6 Hz). reflexivity.
Qed.

Lemma calculatePositionSize_zero_distance_witness :
  ps_quantity
    (calculatePositionSize (Fin 5000) (Fin 1) (Fin (1 # 2)) (Fin (1 # 2)))
  = PInf.
Proof.
  apply (calculatePositionSize_zero_distance 5000 1 (1 # 2) (1 # 2)).
  reflexivity.
Defined.

(* ================================================================== *)
(** * risk.js after strategy.js: the levels of a trade on market data *)
(* ================================================================== *)

Lemma fold_min_Fin (xs : list num) (m0 : Q) :
  Forall finite xs ->
  exists m,
    fold_left Math_min xs (Fin m0) = Fin m
    /\ (m <= m0)%Q
    /\ Forall (fun x => (Fin m <=? x) = true) xs
    /\ ((m == m0)%Q \/ Exists (fun x => x =n= Fin m) xs).
Proof.
  revert m0. induction xs as [| x xs IH]; intros m0 H; simpl.
  - exists m0. repeat split; auto; try lra; try (left; reflexivity).
  - inversion H as [| ? ? Hx Hxs]; subst.
    destruct x as [a | | |]; try contradiction.
    destruct (Math_min_Fin m0 a) as (m1 & -> & H1 & H2 & H3).
    destruct (IH m1 Hxs) as (m & E & Hle & Hall & Hex).
    exists m. rewrite E. split; [reflexivity |]. split; [lra |]. split.
    + constructor; [apply leb_Fin; lra | exact Hall].
    + destruct Hex as [Hex | Hex]; [| right; right; exact Hex].
      destruct H3 as [H3 | H3]; [left; lra |].
      right. left. simpl. lra.
Qed.

Lemma fold_max_Fin (xs : list num) (m0 : Q) :
  Forall finite xs ->
  exists m,
    fold_left Math_max xs (Fin m0) = Fin m
    /\ (m0 <= m)%Q
    /\ Forall (fun x => (x <=? Fin m) = true) xs
    /\ ((m == m0)%Q \/ Exists (fun x => x =n= Fin m) xs).
Proof.
  revert m0. induction xs as [| x xs IH]; intros m0 H; simpl.
  - exists m0. repeat split; auto; try lra; try (left; reflexivity).
  - inversion H as [| ? ? Hx Hxs]; subst.
    destruct x as [a | | |]; try contradiction.
    destruct (Math_max_Fin m0 a) as (m1 & -> & H1 & H2 & H3).
    destruct (IH m1 Hxs) as (m & E & Hle & Hall & Hex).
    exists m. rewrite E. split; [reflexivity |]. split; [lra |]. split.
    + constructor; [apply leb_Fin; lra | exact Hall].
    + destruct Hex as [Hex | Hex]; [| right; right; exact Hex].
      destruct H3 as [H3 | H3]; [left; lra |].
      right. left. simpl. lra.
Qed.

(** [Math.min(...xs)] of finite numbers, at least one: a lower bound that is
    one of them. *)
Lemma Math_min_list_Fin (xs : list num) :
  Forall finite xs -> xs <> [] ->
  exists m,
    Math_min_list xs = Fin m
    /\ Forall (fun x => (Fin m <=? x) = true) xs
    /\ Exists (fun x => x =n= Fin m) xs.
Proof.
  intros H Hne. destruct xs as [| x xs]; [contradiction |].
  inversion H as [| ? ? Hx Hxs]; subst.
  destruct x as [a | | |]; try contradiction.
  unfold Math_min_list. simpl fold_left.
  change (Math_min PInf (Fin a)) with (Fin a).
  destruct (fold_min_Fin xs a Hxs) as (m & E & Hle & Hall & Hex).
  exists m. split; [exact E |]. split.
  - constructor; [apply leb_Fin; lra | exact Hall].
  - destruct Hex as [Hex | Hex]; [left; simpl; lra | right; exact Hex].
Qed.

Lemma Math_max_list_Fin (xs : list num) :
  Forall finite xs -> xs <> [] ->
  exists m,
    Math_max_list xs = Fin m
    /\ Forall (fun x => (x <=? Fin m) = true) xs
    /\ Exists (fun x => x =n= Fin m) xs.
Proof.
  intros H Hne. destruct xs as [| x xs]; [contradiction |].
  inversion H as [| ? ? Hx Hxs]; subst.
  destruct x as [a | | |]; try contradiction.
  unfold Math_max_list. simpl fold_left.
  change (Math_max NInf (Fin a)) with (Fin a).
  destruct (fold_max_Fin xs a Hxs) as (m & E & Hle & Hall & Hex).
  exists m. split; [exact E |]. split.
  - constructor; [apply leb_Fin; lra | exact Hall].
  - destruct Hex as [Hex | Hex]; [left; simpl; lra | right; exact Hex].
Qed.

(** The latest candle is the last of the five the stop-loss is taken over. *)
Lemma latest_in_last5 (cs : list Candle) (c : Candle) :
  index cs (len cs - 1) = Some c -> In c (last5Candles cs).
Proof.
  unfold index, len, last5Candles, slice_last. intros H.
  destruct (Z.of_nat (List.length cs) - 1 <? 0)%Z eqn:E; [discriminate |].
  apply Z.ltb_ge in E.
  replace (Z.to_nat (Z.of_nat (List.length cs) - 1))
    with (List.length cs - 5 + (Nat.min 5 (List.length cs) - 1))%nat in H by lia.
  rewrite <- nth_error_skipn in H. apply nth_error_In in H. exact H.
Qed.

Section PipelineFacts.

Context {TI : TechnicalIndicators}.

Lemma analyzeMarket_Ok_price (clock : string) (cs : list Candle) (s : Signal) :
  analyzeMarket clock cs = Ok s ->
  exists c, index cs (len cs - 1) = Some c /\ currentPrice s = close c
            /\ latest (candles s) = c /\ analyzed (candles s) = List.length cs.
Proof.
  unfold analyzeMarket.
  destruct (List.length cs <? 21)%nat; [discriminate |].
  destruct (signalAndConfidence cs) as [sig conf].
  destruct (currentEMA9 cs) as [fast |]; [| discriminate].
  destruct (currentEMA21 cs) as [slow |]; [| discriminate].
  destruct (currentRSI cs) as [r |]; [| discriminate].
  destruct (index cs (len cs - 1)) as [latestCandle |]; [| discriminate].
  intros H; injection H as <-; simpl. exists latestCandle. auto.
Qed.

End PipelineFacts.

Lemma calculateDynamicRisk_succeeds
    (s : Signal) (cs : list Candle) (entryPrice : option num) (size : num) :
  (5 <= List.length cs)%nat ->
  (resolveEntry s entryPrice >? Fin 0) = true ->
  exists rp, calculateDynamicRisk s cs entryPrice size = Ok rp.
Proof.
  intros Hlen He. unfold calculateDynamicRisk.
  destruct (Nat.ltb_spec (List.length cs) 5) as [Hlt | _]; [lia |].
  rewrite entry_guard, He. cbn [negb].
  destruct (levels (signal s) (resolveEntry s entryPrice) cs)
    as [[[sd sl] tp] |]; eexists; reflexivity.
Qed.

Lemma marketCandle_prices (c : Candle) :
  marketCandle c ->
  exists o h l cl,
    open_ c = Fin o /\ high c = Fin h /\ low c = Fin l /\ close c = Fin cl
    /\ (0 < l)%Q /\ (l <= o)%Q /\ (l <= cl)%Q /\ (o <= h)%Q /\ (cl <= h)%Q.
Proof.
  intros [(Fo & Fc & Fh & Fl & H1 & H2 & H3 & H4) Hp].
  destruct (open_ c) as [o | | |], (close c) as [cl | | |],
    (high c) as [h | | |], (low c) as [l | | |];
    cbn [finite] in Fo, Fc, Fh, Fl; try tauto.
  apply leb_Fin in H1, H2, H3, H4. simpl in Hp.
  exists o, h, l, cl. repeat split; auto.
Qed.

(** The lowest low and the highest high of the last five market candles. *)
Lemma market_min_low (cs : list Candle) :
  Forall marketCandle (last5Candles cs) -> last5Candles cs <> [] ->
  exists m,
    Math_min_list (lows cs) = Fin m /\ (0 < m)%Q
    /\ Forall (fun c => (Fin m <=? low c) = true) (last5Candles cs).
Proof.
  intros H Hne. unfold lows, parseFloat.
  destruct (Math_min_list_Fin (map (fun c => low c) (last5Candles cs)))
    as (m & E & Hall & Hex).
  - apply Forall_map. revert H. apply Forall_impl. intros c Hc.
    destruct (marketCandle_prices c Hc) as (o & h & l & cl & _ & _ & -> & _).
    exact I.
  - destruct (last5Candles cs); [contradiction | discriminate].
  - exists m. split; [exact E |]. split.
    + apply Exists_map in Hex. apply Exists_exists in Hex as (c & Hin & Hc).
      pose proof (proj1 (Forall_forall _ _) H c Hin) as Hm.
      destruct (marketCandle_prices c Hm) as (o & h & l & cl & _ & _ & El & _ & Hl & _).
      rewrite El in Hc. simpl in Hc. lra.
    + apply Forall_map in Hall. exact Hall.
Qed.

Lemma market_max_high (cs : list Candle) :
  Forall marketCandle (last5Candles cs) -> last5Candles cs <> [] ->
  exists m,
    Math_max_list (highs cs) = Fin m /\ (0 < m)%Q
    /\ Forall (fun c => (high c <=? Fin m) = true) (last5Candles cs).
Proof.
  intros H Hne. unfold highs, parseFloat.
  destruct (Math_max_list_Fin (map (fun c => high c) (last5Candles cs)))
    as (m & E & Hall & Hex).
  - apply Forall_map. revert H. apply Forall_impl. intros c Hc.
    destruct (marketCandle_prices c Hc) as (o & h & l & cl & _ & -> & _).
    exact I.
  - destruct (last5Candles cs); [contradiction | discriminate].
  - exists m. split; [exact E |]. split.
    + apply Exists_map in Hex. apply Exists_exists in Hex as (c & Hin & Hc).
      pose proof (proj1 (Forall_forall _ _) H c Hin) as Hm.
      destruct (marketCandle_prices c Hm)
        as (o & h & l & cl & _ & Eh & _ & _ & Hl & Hlo & _ & Hoh & _).
      rewrite Eh in Hc. simpl in Hc. lra.
    + apply Forall_map in Hall. exact Hall.
Qed.

(** The levels of a trade entered at the close of the latest of five market
    candles: the risk distance is positive on either side. *)
Lemma market_risk_distance (cs : list Candle) (c : Candle) :
  Forall marketCandle (last5Candles cs) -> In c (last5Candles cs) ->
  exists e minLow maxHigh,
    close c = Fin e /\ (0 < e)%Q
    /\ Math_min_list (lows cs) = Fin minLow
    /\ Math_max_list (highs cs) = Fin maxHigh
    /\ (0 < minLow)%Q /\ (minLow <= e)%Q /\ (e <= maxHigh)%Q.
Proof.
  intros H Hin.
  assert (last5Candles cs <> []) as Hne by (intros E; rewrite E in Hin; easy).
  destruct (market_min_low cs H Hne) as (m & Em & Hm & Hlow).
  destruct (market_max_high cs H Hne) as (M & EM & HM & Hhigh).
  pose proof (proj1 (Forall_forall _ _) H c Hin) as Hc.
  pose proof (proj1 (Forall_forall _ _) Hlow c Hin) as Hl.
  pose proof (proj1 (Forall_forall _ _) Hhigh c Hin) as Hh.
  destruct (marketCandle_prices c Hc)
    as (o & h & l & cl & _ & Eh & El & Ec & Hl0 & _ & Hlc & _ & Hch).
  cbv beta in Hl, Hh. rewrite El in Hl. rewrite Eh in Hh.
  apply leb_Fin in Hl, Hh.
  exists cl, m, M. repeat split; auto; lra.
Qed.

(** The levels of a trade entered between the lowest low and the highest
    high, both positive: the stop-loss is on the losing side of the entry and
    the take-profit on the winning side. *)
Lemma market_levels (k : SignalKind) (e m M : Q) (cs : list Candle) :
  Math_min_list (lows cs) = Fin m -> Math_max_list (highs cs) = Fin M ->
  (0 < m)%Q -> (m <= e)%Q -> (e <= M)%Q -> k <> HOLD ->
  exists b tp,
    levels k (Fin e) cs
    = Some (match k with BUY => LONG | _ => SHORT end, Fin b, Fin tp)
    /\ match k with
       | BUY => (b <= e)%Q /\ (e <= tp)%Q
       | _ => (tp <= e)%Q /\ (e <= b)%Q
       end.
Proof.
  intros Em EM Hm Hme HeM Hk.
  destruct k; try contradiction; cbn [levels]; rewrite ?Em, ?EM;
    cbn [sub add opp mul bufferPercent]; do 2 eexists;
    (split; [reflexivity |]); split; lra.
Qed.

Section PipelineLevels.

Context {TI : TechnicalIndicators}.

(** On market candles the signal of [analyzeMarket] is accepted by
    [calculateDynamicRisk]: its entry, the latest close, lies between the
    lowest low and the highest high of the last five candles. *)
Lemma market_entry
    (clock : string) (cs : list Candle) (s : Signal) (size : num) :
  analyzeMarket clock cs = Ok s ->
  Forall marketCandle (last5Candles cs) ->
  exists rp e m M,
    calculateDynamicRisk s cs None size = Ok rp
    /\ resolveEntry s None = Fin e
    /\ Math_min_list (lows cs) = Fin m /\ Math_max_list (highs cs) = Fin M
    /\ (0 < m)%Q /\ (m <= e)%Q /\ (e <= M)%Q.
Proof.
  intros Hok Hm.
  destruct (analyzeMarket_Ok_inv clock cs s Hok) as (Hlen & _).
  destruct (analyzeMarket_Ok_price clock cs s Hok) as (c & Hc & Hprice & _).
  pose proof (latest_in_last5 cs c Hc) as Hin.
  destruct (market_risk_distance cs c Hm Hin)
    as (e & m & M & Ec & He & Em & EM & Hm0 & Hme & HeM).
  assert (resolveEntry s None = Fin e) as Hentry
    by (cbn [resolveEntry]; rewrite Hprice; exact Ec).
  destruct (calculateDynamicRisk_succeeds s cs None size) as [rp Hrp].
  { lia. }
  { rewrite Hentry. apply gtb_Fin. exact He. }
  exists rp, e, m, M. auto 10.
Qed.

(** X7. On at least 21 candles whose last five are market candles (finite
    positive prices, low <= open, close <= high), the signal [analyzeMarket]
    returns always gets its risk parameters: [calculateDynamicRisk] with the
    default entry (the latest close) throws nothing, and for a BUY it returns
    a LONG with stopLoss <= entry <= takeProfit, for a SELL a SHORT with
    takeProfit <= entry <= stopLoss, whatever the position size; for a HOLD
    it returns no side and no levels. *)
Theorem pipeline_trade_levels
    (clock : string) (cs : list Candle) (s : Signal) (size : num) :
  analyzeMarket clock cs = Ok s ->
  Forall marketCandle (last5Candles cs) ->
  exists rp,
    calculateDynamicRisk s cs None size = Ok rp
    /\ match signal s with
       | BUY =>
           exists sl tp,
             side rp = Some LONG /\ stopLoss rp = Some sl
             /\ takeProfit rp = Some tp
             /\ (sl <=? entry rp) = true /\ (entry rp <=? tp) = true
       | SELL =>
           exists sl tp,
             side rp = Some SHORT /\ stopLoss rp = Some sl
             /\ takeProfit rp = Some tp
             /\ (tp <=? entry rp) = true /\ (entry rp <=? sl) = true
       | HOLD => side rp = None /\ stopLoss rp = None /\ takeProfit rp = None
       end.
Proof.
  intros Hok Hm.
  destruct (market_entry clock cs s size Hok Hm)
    as (rp & e & m & M & Hrp & Hentry & Em & EM & Hm0 & Hme & HeM).
  exists rp. split; [exact Hrp |].
  destruct (signal s) eqn:Ek.
  - destruct (market_levels BUY e m M cs Em EM Hm0 Hme HeM)
      as (b & tp & L & Hb & Htp); [discriminate |].
    rewrite <- Ek in L at 1. rewrite <- Hentry in L.
    destruct (calculateDynamicRisk_trade s cs None size rp _ _ _ Hrp L)
      as (Hsd & Hen & Hsl & Htpr & _).
    rewrite Hentry in Hen.
    do 2 eexists. repeat split; try eassumption.
    + rewrite Hen. apply toFixed_leb, leb_Fin. exact Hb.
    + rewrite Hen. apply toFixed_leb, leb_Fin. exact Htp.
  - destruct (market_levels SELL e m M cs Em EM Hm0 Hme HeM)
      as (b & tp & L & Htp & Hb); [discriminate |].
    rewrite <- Ek in L at 1. rewrite <- Hentry in L.
    destruct (calculateDynamicRisk_trade s cs None size rp _ _ _ Hrp L)
      as (Hsd & Hen & Hsl & Htpr & _).
    rewrite Hentry in Hen.
    do 2 eexists. repeat split; try eassumption.
    + rewrite Hen. apply toFixed_leb, leb_Fin. exact Htp.
    + rewrite Hen. apply toFixed_leb, leb_Fin. exact Hb.
  - revert Hrp. unfold calculateDynamicRisk.
    destruct (List.length cs <? 5)%nat; [discriminate |].
    destruct (negb _ || _); [discriminate |].
    rewrite Ek. cbn [levels]. intros H; injection H as <-. cbn. auto.
Qed.

End PipelineLevels.

Lemma rising_market : Forall marketCandle (last5Candles rising).
Proof.
  repeat constructor.
Qed.

Lemma pipeline_trade_levels_witness :
  exists s rp sl tp,
    analyzeMarket (TI := SpecIndicators.spec_indicators) "" rising = Ok s
    /\ calculateDynamicRisk s rising None (Fin 100) = Ok rp
    /\ side rp = Some LONG
    /\ stopLoss rp = Some sl /\ takeProfit rp = Some tp
    /\ (sl <=? entry rp) = true /\ (entry rp <=? tp) = true.
Proof.
  destruct (analyzeMarket (TI := SpecIndicators.spec_indicators) "" rising)
    as [s | e] eqn:E; [| vm_compute in E; discriminate E].
  destruct (pipeline_trade_levels (TI := SpecIndicators.spec_indicators)
              "" rising s (Fin 100) E rising_market) as (rp & Hrp & Hm).
  assert (signal s = BUY) as Hs
    by (vm_compute in E; injection E as <-; reflexivity).
  rewrite Hs in Hm. destruct Hm as (sl & tp & Hm).
  exists s, rp, sl, tp. split; [reflexivity |]. split; [exact Hrp | exact Hm].
Defined.

(* ================================================================== *)
(** * risk.js: validating a trade whose stop-loss is on its entry *)
(* ================================================================== *)

(** Everything a successful trade call returns besides the levels. *)
Lemma calculateDynamicRisk_amounts
    (s : Signal) (cs : list Candle) (entryPrice : option num) (size : num)
    (rp : RiskParameters) (sd : Side) (sl tp : num) :
  calculateDynamicRisk s cs entryPrice size = Ok rp ->
  levels (signal s) (resolveEntry s entryPrice) cs = Some (sd, sl, tp) ->
  let e := resolveEntry s entryPrice in
  (e >? Fin 0) = true
  /\ riskAmount rp = toFixed (Math_abs (e - sl) * (size / e)) 2
  /\ potentialProfit rp = toFixed (Math_abs (tp - e) * (size / e)) 2
  /\ stopLossPercent rp
     = Some (toFixed (Math_abs (e - sl) / e * Fin 100) 2)
  /\ takeProfitPercent rp
     = Some (toFixed (Math_abs (tp - e) / e * Fin 100) 2).
Proof.
  unfold calculateDynamicRisk.
  destruct (List.length cs <? 5)%nat; [discriminate |].
  rewrite entry_guard.
  destruct (resolveEntry s entryPrice >? Fin 0) eqn:Eg; [| discriminate].
  cbn [negb]. intros H L. rewrite L in H. injection H as <-.
  cbn. repeat split; reflexivity.
Qed.

Lemma zero_or_NaN_mul (r : Q) (y : num) :
  (r == 0)%Q -> Fin r * y =n= Fin 0 \/ Fin r * y = NaN.
Proof.
  intros Hr. destruct y as [q | | |]; cbn [mul sign sign_mul].
  - left. cbn [same]. rewrite Hr. ring.
  - right. apply Qeq_alt in Hr. rewrite Hr. reflexivity.
  - right. apply Qeq_alt in Hr. rewrite Hr. reflexivity.
  - right. reflexivity.
Qed.

Lemma zero_or_NaN_toFixed (x : num) :
  x =n= Fin 0 \/ x = NaN -> toFixed x 2 =n= Fin 0 \/ toFixed x 2 = NaN.
Proof.
  intros [H | ->]; [left | right; reflexivity].
  apply (same_trans _ (toFixed (Fin 0) 2)); [apply toFixed_same, H |].
  vm_compute. reflexivity.
Qed.

Lemma zero_or_NaN_percent (x : num) (c : Q) :
  ~ (c == 0)%Q -> x =n= Fin 0 \/ x = NaN ->
  x / Fin c * Fin 100 =n= Fin 0 \/ x / Fin c * Fin 100 = NaN.
Proof.
  intros Hc [H | ->]; [left | right; reflexivity].
  destruct x as [a | | |]; try contradiction. cbn [same] in H.
  rewrite (div_Fin a c Hc). cbn [mul same]. rewrite H. field. exact Hc.
Qed.

Lemma zero_or_NaN_not_above (x m : num) :
  x =n= Fin 0 \/ x = NaN -> (Fin 0 <=? m) = true -> (x >? m) = false.
Proof.
  intros [H | ->] Hm; [| reflexivity].
  destruct x as [a | | |]; try contradiction. cbn [same] in H.
  destruct m as [b | | |]; try discriminate; [| reflexivity].
  apply leb_Fin in Hm. apply not_true_iff_false. rewrite gtb_Fin. lra.
Qed.

(** X8. A trade whose stop-loss falls on its finite entry is not rejected:
    [calculateDynamicRisk] returns it with a riskRewardRatio that is NaN
    and a stopLossPercent of 0, and [validateRiskParameters] finds it valid,
    with the single reason that all is within limits, whatever minimum
    ratio is asked for, as long as the two maxima are not negative. *)
Theorem zero_distance_trade_valid
    (s : Signal) (cs : list Candle) (entryPrice : option num) (size : num)
    (rp : RiskParameters) (sd : Side) (sl tp : num) (limits : Limits) :
  calculateDynamicRisk s cs entryPrice size = Ok rp ->
  levels (signal s) (resolveEntry s entryPrice) cs = Some (sd, sl, tp) ->
  finite (resolveEntry s entryPrice) ->
  resolveEntry s entryPrice =n= sl ->
  (Fin 0 <=? withDefault (Fin 5) (maxStopLossPercent limits)) = true ->
  (Fin 0 <=? withDefault (Fin 2) (maxRiskPercent limits)) = true ->
  riskRewardRatio rp = NaN
  /\ ToNumber (stopLossPercent rp) =n= Fin 0
  /\ valid (validateRiskParameters rp limits) = true
  /\ reasons (validateRiskParameters rp limits) = [AllWithinLimits].
Proof.
  intros Hok L Hfin Heq HmaxSL HmaxRisk.
  destruct (calculateDynamicRisk_trade _ _ _ _ _ _ _ _ Hok L)
    as (_ & _ & _ & _ & Hrr).
  destruct (calculateDynamicRisk_amounts _ _ _ _ _ _ _ _ Hok L)
    as (Hpos & Hra & _ & Hslp & _).
  rewrite (zero_distance_quotient _ _ _ (levels_take_profit _ _ _ _ _ _ L) Heq)
    in Hrr.
  cbn [toFixed] in Hrr.
  destruct (resolveEntry s entryPrice) as [a | | |]; try contradiction.
  destruct sl as [b | | |]; try contradiction. cbn [same] in Heq.
  apply gtb_Fin in Hpos.
  assert (Qabs (a + - b) == 0)%Q as Hzero.
  { assert (a + - b == 0)%Q as -> by lra. reflexivity. }
  cbn [sub add opp Math_abs] in Hra, Hslp.
  assert (riskAmount rp =n= Fin 0 \/ riskAmount rp = NaN) as Hrisk.
  { rewrite Hra. apply zero_or_NaN_toFixed, zero_or_NaN_mul, Hzero. }
  assert (ToNumber (stopLossPercent rp) =n= Fin 0) as Hpercent.
  { rewrite Hslp. cbn [ToNumber].
    rewrite (div_Fin _ a) by (intros E; lra). cbn [mul toFixed same].
    rewrite (toFixedQ_comp _ 0 2); [reflexivity |].
    rewrite Hzero. field. intros E; lra. }
  split; [exact Hrr |]. split; [exact Hpercent |].
  unfold validateRiskParameters, accountSize. cbv zeta. rewrite Hrr.
  change (NaN <? withDefault (Fin (15 # 10)) (minRRRatio limits)) with false.
  rewrite (zero_or_NaN_not_above _ _ (or_introl Hpercent) HmaxSL).
  rewrite (zero_or_NaN_not_above _ _
             (zero_or_NaN_percent _ 5000 ltac:(intros E; discriminate E) Hrisk)
             HmaxRisk).
  split; reflexivity.
Qed.

Lemma zero_distance_trade_valid_witness :
  exists rp,
    calculateDynamicRisk (signalOf BUY (Fin (20001 # 100)))
      (flat 5 (20001 # 100)) (Some (Fin 199)) (Fin 100) = Ok rp
    /\ riskRewardRatio rp = NaN
    /\ valid (validateRiskParameters rp noLimits) = true.
Proof.
  destruct (calculateDynamicRisk (signalOf BUY (Fin (20001 # 100)))
              (flat 5 (20001 # 100)) (Some (Fin 199)) (Fin 100))
    as [rp | e] eqn:E; [| vm_compute in E; discriminate E].
  destruct (zero_distance_trade_valid _ _ _ _ rp LONG _ _ noLimits E eq_refl)
    as (Hr & _ & Hv & _).
  - exact I.
  - vm_compute. reflexivity.
  - reflexivity.
  - reflexivity.
  - exists rp. auto.
Defined.

(* ================================================================== *)
(** * rateLimiter.js: refilling over time *)
(* ================================================================== *)

(** Refilling a second time at the same clock reading adds nothing. *)
Lemma refill_same_instant (cap v : num) (x r : Q) :
  (x == 0)%Q ->
  Math_min cap (Math_min cap v + Fin (x * r)) =n= Math_min cap v.
Proof.
  intros Hx.
  assert (forall q : Q, (q + x * r == q)%Q) as Hq
    by (intros q; rewrite Hx; ring).
  destruct cap as [c | | |], v as [q | | |];
    unfold Math_min, cmp; cbn [add same]; try exact I;
    repeat (qsplit; cbn [add same]); qprop;
    try exact I; try apply Hq; try reflexivity;
    pose proof (Hq c); pose proof (Hq q); qlra.
Qed.

Lemma refillTokens_again (now : Z) (s : t) :
  finite (refillRate s) ->
  tokens (refillTokens now (refillTokens now s))
  =n= tokens (refillTokens now s).
Proof.
  intros Hr. unfold refillTokens at 1. cbv zeta.
  cbn [tokens]. rewrite elapsedSeconds_value.
  replace (lastRefill (refillTokens now s)) with now by reflexivity.
  replace (maxTokens (refillTokens now s)) with (maxTokens s) by reflexivity.
  replace (refillRate (refillTokens now s)) with (refillRate s) by reflexivity.
  destruct (refillRate s) as [r | | |]; try contradiction.
  cbn [mul]. unfold refillTokens. cbv zeta. cbn [tokens].
  apply refill_same_instant.
  rewrite Z.sub_diag. reflexivity.
Qed.

(** X11. [getAvailableTokens] reports the floor of the refilled tokens and
    takes none: with a finite refill rate, a [tryConsume] that follows at
    the same clock reading gives the verdict, and leaves the tokens, it
    would have given without the reading in between. *)
Theorem getAvailableTokens_transparent (now : Z) (cost : num) (s : t) :
  finite (refillRate s) ->
  fst (getAvailableTokens now s) = Math_floor (tokens (refillTokens now s))
  /\ fst (tryConsume now cost (snd (getAvailableTokens now s)))
     = fst (tryConsume now cost s)
  /\ tokens (snd (tryConsume now cost (snd (getAvailableTokens now s))))
     =n= tokens (snd (tryConsume now cost s))
  /\ lastRefill (snd (tryConsume now cost (snd (getAvailableTokens now s))))
     = lastRefill (snd (tryConsume now cost s)).
Proof.
  intros Hr. split; [reflexivity |].
  pose proof (refillTokens_again now s Hr) as Hsame.
  unfold getAvailableTokens. cbv zeta. cbn [snd].
  unfold tryConsume. cbv zeta.
  assert ((tokens (refillTokens now (refillTokens now s)) >=? cost)
          = (tokens (refillTokens now s) >=? cost)) as ->.
  { unfold geb. rewrite (cmp_same _ _ cost cost Hsame (same_refl cost)).
    reflexivity. }
  destruct (tokens (refillTokens now s) >=? cost);
    cbn [fst snd tokens setTokens];
    (split; [reflexivity |]); (split; [| reflexivity]); [| exact Hsame].
  revert Hsame.
  generalize (tokens (refillTokens now (refillTokens now s))) as x.
  generalize (tokens (refillTokens now s)) as y.
  intros y x H. destruct x as [a | | |], y as [b | | |], cost as [c | | |];
    cbn [same sub add opp] in *; try easy. now rewrite H.
Qed.

Lemma getAvailableTokens_transparent_witness :
  fst (tryConsume 300 (Fin 2) (snd (getAvailableTokens 300 limiter55)))
  = fst (tryConsume 300 (Fin 2) limiter55).
Proof.
  apply (getAvailableTokens_transparent 300 (Fin 2) limiter55).
  exact I.
Defined.

Lemma elapsed_mono (t1 t2 last : Z) :
  (t1 <= t2)%Z ->
  (inject_Z (t1 - last) / 1000 <= inject_Z (t2 - last) / 1000)%Q.
Proof.
  intros H.
  assert (inject_Z (t1 - last) <= inject_Z (t2 - last))%Q as Hz
    by (rewrite <- Zle_Qle; lia).
  apply Qle_shift_div_l; [lra |].
  assert (inject_Z (t1 - last) / 1000 * 1000 == inject_Z (t1 - last))%Q as ->
    by (field).
  exact Hz.
Qed.

(** X12. Waiting longer never yields fewer tokens: on a well-formed bucket
    the refilled count does not decrease with the clock reading, and read on
    a clock that has not gone back it is at least the count before. *)
Theorem refillTokens_monotone (t1 t2 : Z) (s : t) :
  wellFormed s ->
  (t1 <= t2)%Z ->
  (tokens (refillTokens t1 s) <=? tokens (refillTokens t2 s)) = true
  /\ ((lastRefill s <= t1)%Z ->
      (tokens s <=? tokens (refillTokens t1 s)) = true).
Proof.
  intros (Hcap & Htok & Hrate & Hr0 & Ht0 & Htc) Hclock.
  unfold refillTokens; cbn [tokens]. rewrite !elapsedSeconds_value.
  destruct (maxTokens s) as [cap | | |]; try contradiction.
  destruct (tokens s) as [tok | | |]; try contradiction.
  destruct (refillRate s) as [rate | | |]; try contradiction.
  apply leb_Fin in Hr0, Ht0, Htc.
  pose proof (elapsed_mono t1 t2 (lastRefill s) Hclock) as Hel.
  assert (inject_Z (t1 - lastRefill s) / 1000 * rate
          <= inject_Z (t2 - lastRefill s) / 1000 * rate)%Q as Hadd
    by (apply Qmult_le_compat_r; assumption).
  cbn [mul add].
  destruct (Math_min_Fin cap (tok + inject_Z (t1 - lastRefill s) / 1000 * rate))
    as (m1 & -> & H1a & H1b & H1c).
  destruct (Math_min_Fin cap (tok + inject_Z (t2 - lastRefill s) / 1000 * rate))
    as (m2 & -> & H2a & H2b & H2c).
  split.
  - apply leb_Fin. destruct H2c; lra.
  - intros Hback. apply leb_Fin.
    pose proof (elapsed_nonneg t1 (lastRefill s) Hback) as Hpos.
    assert (0 <= inject_Z (t1 - lastRefill s) / 1000 * rate)%Q
      by (apply Qmult_le_0_compat; assumption).
    destruct H1c; lra.
Qed.

Lemma refillTokens_monotone_witness :
  (tokens (refillTokens 100 (snd (tryConsume 0 (Fin 5) limiter55)))
   <=? tokens (refillTokens 300 (snd (tryConsume 0 (Fin 5) limiter55)))) = true.
Proof.
  destruct (refillTokens_monotone 100 300
              (snd (tryConsume 0 (Fin 5) limiter55))) as [H _].
  - unfold wellFormed. repeat split.
  - lia.
  - exact H.
Defined.

Lemma inject_Z_sub_split (a b c : Z) :
  (inject_Z (c - a) == inject_Z (b - a) + inject_Z (c - b))%Q.
Proof. rewrite <- inject_Z_plus. f_equal. apply inject_Z_injective. lia. Qed.

(* ================================================================== *)
(** * rateLimiter.js: the delay-based limiter *)
(* ================================================================== *)

(** X14. [DelayRateLimiter.wait] spaces the requests: when [minDelay] is a
    number, the clock does not go back and a timer fires no earlier than
    asked, the time stored in [lastRequest] at the end of a [wait] is at
    least [minDelay] milliseconds after the one stored by the previous
    [wait]. *)
Theorem delay_wait_spacing (now resumed : Z) (s : DelayRateLimiter.t) :
  isNaN (DelayRateLimiter.minDelay s) = false ->
  (now <= resumed)%Z ->
  (forall waitTime,
     fst (DelayRateLimiter.wait now resumed s) = Some waitTime ->
     (waitTime <=? Fin (inject_Z (resumed - now))) = true) ->
  (DelayRateLimiter.minDelay s
   <=? Fin (inject_Z
              (DelayRateLimiter.lastRequest
                 (snd (DelayRateLimiter.wait now resumed s))
               - DelayRateLimiter.lastRequest s))) = true.
Proof.
  unfold DelayRateLimiter.wait. cbv zeta.
  cbn [fst snd DelayRateLimiter.lastRequest].
  intros Hnum Hclock Htimer.
  assert (inject_Z (resumed - DelayRateLimiter.lastRequest s)
          == inject_Z (now - DelayRateLimiter.lastRequest s)
             + inject_Z (resumed - now))%Q as Esum
    by apply inject_Z_sub_split.
  assert (0 <= inject_Z (resumed - now))%Q as Hpos.
  { change 0%Q with (inject_Z 0). rewrite <- Zle_Qle. lia. }
  destruct (DelayRateLimiter.minDelay s) as [m | | |]; try discriminate.
  - destruct (Fin (inject_Z (now - DelayRateLimiter.lastRequest s)) <? Fin m)
      eqn:E.
    + specialize (Htimer _ eq_refl). cbn [sub add opp] in Htimer.
      apply leb_Fin in Htimer. apply leb_Fin. lra.
    + apply not_true_iff_false in E. rewrite ltb_Fin in E.
      apply leb_Fin. lra.
  - specialize (Htimer _ eq_refl). discriminate Htimer.
  - reflexivity.
Qed.

Lemma delay_wait_spacing_witness :
  (DelayRateLimiter.minDelay (DelayRateLimiter.constructor (Fin 10))
   <=? Fin (inject_Z
              (DelayRateLimiter.lastRequest
                 (snd (DelayRateLimiter.wait 40 100
                         (DelayRateLimiter.constructor (Fin 10))))
               - DelayRateLimiter.lastRequest
                   (DelayRateLimiter.constructor (Fin 10))))) = true.
Proof.
  apply (delay_wait_spacing 40 100 (DelayRateLimiter.constructor (Fin 10))).
  - reflexivity.
  - lia.
  - intros w Hw. vm_compute in Hw. injection Hw as <-. reflexivity.
Defined.

(* ================================================================== *)
(** * rateLimiter.js: the weighted limiter of the exchange *)
(* ================================================================== *)

(** A bucket just built is full: read on a clock that has not gone back,
    it serves at once any cost within its capacity. *)
Lemma fresh_tryConsume (built now : Z) (cap rate w : Q) :
  (built <= now)%Z -> (0 <= rate)%Q -> (w <= cap)%Q ->
  fst (tryConsume now (Fin w) (constructor built (Fin cap) (Fin rate))) = true
  /\ tokens (snd (tryConsume now (Fin w) (constructor built (Fin cap) (Fin rate))))
     = Fin cap - Fin w.
Proof.
  intros Hclock Hrate Hw.
  pose proof (elapsed_nonneg now built Hclock) as Hel.
  assert (0 <= inject_Z (now - built) / 1000 * rate)%Q as Hadd
    by (apply Qmult_le_0_compat; assumption).
  unfold tryConsume. cbv zeta. unfold refillTokens. cbv zeta.
  rewrite elapsedSeconds_value.
  cbn [constructor maxTokens tokens refillRate lastRefill mul add].
  assert (Math_min (Fin cap) (Fin (cap + inject_Z (now - built) / 1000 * rate))
          = Fin cap) as ->.
  { unfold Math_min, cmp.
    destruct (cap ?= cap + inject_Z (now - built) / 1000 * rate)%Q eqn:E;
      qprop; [reflexivity | reflexivity | lra]. }
  assert ((Fin cap >=? Fin w) = true) as -> by (apply geb_Fin; lra).
  split; reflexivity.
Qed.

Lemma waitForToken_at_once (now : Z) (later : list Z) (cost : num) (s : t) :
  fst (tryConsume now cost s) = true ->
  waitForToken (now :: later) cost s = (true, [], snd (tryConsume now cost s)).
Proof.
  intros H. cbn [waitForToken]. rewrite attempt_outcome, H. reflexivity.
Qed.

Lemma tryConsume_NaN (now : Z) (s : t) : fst (tryConsume now NaN s) = false.
Proof.
  unfold tryConsume. cbv zeta.
  destruct (tokens (refillTokens now s)); reflexivity.
Qed.

Lemma waitForToken_NaN (clock : list Z) :
  forall s, fst (fst (waitForToken clock NaN s)) = false.
Proof.
  induction clock as [| now later IH]; intros s; [reflexivity |].
  cbn [waitForToken]. rewrite attempt_outcome, tryConsume_NaN.
  specialize (IH (snd (tryConsume now NaN s))).
  destruct (waitForToken later NaN (snd (tryConsume now NaN s))) as [[r ds] s'].
  exact IH.
Qed.

Lemma weightOf_cases (endpoint : string) :
  (In endpoint MEXCRateLimiter.inheritedKeys
   /\ MEXCRateLimiter.weightOf endpoint = NaN)
  \/ (~ In endpoint MEXCRateLimiter.inheritedKeys
      /\ MEXCRateLimiter.weightOf endpoint
         = if String.eqb endpoint "account" then Fin 10 else Fin 1).
Proof.
  unfold MEXCRateLimiter.weightOf.
  destruct (existsb (String.eqb endpoint) MEXCRateLimiter.inheritedKeys) eqn:Ei.
  - left. apply existsb_exists in Ei as (k & Hk & Ek).
    apply String.eqb_eq in Ek. subst k. split; [exact Hk |].
    cbn in Hk. repeat (destruct Hk as [<- | Hk]; [reflexivity |]).
    contradiction.
  - right. split.
    + intros Hin. apply not_true_iff_false in Ei. apply Ei.
      apply existsb_exists. exists endpoint. split; [exact Hin |].
      apply String.eqb_refl.
    + cbn [MEXCRateLimiter.lookup MEXCRateLimiter.weights].
      destruct (String.eqb endpoint "account") eqn:Ea.
      * apply String.eqb_eq in Ea. subst endpoint. reflexivity.
      * repeat match goal with
        | |- context [String.eqb ?k endpoint] =>
            let E := fresh "E" in
            destruct (String.eqb k endpoint) eqn:E;
              [apply String.eqb_eq in E; subst endpoint;
               first [reflexivity | vm_compute in Ea; discriminate Ea] |]
        end.
        reflexivity.
Qed.

(** X21. [MEXCRateLimiter.wait] takes the weight of the endpoint from both
    buckets.  For every name that is not inherited from [Object.prototype]
    the weight is 10 for ['account'] and 1 otherwise, and on a limiter just
    built, read on clocks that have not gone back, the first attempt of both
    waits succeeds: the promise is resolved and the buckets are left with
    60 - weight and 100 - weight tokens.  For an inherited name
    (['constructor'], ['toString'], ...) the weight is not a number, every
    attempt fails, and the promise is never resolved, whatever the buckets
    and the clocks. *)
Theorem mexc_wait_weight
    (endpoint : string) (builtIp builtUid ip1 uid1 : Z)
    (ipLater uidLater : list Z) :
  (builtIp <= ip1)%Z ->
  (builtUid <= uid1)%Z ->
  (~ In endpoint MEXCRateLimiter.inheritedKeys ->
   MEXCRateLimiter.weightOf endpoint
   = (if String.eqb endpoint "account" then Fin 10 else Fin 1)
   /\ exists s',
        MEXCRateLimiter.wait endpoint (ip1 :: ipLater) (uid1 :: uidLater)
          (MEXCRateLimiter.constructor builtIp builtUid) = (true, s')
        /\ tokens (MEXCRateLimiter.ipLimiter s')
           = Fin 60 - MEXCRateLimiter.weightOf endpoint
        /\ tokens (MEXCRateLimiter.uidLimiter s')
           = Fin 100 - MEXCRateLimiter.weightOf endpoint)
  /\ (In endpoint MEXCRateLimiter.inheritedKeys ->
      MEXCRateLimiter.weightOf endpoint = NaN
      /\ forall ipClock uidClock s,
           fst (MEXCRateLimiter.wait endpoint ipClock uidClock s) = false).
Proof.
  intros Hip Huid. split.
  - intros Hown.
    destruct (weightOf_cases endpoint) as [[Hin _] | [_ Ew]]; [contradiction |].
    split; [exact Ew |].
    assert (exists w, MEXCRateLimiter.weightOf endpoint = Fin w
                      /\ (w <= 60)%Q /\ (w <= 100)%Q) as (w & Hw & H60 & H100).
    { rewrite Ew. destruct (String.eqb endpoint "account");
        eexists; (split; [reflexivity |]); split; lra. }
    unfold MEXCRateLimiter.wait. cbv zeta. rewrite Hw.
    cbn [MEXCRateLimiter.constructor MEXCRateLimiter.ipLimiter
         MEXCRateLimiter.uidLimiter].
    destruct (fresh_tryConsume builtIp ip1 60 15 w Hip ltac:(lra) H60)
      as [Hi1 Hi2].
    destruct (fresh_tryConsume builtUid uid1 100 20 w Huid ltac:(lra) H100)
      as [Hu1 Hu2].
    rewrite (waitForToken_at_once ip1 ipLater _ _ Hi1).
    rewrite (waitForToken_at_once uid1 uidLater _ _ Hu1).
    eexists. split; [reflexivity |].
    cbn [MEXCRateLimiter.ipLimiter MEXCRateLimiter.uidLimiter].
    split; assumption.
  - intros Hin.
    destruct (weightOf_cases endpoint) as [[_ Ew] | [Hown _]]; [| contradiction].
    split; [exact Ew |]. intros ipClock uidClock s.
    unfold MEXCRateLimiter.wait. cbv zeta. rewrite Ew.
    pose proof (waitForToken_NaN ipClock (MEXCRateLimiter.ipLimiter s)) as H1.
    destruct (waitForToken ipClock NaN _) as [[r1 d1] s1].
    destruct (waitForToken uidClock NaN _) as [[r2 d2] s2].
    cbn [fst] in *. rewrite H1. reflexivity.
Qed.

Lemma mexc_wait_weight_witness :
  exists s',
    MEXCRateLimiter.wait "account" [5]%Z [5]%Z (MEXCRateLimiter.constructor 0 0)
    = (true, s')
    /\ tokens (MEXCRateLimiter.ipLimiter s') =n= Fin 50
    /\ tokens (MEXCRateLimiter.uidLimiter s') =n= Fin 90.
Proof.
  destruct (mexc_wait_weight "account" 0 0 5 5 [] []) as [Hown _]; [lia | lia |].
  destruct Hown as (_ & s' & Hw & Hi & Hu).
  - cbn. intuition discriminate.
  - exists s'. split; [exact Hw |]. rewrite Hi, Hu.
    split; vm_compute; reflexivity.
Defined.

(* ================================================================== *)
(** * n8n-entry.js: what the entry point reports *)
(* ================================================================== *)

Lemma calculateDynamicRisk_Err
    (s : Signal) (cs : list Candle) (entryPrice : option num) (size : num)
    (e : error) :
  calculateDynamicRisk s cs entryPrice size = Err e ->
  ((List.length cs < 5)%nat /\ e = InsufficientDataError)
  \/ ((5 <= List.length cs)%nat /\ e = InvalidEntryError
      /\ (resolveEntry s entryPrice >? Fin 0) = false).
Proof.
  unfold calculateDynamicRisk.
  destruct (Nat.ltb_spec (List.length cs) 5) as [Hlt | Hge].
  - intros H; injection H as <-. auto.
  - rewrite entry_guard.
    destruct (resolveEntry s entryPrice >? Fin 0); cbn [negb].
    + destruct (levels (signal s) (resolveEntry s entryPrice) cs)
        as [[[sd sl] tp] |]; discriminate.
    + intros H; injection H as <-. auto.
Qed.

Section N8NFacts.

Context {TI : TechnicalIndicators}.

Lemma report_Err (clock : string) (cs : list Candle) (e : error) :
  N8N.report clock cs = Err e
  <-> analyzeMarket clock cs = Err e
      \/ exists s,
           analyzeMarket clock cs = Ok s /\ signal s <> HOLD
           /\ (currentPrice s >? Fin 0) = false /\ e = InvalidEntryError.
Proof.
  unfold N8N.report.
  destruct (analyzeMarket clock cs) as [s | e0] eqn:Ea.
  - pose proof (analyzeMarket_Ok_inv clock cs s Ea) as (Hlen & _).
    assert (5 <= List.length cs)%nat as H5 by lia.
    pose proof (calculateDynamicRisk_invalid_entry s cs None (Fin 100) H5)
      as Hinv.
    cbn [resolveEntry] in Hinv.
    split.
    + intros H. right. exists s.
      destruct (signal s) eqn:Ek; try discriminate H;
        destruct (calculateDynamicRisk s cs None (Fin 100)) as [rp | e1] eqn:Er;
        try discriminate H; injection H as <-;
        (destruct (calculateDynamicRisk_Err _ _ _ _ _ Er)
          as [[Hlt _] | (_ & -> & Hp)]; [lia |]);
        repeat split; auto; discriminate.
    + intros [H | (s' & Hs & Hk & Hp & ->)]; [discriminate H |].
      injection Hs as <-. apply Hinv in Hp.
      destruct (signal s); try contradiction; rewrite Hp; reflexivity.
  - split.
    + intros H; injection H as <-. auto.
    + intros [H | (s & Hs & _)]; [injection H as <-; reflexivity | discriminate].
Qed.

(** X15. On a non-empty array of candles [processForN8N] reports a failure
    in two cases only: [analyzeMarket] threw, or it returned a BUY or SELL
    whose current price is not greater than 0, which makes
    [calculateDynamicRisk] throw the invalid-entry error.  The
    insufficient-data error of [calculateDynamicRisk] never surfaces here,
    and a HOLD never fails. *)
Theorem processForN8N_failure
    (clock : string) (inputData : N8N.InputData) (rest : list N8N.Item)
    (cs : list Candle) (e : error) (stamp : string) :
  N8N.selectCandles inputData = Some cs -> cs <> [] ->
  (N8N.processForN8N clock ({| N8N.json := Some inputData |} :: rest)
   = N8N.Failure e stamp
   <-> stamp = clock
       /\ (analyzeMarket clock cs = Err e
           \/ exists s,
                analyzeMarket clock cs = Ok s /\ signal s <> HOLD
                /\ (currentPrice s >? Fin 0) = false
                /\ e = InvalidEntryError)).
Proof.
  intros Hsel Hne. unfold N8N.processForN8N. cbn [N8N.json]. rewrite Hsel.
  destruct cs as [| c cs']; [contradiction |].
  rewrite <- report_Err.
  destruct (N8N.report clock (c :: cs')) as [r | e0].
  - split; [discriminate | intros [_ H]; discriminate H].
  - split.
    + intros H; injection H as <- <-. auto.
    + intros [-> H]. injection H as <-. reflexivity.
Qed.

(** X16. On market data the entry point always succeeds: when the last five
    candles are market candles and [analyzeMarket] returns a signal,
    [processForN8N] returns the report of that signal with the patterns of
    the last three candles; a HOLD carries neither trade parameters nor a
    validation, and a BUY or SELL carries both: the risk parameters
    [calculateDynamicRisk] returns for 100 USDT at the latest close, a LONG
    for a BUY and a SHORT for a SELL, and what [validateRiskParameters] says
    of them under the default limits. *)
Theorem processForN8N_market
    (clock : string) (inputData : N8N.InputData) (rest : list N8N.Item)
    (cs : list Candle) (s : Signal) :
  N8N.selectCandles inputData = Some cs ->
  analyzeMarket clock cs = Ok s ->
  Forall marketCandle (last5Candles cs) ->
  exists r,
    N8N.processForN8N clock ({| N8N.json := Some inputData |} :: rest)
    = N8N.Success r
    /\ N8N.out_signal r = signal s
    /\ N8N.out_patterns r = detectCandlePatterns cs 3
    /\ match signal s with
       | HOLD => N8N.tradeParams r = None /\ N8N.riskValidation r = None
       | k =>
           exists rp,
             calculateDynamicRisk s cs None (Fin 100) = Ok rp
             /\ N8N.tradeParams r = Some (N8N.tradeParamsOf rp)
             /\ N8N.riskValidation r
                = Some (validateRiskParameters rp noLimits)
             /\ side rp = Some (match k with BUY => LONG | _ => SHORT end)
       end.
Proof.
  intros Hsel Hok Hm.
  pose proof (analyzeMarket_Ok_inv clock cs s Hok) as (Hlen & _).
  destruct (market_entry clock cs s (Fin 100) Hok Hm)
    as (rp & e & m & M & Hrp & Hentry & Em & EM & Hm0 & Hme & HeM).
  unfold N8N.processForN8N. cbn [N8N.json]. rewrite Hsel.
  destruct cs as [| c0 cs']; [simpl in Hlen; lia |].
  unfold N8N.report. rewrite Hok.
  assert (signal s <> HOLD ->
          side rp = Some (match signal s with BUY => LONG | _ => SHORT end))
    as Hside.
  { intros Hk.
    destruct (market_levels (signal s) e m M _ Em EM Hm0 Hme HeM Hk)
      as (b & tp & L & _).
    rewrite <- Hentry in L.
    apply (calculateDynamicRisk_trade s _ None (Fin 100) rp _ _ _ Hrp L). }
  destruct (signal s) eqn:Ek.
  - rewrite Hrp. eexists. split; [reflexivity |].
    cbn [N8N.out_signal N8N.out_patterns N8N.tradeParams N8N.riskValidation
         option_map fst snd].
    repeat split. exists rp. repeat split. apply Hside. discriminate.
  - rewrite Hrp. eexists. split; [reflexivity |].
    cbn [N8N.out_signal N8N.out_patterns N8N.tradeParams N8N.riskValidation
         option_map fst snd].
    repeat split. exists rp. repeat split. apply Hside. discriminate.
  - eexists. split; [reflexivity |]. cbn. auto.
Qed.

End N8NFacts.

Lemma processForN8N_market_witness :
  exists r,
    N8N.processForN8N (TI := SpecIndicators.spec_indicators) ""
      [{| N8N.json := Some (N8N.DataArray rising) |}]
    = N8N.Success r
    /\ N8N.out_signal r = BUY.
Proof.
  destruct (analyzeMarket (TI := SpecIndicators.spec_indicators) "" rising)
    as [s | e] eqn:E; [| vm_compute in E; discriminate E].
  destruct (processForN8N_market (TI := SpecIndicators.spec_indicators) ""
              (N8N.DataArray rising) [] rising s eq_refl E rising_market)
    as (r & Hr & Hs & _).
  exists r. split; [exact Hr |]. rewrite Hs.
  vm_compute in E. injection E as <-. reflexivity.
Defined.

Lemma processForN8N_failure_witness :
  N8N.processForN8N (TI := SpecIndicators.spec_indicators) "now"
    [{| N8N.json := Some (N8N.DataObject None (Some mockCandles)) |}]
  = N8N.Failure InsufficientDataError "now".
Proof.
  apply (processForN8N_failure (TI := SpecIndicators.spec_indicators) "now"
           (N8N.DataObject None (Some mockCandles)) [] mockCandles).
  - reflexivity.
  - discriminate.
  - split; [reflexivity |]. left. reflexivity.
Defined.

(* ================================================================== *)
(** * The backtest script: closing rules, balance and bookkeeping *)
(* ================================================================== *)

Import Backtest.

(** X17. When a candle touches both the stop-loss and the take-profit of
    the open position, [checkAndClosePosition] closes it at the take-profit:
    the take-profit test runs second and overwrites the stop-loss exit. *)
Theorem take_profit_overrides_stop_loss
    (p : Position) (candle : Candle) (index : nat) (st : State) (sl tp : num) :
  openPosition st = Some p ->
  pos_stopLoss p = Some sl -> pos_takeProfit p = Some tp ->
  truthy tp = true ->
  match pos_signal p with
  | BUY => (low candle <=? sl) = true /\ (high candle >=? tp) = true
  | SELL => (high candle >=? sl) = true /\ (low candle <=? tp) = true
  | HOLD => False
  end ->
  checkAndClosePosition candle index st
  = (true, closeTradeOf p tp (Some TAKE_PROFIT) candle index st).
Proof.
  intros Hp Hsl Htp Ht Htouch. unfold checkAndClosePosition, closeDecision.
  rewrite Hp, Hsl, Htp. cbn [nullToNumber].
  destruct (pos_signal p); try contradiction; destruct Htouch as [-> ->];
    rewrite Ht; reflexivity.
Qed.

Lemma take_profit_overrides_stop_loss_witness :
  Backtest.checkAndClosePosition wideCandle 30 holding
  = (true,
     Backtest.closeTradeOf longPosition (Fin (11 # 10))
       (Some Backtest.TAKE_PROFIT) wideCandle 30 holding).
Proof.
  apply (take_profit_overrides_stop_loss longPosition wideCandle 30 holding
           (Fin (95 # 100)) (Fin (11 # 10))); try reflexivity.
  split; reflexivity.
Defined.

(** X18. A round trip credits the position size: [openTrade] takes only the
    costs (0.15) from the balance, and [closeTrade] adds the position size
    (100) and the profit net of the exit commission (0.1), so that opening a
    BUY and closing it at price [x] moves the balance by
    [100 + (x - entry) * quantity - 0.25]. *)
Theorem round_trip_balance
    (s : Signal) (rp : RiskParameters) (i j : nat) (candle : Candle)
    (r : option CloseReason) (st : State) (b e q x : Q) :
  balance st = Fin b -> entry rp = Fin e -> quantity rp = Fin q ->
  signal s = BUY ->
  exists st',
    closeTrade (Fin x) r candle j (openTrade s rp i st) = Ok st'
    /\ balance st' =n= Fin (b + 100 + (x - e) * q - (1 # 4))
    /\ openPosition st' = None
    /\ List.length (trades st') = S (List.length (trades st)).
Proof.
  intros Hb He Hq Hs. eexists. split; [reflexivity |].
  cbn [openTrade closeTradeOf balance openPosition trades pos_signal pos_entry
       pos_quantity].
  rewrite Hb, He, Hq, Hs. split; [| split].
  - unfold configPositionSizeUSDT, configCommission, configSlippage.
    cbn [mul sub add opp]. rewrite !div_Fin by (intros E; discriminate E).
    cbn [mul sub add opp same]. field.
  - reflexivity.
  - rewrite length_app. cbn. lia.
Qed.

Lemma round_trip_balance_witness :
  exists rp st',
    calculateDynamicRisk mockSignal mockCandles None (Fin 100) = Ok rp
    /\ Backtest.closeTrade (Fin (545 # 1000)) (Some Backtest.END_OF_DATA)
         (candleAt (545 # 1000)) 31
         (Backtest.openTrade mockSignal rp 30 Backtest.initialState)
       = Ok st'
    /\ Backtest.balance st'
       =n= Fin (5000 + 100
                + ((545 # 1000) - (545000 # 1000000)) * (1834862 # 10000)
                - (1 # 4)).
Proof.
  destruct (calculateDynamicRisk mockSignal mockCandles None (Fin 100))
    as [rp | e] eqn:E; [| vm_compute in E; discriminate E].
  destruct (round_trip_balance mockSignal rp 30 31 (candleAt (545 # 1000))
              (Some Backtest.END_OF_DATA) Backtest.initialState
              5000 (545000 # 1000000) (1834862 # 10000) (545 # 1000))
    as (st' & H1 & H2 & _).
  - reflexivity.
  - vm_compute in E. injection E as <-. reflexivity.
  - vm_compute in E. injection E as <-. reflexivity.
  - reflexivity.
  - exists rp, st'. split; [reflexivity |]. split; [exact H1 | exact H2].
Defined.

Lemma updateStats_counters (pnl bal : num) (s : Stats) :
  totalTrades (updateStats pnl bal s) = S (totalTrades s)
  /\ (wins (updateStats pnl bal s) + losses (updateStats pnl bal s)
      + breakeven (updateStats pnl bal s)
      = S (wins s + losses s + breakeven s))%nat
  /\ ((consecutiveWins s = 0%nat \/ consecutiveLosses s = 0%nat) ->
      consecutiveWins (updateStats pnl bal s) = 0%nat
      \/ consecutiveLosses (updateStats pnl bal s) = 0%nat)
  /\ ((consecutiveWins s <= maxConsecutiveWins s <= wins s)%nat ->
      (consecutiveWins (updateStats pnl bal s)
       <= maxConsecutiveWins (updateStats pnl bal s)
       <= wins (updateStats pnl bal s))%nat)
  /\ ((consecutiveLosses s <= maxConsecutiveLosses s <= losses s)%nat ->
      (consecutiveLosses (updateStats pnl bal s)
       <= maxConsecutiveLosses (updateStats pnl bal s)
       <= losses (updateStats pnl bal s))%nat).
Proof.
  unfold updateStats. cbv zeta.
  destruct (pnl >? Fin 0); [| destruct (pnl <? Fin 0)]; cbn; lia.
Qed.

Lemma closeTradeOf_counters
    (p : Position) (x : num) (r : option CloseReason) (c : Candle) (j : nat)
    (st : State) :
  countersConsistent st -> countersConsistent (closeTradeOf p x r c j st).
Proof.
  unfold countersConsistent. cbv zeta. intros (H1 & H2 & H3 & H4 & H5).
  cbn [closeTradeOf stats trades].
  match goal with
  | |- context [updateStats ?a ?b ?s] =>
      destruct (updateStats_counters a b s) as (U1 & U2 & U3 & U4 & U5)
  end.
  rewrite length_app. cbn [List.length].
  repeat split; try (apply U3; assumption); try (apply U4; assumption);
    try (apply U5; assumption); lia.
Qed.

Lemma ForallOrdPairs_snoc {A : Type} (R : A -> A -> Prop) (l : list A) (x : A) :
  ForallOrdPairs R l -> Forall (fun y => R y x) l ->
  ForallOrdPairs R (l ++ [x]).
Proof.
  induction 1 as [| a l Ha Hl IH]; intros Hx; simpl.
  - constructor; constructor.
  - inversion Hx as [| ? ? Hax Hlx]; subst. constructor.
    + apply Forall_app. split; [exact Ha | constructor; [exact Hax | constructor]].
    + apply IH, Hlx.
Qed.

Lemma tradeWithin_mono (i j : nat) (t : Trade) :
  (i <= j)%nat -> tradeWithin i t -> tradeWithin j t.
Proof. unfold tradeWithin. intros H (H1 & H2 & H3 & H4). repeat split; auto; lia. Qed.

Lemma loopInvariant_mono (i j : nat) (st : State) :
  (i <= j)%nat -> loopInvariant i st -> loopInvariant j st.
Proof.
  intros H (H1 & H2 & H3 & H4).
  split; [exact H1 |]. split; [| split; [exact H3 |]].
  - revert H2. apply Forall_impl. intros t. apply tradeWithin_mono, H.
  - destruct (openPosition st) as [p |]; [| exact I].
    destruct H4 as [H4 H5]. split; [lia | exact H5].
Qed.

(** Closing the open position at index [j], by a rule that names the exit
    price or at the end of the data. *)
Lemma closeTradeOf_invariant
    (p : Position) (x : num) (r : CloseReason) (c : Candle) (i j : nat)
    (st : State) :
  loopInvariant i st -> openPosition st = Some p -> (i <= S j)%nat ->
  match r with
  | STOP_LOSS => (i <= j)%nat /\ pos_stopLoss p = Some x
  | TAKE_PROFIT => (i <= j)%nat /\ pos_takeProfit p = Some x
  | END_OF_DATA => True
  end ->
  loopInvariant (S j) (closeTradeOf p x (Some r) c j st).
Proof.
  intros (H1 & H2 & H3 & H4) Hp Hij Hr. rewrite Hp in H4.
  destruct H4 as [H4 H5].
  split; [apply closeTradeOf_counters, H1 |].
  cbn [closeTradeOf trades openPosition]. split; [| split; [| exact I]].
  - apply Forall_app. split.
    + revert H2. apply Forall_impl. intros t. apply tradeWithin_mono. lia.
    + constructor; [| constructor]. unfold tradeWithin.
      cbn [position exitIndex duration reason exit].
      repeat split; try lia.
      destruct r; auto; destruct Hr as [Hr1 Hr2]; split; auto; lia.
  - apply ForallOrdPairs_snoc; [exact H3 |].
    cbn [position]. exact H5.
Qed.

Lemma checkAndClosePosition_invariant (c : Candle) (i : nat) (st : State) :
  loopInvariant i st -> loopInvariant (S i) (snd (checkAndClosePosition c i st)).
Proof.
  intros H. unfold checkAndClosePosition.
  destruct (openPosition st) as [p |] eqn:Hp;
    [| apply (loopInvariant_mono i); [lia | exact H]].
  assert (forall x r,
            closeDecision p c = (Some x, r) ->
            exists r', r = Some r'
                       /\ match r' with
                          | STOP_LOSS => pos_stopLoss p = Some x
                          | TAKE_PROFIT => pos_takeProfit p = Some x
                          | END_OF_DATA => False
                          end) as Hdec.
  { unfold closeDecision. intros x r.
    destruct (pos_signal p);
      repeat match goal with
      | |- context [if ?b then _ else _] => destruct b
      end; intros E; injection E as E1 E2; subst r;
      try discriminate E1; eexists; (split; [reflexivity |]); exact E1. }
  destruct (closeDecision p c) as [[x |] r];
    [| apply (loopInvariant_mono i); [lia | exact H]].
  destruct (truthy x); [| apply (loopInvariant_mono i); [lia | exact H]].
  destruct (Hdec x r eq_refl) as (r' & -> & Hr). cbn [snd].
  apply (closeTradeOf_invariant p x r' c i i st H Hp); [lia |].
  destruct r'; auto; contradiction.
Qed.

Lemma openTrade_invariant
    (s : Signal) (rp : RiskParameters) (i : nat) (st : State) :
  loopInvariant i st -> (21 <= i)%nat ->
  loopInvariant (S i) (openTrade s rp i st).
Proof.
  intros (H1 & H2 & H3 & H4) Hi. unfold loopInvariant.
  cbn [openTrade trades openPosition entryIndex].
  split; [exact H1 |]. split; [| split; [exact H3 |]].
  - revert H2. apply Forall_impl. intros t. apply tradeWithin_mono. lia.
  - split; [lia |]. revert H2. apply Forall_impl.
    intros t (_ & Hlt & _). exact Hlt.
Qed.

Section BacktestFacts.

Context {TI : TechnicalIndicators}.

Lemma turn_invariant
    (clock : nat -> string) (candles : list Candle) (c : Candle) (i : nat)
    (st : State) :
  loopInvariant i st -> (21 <= i)%nat ->
  loopInvariant (S i) (turn clock candles c i st).
Proof.
  intros H Hi. unfold turn. cbv zeta.
  destruct (openPosition st) eqn:Hp;
    [apply checkAndClosePosition_invariant, H |].
  pose proof (loopInvariant_mono i (S i) st ltac:(lia) H) as Hst.
  destruct (analyzeMarket _ _) as [s | e]; [| exact Hst].
  destruct (_ && _); [| exact Hst].
  destruct (calculateDynamicRisk _ _ _ _) as [rp | e]; [| exact Hst].
  destruct (valid _); [| exact Hst].
  apply openTrade_invariant; assumption.
Qed.

Lemma loop_invariant
    (clock : nat -> string) (candles rest : list Candle) (i : nat) (st : State) :
  loopInvariant i st -> (21 <= i)%nat ->
  loopInvariant (i + List.length rest) (loop clock candles rest i st).
Proof.
  revert i st. induction rest as [| c rest IH]; intros i st H Hi; simpl.
  - rewrite Nat.add_0_r. exact H.
  - replace (i + S (List.length rest))%nat with (S i + List.length rest)%nat
      by lia.
    apply IH; [apply turn_invariant; assumption | lia].
Qed.

Lemma initialState_invariant : loopInvariant 21 initialState.
Proof.
  unfold loopInvariant, countersConsistent. cbn.
  repeat split; auto; try lia; constructor.
Qed.

(** [runBacktest] from the initial state: it throws nothing, leaves no
    position open, and the invariant of the loop holds at the end of the
    data. *)
Lemma runBacktest_invariant (clock : nat -> string) (candles : list Candle) :
  exists st,
    runBacktest clock candles initialState = Ok st
    /\ openPosition st = None
    /\ loopInvariant (Nat.max 21 (List.length candles)) st.
Proof.
  unfold runBacktest. cbv zeta.
  pose proof (loop_invariant clock candles (skipn 21 candles) 21 initialState
                initialState_invariant (le_n 21)) as H.
  rewrite length_skipn in H.
  replace (21 + (List.length candles - 21))%nat
    with (Nat.max 21 (List.length candles)) in H by lia.
  set (st := loop clock candles (skipn 21 candles) 21 initialState) in *.
  destruct (openPosition st) as [p |] eqn:Hp.
  - pose proof H as (_ & _ & _ & H4). rewrite Hp in H4. destruct H4 as [H4 _].
    assert (21 < List.length candles)%nat as Hlen by lia.
    unfold index, len.
    destruct (Z.of_nat (List.length candles) - 1 <? 0)%Z eqn:E;
      [apply Z.ltb_lt in E; lia |].
    destruct (nth_error candles (Z.to_nat (Z.of_nat (List.length candles) - 1)))
      as [finalCandle |] eqn:En.
    + unfold closeTrade. rewrite Hp. eexists. split; [reflexivity |].
      split; [reflexivity |].
      replace (Nat.max 21 (List.length candles))
        with (S (List.length candles - 1)) by lia.
      apply (closeTradeOf_invariant p _ END_OF_DATA finalCandle
               (Nat.max 21 (List.length candles))); auto. lia.
    + apply nth_error_None in En. lia.
  - exists st. auto.
Qed.

(** X19. The counters of a backtest add up: whatever the candles,
    [runBacktest] ends without an error and without an open position,
    [totalTrades] is the number of recorded trades and the sum of wins,
    losses and breakevens, at most one of the two running streaks is
    non-zero, and each streak is at most its recorded maximum, which is at
    most the number of wins, respectively losses. *)
Theorem runBacktest_counters (clock : nat -> string) (candles : list Candle) :
  exists st,
    runBacktest clock candles initialState = Ok st
    /\ openPosition st = None
    /\ countersConsistent st.
Proof.
  destruct (runBacktest_invariant clock candles) as (st & H1 & H2 & H3 & _).
  exists st. auto.
Qed.

(** X20. The trades of a backtest follow one another: every recorded trade
    was entered at index 21 or later and left at an index of the data no
    earlier than its entry, strictly later when it hit its stop-loss or
    take-profit (the candle a trade is opened on is never tested against
    its levels), at the level its reason names; its duration is the
    difference of the two indices; and each trade is left before the next
    is entered, so no two overlap.  With 21 candles or fewer the loop does
    not run and nothing is traded: the first analysis needs 22. *)
Theorem runBacktest_trades_sequential
    (clock : nat -> string) (candles : list Candle) :
  exists st,
    runBacktest clock candles initialState = Ok st
    /\ Forall (tradeWithin (List.length candles)) (trades st)
    /\ sequential (trades st)
    /\ ((List.length candles <= 21)%nat -> trades st = []).
Proof.
  destruct (runBacktest_invariant clock candles)
    as (st & H1 & _ & _ & H2 & H3 & _).
  exists st. split; [exact H1 |].
  assert (Forall (tradeWithin (List.length candles)) (trades st)) as Hw.
  { revert H2. apply Forall_impl. intros t (Ha & Hb & Hc & Hd).
    repeat split; auto; lia. }
  split; [exact Hw |]. split; [exact H3 |].
  intros Hlen. destruct (trades st) as [| t ts]; [reflexivity |].
  inversion Hw as [| ? ? (Ha & Hb & _) _]; subst. lia.
Qed.

End BacktestFacts.

(* ================================================================== *)
(** * mexc.js: the query string *)
(* ================================================================== *)

Module MexcClientFacts.

Import Ascii Permutation Sorted.
Import MexcClient.
Local Open Scope string_scope.

Example buildQueryString_sorted :
  buildQueryString [("c", "3"); ("a", "1"); ("b", "2")] = "a=1&b=2&c=3".
Proof. reflexivity. Qed.

Example buildQueryString_encoded :
  buildQueryString [("symbol", "XRP_USDT"); ("test", "hello world (x)")]
  = "symbol=XRP_USDT&test=hello%20world%20%28x%29".
Proof. reflexivity. Qed.

Lemma ascii_compare_N (a b : ascii) :
  Ascii.compare a b = N.compare (N_of_ascii a) (N_of_ascii b).
Proof. reflexivity. Qed.

Lemma compare_not_Gt_trans (a : string) :
  forall b c,
    String.compare a b <> Gt -> String.compare b c <> Gt ->
    String.compare a c <> Gt.
Proof.
  induction a as [| x a IH]; intros [| y b] [| z c]; simpl; try easy.
  rewrite !ascii_compare_N.
  destruct (N.compare_spec (N_of_ascii x) (N_of_ascii y)) as [E1 | E1 | E1];
    destruct (N.compare_spec (N_of_ascii y) (N_of_ascii z)) as [E2 | E2 | E2];
    destruct (N.compare_spec (N_of_ascii x) (N_of_ascii z)) as [E3 | E3 | E3];
    try easy; try lia.
  apply IH.
Qed.

Lemma leb_trans (a b c : string) :
  String.leb a b = true -> String.leb b c = true -> String.leb a c = true.
Proof.
  unfold String.leb. intros H1 H2.
  pose proof (compare_not_Gt_trans a b c) as H.
  destruct (String.compare a b); destruct (String.compare b c);
    destruct (String.compare a c); try easy; exfalso; apply H; easy.
Qed.

Lemma insert_perm (k : string) (l : list string) :
  Permutation (insert k l) (k :: l).
Proof.
  induction l as [| h t IH]; simpl; [reflexivity |].
  destruct (String.leb k h); [reflexivity |].
  rewrite IH. apply perm_swap.
Qed.

Lemma sort_perm (l : list string) : Permutation (sort l) l.
Proof.
  induction l as [| h t IH]; simpl; [reflexivity |].
  rewrite insert_perm. now constructor.
Qed.

Lemma insert_sorted (k : string) (l : list string) :
  StronglySorted le l -> StronglySorted le (insert k l).
Proof.
  induction 1 as [| h t Ht IH Hh]; simpl.
  - constructor; constructor.
  - destruct (String.leb k h) eqn:E.
    + constructor; [constructor; assumption |].
      constructor; [exact E |].
      revert Hh. apply Forall_impl. intros x. apply leb_trans, E.
    + constructor; [exact IH |].
      eapply Permutation_Forall; [symmetry; apply insert_perm |].
      constructor; [| exact Hh].
      destruct (String.leb_total k h) as [H | H]; [congruence | exact H].
Qed.

Lemma sort_sorted (l : list string) : StronglySorted le (sort l).
Proof.
  induction l as [| h t IH]; simpl; [constructor | apply insert_sorted, IH].
Qed.

(** Two sorted lists with the same elements are the same list. *)
Lemma sorted_unique (l1 : list string) :
  forall l2,
    StronglySorted le l1 -> StronglySorted le l2 -> Permutation l1 l2 ->
    l1 = l2.
Proof.
  induction l1 as [| a l1 IH]; intros l2 H1 H2 Hp.
  - apply Permutation_nil in Hp. now subst.
  - destruct l2 as [| b l2];
      [symmetry in Hp; apply Permutation_nil in Hp; discriminate |].
    inversion H1 as [| ? ? S1 F1]; subst.
    inversion H2 as [| ? ? S2 F2]; subst.
    assert (a = b) as ->.
    { assert (In a (b :: l2)) as Ha
        by (apply (Permutation_in _ Hp); left; reflexivity).
      assert (In b (a :: l1)) as Hb
        by (apply (Permutation_in _ (Permutation_sym Hp)); left; reflexivity).
      destruct Ha as [<- | Ha]; [reflexivity |].
      destruct Hb as [<- | Hb]; [reflexivity |].
      apply String.leb_antisym.
      - apply (proj1 (Forall_forall _ _) F1 b Hb).
      - apply (proj1 (Forall_forall _ _) F2 a Ha). }
    f_equal. apply IH; auto. apply (Permutation_cons_inv Hp).
Qed.

Lemma sort_permutation (l1 l2 : list string) :
  Permutation l1 l2 -> sort l1 = sort l2.
Proof.
  intros H. apply sorted_unique; try apply sort_sorted.
  rewrite !sort_perm. exact H.
Qed.

Lemma lookup_In (key v : string) (params : Params) :
  NoDup (keys params) -> (lookup key params = Some v <-> In (key, v) params).
Proof.
  induction params as [| [k w] rest IH]; simpl; intros Hn; [easy |].
  inversion Hn as [| ? ? Hk Hrest]; subst.
  destruct (String.eqb_spec k key) as [-> | Hne].
  - split.
    + intros H; injection H as <-. auto.
    + intros [H | H]; [injection H as <-; reflexivity |].
      exfalso. apply Hk. unfold keys. apply in_map_iff.
      exists (key, v). auto.
  - rewrite (IH Hrest). split; [auto |].
    intros [H | H]; [injection H as -> _; contradiction | exact H].
Qed.

Lemma lookup_permutation (key : string) (p1 p2 : Params) :
  NoDup (keys p1) -> Permutation p1 p2 -> lookup key p1 = lookup key p2.
Proof.
  intros Hn Hp.
  assert (NoDup (keys p2)) as Hn2
    by (apply (Permutation_NoDup (l := keys p1));
        [apply Permutation_map, Hp | exact Hn]).
  destruct (lookup key p1) as [v |] eqn:E1.
  - apply (lookup_In key v p1 Hn) in E1.
    symmetry. apply (lookup_In key v p2 Hn2).
    apply (Permutation_in _ Hp E1).
  - destruct (lookup key p2) as [v |] eqn:E2; [| reflexivity].
    apply (lookup_In key v p2 Hn2) in E2.
    apply (Permutation_in _ (Permutation_sym Hp)) in E2.
    apply (lookup_In key v p1 Hn) in E2. congruence.
Qed.

(** X22. The query string does not depend on the order in which the
    properties of [params] were added: two objects with the same own
    properties (distinct names, same values) give the same string, the
    pairs in the order of their names. *)
Theorem buildQueryString_order (p1 p2 : Params) :
  NoDup (keys p1) -> Permutation p1 p2 ->
  buildQueryString p1 = buildQueryString p2.
Proof.
  intros Hn Hp. unfold buildQueryString.
  rewrite (sort_permutation (keys p1) (keys p2))
    by (apply Permutation_map, Hp).
  do 3 f_equal. apply map_ext. intros key. unfold property.
  rewrite (lookup_permutation key p1 p2 Hn Hp). reflexivity.
Qed.

Lemma buildQueryString_order_witness :
  buildQueryString [("c", "3"); ("a", "1"); ("b", "2")]
  = buildQueryString [("a", "1"); ("b", "2"); ("c", "3")].
Proof.
  apply (buildQueryString_order [("c", "3"); ("a", "1"); ("b", "2")]
           [("a", "1"); ("b", "2"); ("c", "3")]).
  - repeat constructor; simpl; intuition discriminate.
  - apply (Permutation_cons_append [("a", "1"); ("b", "2")] ("c", "3")).
Defined.

Lemma count_app (c : ascii) (s1 s2 : string) :
  count c (s1 ++ s2) = (count c s1 + count c s2)%nat.
Proof. induction s1 as [| x s1 IH]; simpl; [reflexivity | rewrite IH; lia]. Qed.

Lemma count_replaceAll (c x : ascii) (by_ s : string) :
  count c by_ = 0%nat ->
  count c (replaceAll x by_ s)
  = if Ascii.eqb x c then 0%nat else count c s.
Proof.
  intros Hby. induction s as [| y s IH]; simpl.
  - destruct (Ascii.eqb x c); reflexivity.
  - rewrite count_app, IH.
    destruct (Ascii.eqb_spec y x) as [-> | Hyx].
    + rewrite Hby. destruct (Ascii.eqb x c); reflexivity.
    + simpl. destruct (Ascii.eqb_spec x c) as [-> | Hxc].
      * destruct (Ascii.eqb_spec y c); [contradiction | reflexivity].
      * lia.
Qed.

(** [encodeURIComponent] escapes the two separators. *)
Lemma count_percentEncode (c b : ascii) :
  c = "&"%char \/ c = "="%char ->
  count c (if isUnreserved b then String b "" else percentEncode b) = 0%nat.
Proof.
  intros [-> | ->];
    destruct b as [[] [] [] [] [] [] [] []]; vm_compute; reflexivity.
Qed.

Lemma count_encodeURIComponent (c : ascii) (s : string) :
  c = "&"%char \/ c = "="%char -> count c (encodeURIComponent s) = 0%nat.
Proof.
  intros Hc. induction s as [| b s IH]; [reflexivity |].
  cbn [encodeURIComponent]. rewrite count_app, IH, count_percentEncode; auto.
Qed.

Lemma count_concat (c : ascii) (l : list string) :
  count c (String.concat "&" l)
  = (fold_right (fun s n => count c s + n) 0 l
     + (if Ascii.eqb "&" c then Nat.pred (List.length l) else 0))%nat.
Proof.
  induction l as [| s l IH]; [destruct (Ascii.eqb "&" c); reflexivity |].
  destruct l as [| s' l].
  - cbn [String.concat fold_right List.length Nat.pred].
    destruct (Ascii.eqb "&" c); lia.
  - change (String.concat "&" (s :: s' :: l))
      with (s ++ "&" ++ String.concat "&" (s' :: l)).
    rewrite !count_app, IH. cbn [fold_right List.length count Nat.pred].
    destruct (Ascii.eqb "&" c); lia.
Qed.

Lemma count_pairs (c : ascii) (params : Params) (ks : list string) :
  c = "&"%char \/ c = "="%char ->
  Forall (fun k => count c k = 0%nat) ks ->
  fold_right (fun s n => (count c s + n)%nat) 0%nat
    (map (fun key => key ++ "=" ++ encodeURIComponent (property params key)) ks)
  = if Ascii.eqb "=" c then List.length ks else 0%nat.
Proof.
  intros Hc. induction 1 as [| k ks Hk Hks IH];
    cbn [map fold_right List.length].
  - destruct (Ascii.eqb "=" c); reflexivity.
  - rewrite IH, !count_app, Hk, (count_encodeURIComponent c _ Hc).
    cbn [count]. destruct (Ascii.eqb "=" c); lia.
Qed.

(** X23. Values cannot add parameters: when no property name contains [&]
    or [=], the query string of [n] properties has exactly [n - 1]
    separators [&] and [n] signs [=], whatever the values are, because
    [encodeURIComponent] escapes both characters. *)
Theorem buildQueryString_separators (params : Params) :
  Forall (fun k => count "&" k = 0%nat /\ count "=" k = 0%nat) (keys params) ->
  count "&" (buildQueryString params) = Nat.pred (List.length params)
  /\ count "=" (buildQueryString params) = List.length params.
Proof.
  intros Hk. unfold buildQueryString.
  assert (Forall (fun k => count "&" k = 0%nat /\ count "=" k = 0%nat)
            (sort (keys params))) as Hs
    by (eapply Permutation_Forall; [symmetry; apply sort_perm | exact Hk]).
  assert (List.length (sort (keys params)) = List.length params) as Hl.
  { rewrite (Permutation_length (sort_perm (keys params))).
    unfold keys. apply length_map. }
  split.
  - rewrite !count_replaceAll by reflexivity.
    change (Ascii.eqb ")" "&") with false.
    change (Ascii.eqb "(" "&") with false. cbv iota.
    rewrite count_concat, count_pairs, length_map, Hl;
      [reflexivity | auto | revert Hs; apply Forall_impl; tauto].
  - rewrite !count_replaceAll by reflexivity.
    change (Ascii.eqb ")" "=") with false.
    change (Ascii.eqb "(" "=") with false. cbv iota.
    rewrite count_concat, count_pairs, length_map, Hl;
      [change (Ascii.eqb "&" "=") with false;
       change (Ascii.eqb "=" "=") with true; cbv iota; lia
      | auto | revert Hs; apply Forall_impl; tauto].
Qed.

Lemma buildQueryString_separators_witness :
  count "&" (buildQueryString [("symbol", "XRP&a=b"); ("limit", "100")])
  = 1%nat
  /\ count "=" (buildQueryString [("symbol", "XRP&a=b"); ("limit", "100")])
     = 2%nat.
Proof.
  apply (buildQueryString_separators [("symbol", "XRP&a=b"); ("limit", "100")]).
  repeat constructor.
Defined.

(** X24. The query string never contains a parenthesis, in a name or in a
    value: the two [replace] calls run over the joined string, and their
    replacements bring no parenthesis back. *)
Theorem buildQueryString_no_parenthesis (params : Params) :
  count "(" (buildQueryString params) = 0%nat
  /\ count ")" (buildQueryString params) = 0%nat.
Proof.
  unfold buildQueryString. split.
  - rewrite (count_replaceAll "(" ")") by reflexivity.
    rewrite (count_replaceAll "(" "(") by reflexivity. reflexivity.
  - rewrite (count_replaceAll ")" ")") by reflexivity. reflexivity.
Qed.

End MexcClientFacts.

(* ================================================================== *)
(** * strategy.js: signal, trend and crossover together *)
(* ================================================================== *)

Lemma gtb_not_ltb (x y : num) : (x >? y) = true -> (x <? y) = false.
Proof.
  destruct x as [a | | |], y as [b | | |]; try easy.
  rewrite gtb_Fin. intros H. apply not_true_iff_false. rewrite ltb_Fin. lra.
Qed.

Lemma ltb_not_gtb (x y : num) : (x <? y) = true -> (x >? y) = false.
Proof.
  destruct x as [a | | |], y as [b | | |]; try easy.
  rewrite ltb_Fin. intros H. apply not_true_iff_false. rewrite gtb_Fin. lra.
Qed.

Section TrendFacts.

Context {TI : TechnicalIndicators}.

(** X25. The fields of a signal never contradict one another: a BUY comes
    with a BULLISH trend and no bearish crossover, a SELL with a BEARISH
    trend and no bullish crossover; a bullish crossover implies a BULLISH
    trend and a bearish one a BEARISH trend, so the two crossover flags are
    never both set.  This holds for any indicator library. *)
Theorem signal_agrees_with_trend
    (clock : string) (cs : list Candle) (s : Signal) :
  analyzeMarket clock cs = Ok s ->
  (signal s = BUY -> trend s = BULLISH /\ bearish (crossover s) = false)
  /\ (signal s = SELL -> trend s = BEARISH /\ bullish (crossover s) = false)
  /\ (bullish (crossover s) = true -> trend s = BULLISH)
  /\ (bearish (crossover s) = true -> trend s = BEARISH)
  /\ bullish (crossover s) && bearish (crossover s) = false.
Proof.
  intros Hok.
  destruct (analyzeMarket_Ok_inv clock cs s Hok)
    as (_ & Hsig & _ & Htrend & Hbull & Hbear & _).
  rewrite Hsig, Htrend, Hbull, Hbear.
  unfold signalAndConfidence, buyRule, sellRule, trendOf, bullishCrossover,
    bearishCrossover. cbv zeta.
  set (fast := ToNumber (currentEMA9 cs)).
  set (slow := ToNumber (currentEMA21 cs)).
  destruct (fast >? slow) eqn:Eg.
  - rewrite (gtb_not_ltb _ _ Eg). rewrite !andb_false_r. cbn [andb].
    destruct ((ToNumber (currentRSI cs) >? Fin 50)
              && (ToNumber (currentRSI cs) <? Fin 70)); cbn [fst];
      repeat split; auto; try discriminate.
  - rewrite !andb_false_r. cbn [andb].
    destruct (fast <? slow) eqn:El; cbn [andb].
    + destruct ((ToNumber (currentRSI cs) <? Fin 50)
                && (ToNumber (currentRSI cs) >? Fin 30)); cbn [fst];
        repeat split; auto; try discriminate.
    + rewrite !andb_false_r. cbn [fst]. repeat split; auto; discriminate.
Qed.

End TrendFacts.

Lemma signal_agrees_with_trend_witness :
  exists s,
    analyzeMarket (TI := SpecIndicators.spec_indicators) "" rising = Ok s
    /\ bullish (crossover s) && bearish (crossover s) = false.
Proof.
  destruct (analyzeMarket (TI := SpecIndicators.spec_indicators) "" rising)
    as [s | e] eqn:E; [| vm_compute in E; discriminate E].
  exists s. split; [reflexivity |].
  apply (signal_agrees_with_trend (TI := SpecIndicators.spec_indicators)
           "" rising s E).
Defined.

(* ================================================================== *)
(** * What the older candles cannot change *)
(* ================================================================== *)

Lemma skipn_suffix {A : Type} (n : nat) (older recent : list A) :
  (n <= List.length recent)%nat ->
  skipn (List.length (older ++ recent) - n) (older ++ recent)
  = skipn (List.length recent - n) recent.
Proof.
  intros H. rewrite length_app, skipn_app.
  replace (List.length older + List.length recent - n - List.length older)%nat
    with (List.length recent - n)%nat by lia.
  rewrite (skipn_all2 older) by lia. reflexivity.
Qed.

(** X26. The patterns depend on the last [lookback] candles only: candles
    before them, however many and whatever their prices, change nothing. *)
Theorem detectCandlePatterns_suffix
    (older recent : list Candle) (lookback : Z) :
  (1 <= lookback <= len recent)%Z ->
  detectCandlePatterns (older ++ recent) lookback
  = detectCandlePatterns recent lookback.
Proof.
  intros [H1 H2]. unfold detectCandlePatterns. cbv zeta.
  rewrite !slice_window by exact H1. unfold len in H2.
  rewrite !Nat.min_l by (rewrite ?length_app; lia).
  rewrite skipn_suffix by lia. reflexivity.
Qed.

Lemma detectCandlePatterns_suffix_witness :
  detectCandlePatterns ([plainCandle; hammerCandle] ++ patternCandles) 3
  = detectCandlePatterns patternCandles 3.
Proof.
  apply (detectCandlePatterns_suffix [plainCandle; hammerCandle]
           patternCandles 3).
  cbn. lia.
Defined.

Lemma last5Candles_suffix (older recent : list Candle) :
  (5 <= List.length recent)%nat ->
  last5Candles (older ++ recent) = last5Candles recent.
Proof. intros H. unfold last5Candles, slice_last. apply skipn_suffix, H. Qed.

(** X27. The risk parameters depend on the last five candles only: with
    the same signal, entry and position size, [calculateDynamicRisk]
    returns the same result, or throws the same error, on a longer
    history. *)
Theorem calculateDynamicRisk_last_five
    (s : Signal) (older recent : list Candle) (entryPrice : option num)
    (size : num) :
  (5 <= List.length recent)%nat ->
  calculateDynamicRisk s (older ++ recent) entryPrice size
  = calculateDynamicRisk s recent entryPrice size.
Proof.
  intros H. unfold calculateDynamicRisk.
  assert ((List.length (older ++ recent) <? 5)%nat = false) as ->
    by (apply Nat.ltb_ge; rewrite length_app; lia).
  assert ((List.length recent <? 5)%nat = false) as ->
    by (apply Nat.ltb_ge; lia).
  assert (forall k e, levels k e (older ++ recent) = levels k e recent) as ->.
  { intros k e. unfold levels, lows, highs.
    rewrite (last5Candles_suffix older recent H). reflexivity. }
  reflexivity.
Qed.

Lemma calculateDynamicRisk_last_five_witness :
  calculateDynamicRisk mockSignal (rising ++ mockCandles) None (Fin 100)
  = calculateDynamicRisk mockSignal mockCandles None (Fin 100).
Proof.
  apply (calculateDynamicRisk_last_five mockSignal rising mockCandles None
           (Fin 100)).
  cbn. lia.
Defined.

(* ================================================================== *)
(** * strategy.js: the confidence grows with the trend *)
(* ================================================================== *)

Lemma Math_min_Fin_mono (a b c : Q) :
  (a <= b)%Q ->
  exists m n,
    Math_min (Fin a) (Fin c) = Fin m /\ Math_min (Fin b) (Fin c) = Fin n
    /\ (m <= n)%Q.
Proof.
  intros H. unfold Math_min, cmp.
  destruct (a ?= c)%Q eqn:E1; destruct (b ?= c)%Q eqn:E2; qprop;
    do 2 eexists; (split; [reflexivity |]); (split; [reflexivity |]); lra.
Qed.

Lemma round_cap_mono (x y : Q) :
  (x <= y)%Q ->
  (Math_min (Math_round (Fin x)) (Fin 100)
   <=? Math_min (Math_round (Fin y)) (Fin 100)) = true.
Proof.
  intros H. cbn [Math_round].
  assert (inject_Z (Qfloor (x + (1 # 2))) <= inject_Z (Qfloor (y + (1 # 2))))%Q
    as Hr by (rewrite <- Zle_Qle; apply Qfloor_resp_le; lra).
  destruct (Math_min_Fin_mono _ _ 100 Hr) as (m & n & -> & -> & Hmn).
  apply leb_Fin, Hmn.
Qed.

(** The score as a function of the separation [q], for the RSI bonus [rb]. *)
Lemma score_mono (q1 q2 : Q) (rb : num) (cross : bool) :
  (q1 <= q2)%Q -> rb = Fin 15 \/ rb = Fin 5 ->
  (Math_min
     (Math_round
        (let c := Fin 50 + Math_min (Fin q1 * Fin 10) (Fin 20) + rb in
         if cross then c + Fin 15 else c))
     (Fin 100)
   <=? Math_min
         (Math_round
            (let c := Fin 50 + Math_min (Fin q2 * Fin 10) (Fin 20) + rb in
             if cross then c + Fin 15 else c))
         (Fin 100)) = true.
Proof.
  intros Hq Hrb. cbn [mul].
  assert (q1 * 10 <= q2 * 10)%Q as Hq10 by lra.
  destruct (Math_min_Fin_mono _ _ 20 Hq10) as (m & n & -> & -> & Hmn).
  cbv zeta.
  destruct Hrb as [-> | ->]; destruct cross; cbn [add];
    apply round_cap_mono; lra.
Qed.

(** X28. A stronger trend never lowers the confidence: above a positive
    slow EMA, raising the fast EMA does not lower the confidence of a BUY
    and does not raise the confidence of a SELL, the RSI and the crossover
    flag being the same. *)
Theorem confidence_monotone
    (fast1 fast2 slow : Q) (r : num) (cross : bool) :
  (0 < slow)%Q -> (fast1 <= fast2)%Q ->
  (calculateConfidence (Fin fast1) (Fin slow) r BUY cross
   <=? calculateConfidence (Fin fast2) (Fin slow) r BUY cross) = true
  /\ (calculateConfidence (Fin fast2) (Fin slow) r SELL cross
      <=? calculateConfidence (Fin fast1) (Fin slow) r SELL cross) = true.
Proof.
  intros Hs Hf. rewrite !calculateConfidence_unfold.
  cbn [sub add opp]. rewrite !(div_Fin _ slow) by (intros E; lra).
  cbn [mul].
  assert (0 <= / slow)%Q as Hinv
    by (apply Qlt_le_weak, Qinv_lt_0_compat, Hs).
  split.
  - assert ((fast1 + - slow) / slow * 100 <= (fast2 + - slow) / slow * 100)%Q
      as Hq.
    { assert ((fast1 + - slow) / slow <= (fast2 + - slow) / slow)%Q
        by (apply Qmult_le_compat_r; [lra | exact Hinv]).
      lra. }
    pose proof (score_mono _ _
                  (if (r >=? Fin 55) && (r <=? Fin 65) then Fin 15 else Fin 5)
                  cross Hq) as H.
    cbn [mul] in H. apply H.
    destruct ((r >=? Fin 55) && (r <=? Fin 65)); auto.
  - assert ((slow + - fast2) / slow * 100 <= (slow + - fast1) / slow * 100)%Q
      as Hq.
    { assert ((slow + - fast2) / slow <= (slow + - fast1) / slow)%Q
        by (apply Qmult_le_compat_r; [lra | exact Hinv]).
      lra. }
    pose proof (score_mono _ _
                  (if (r >=? Fin 35) && (r <=? Fin 45) then Fin 15 else Fin 5)
                  cross Hq) as H.
    cbn [mul] in H. apply H.
    destruct ((r >=? Fin 35) && (r <=? Fin 45)); auto.
Qed.

Lemma confidence_monotone_witness :
  (calculateConfidence (Fin (51 # 100)) (Fin (50 # 100)) (Fin 60) BUY false
   <=? calculateConfidence (Fin (52 # 100)) (Fin (50 # 100)) (Fin 60) BUY false)
  = true.
Proof.
  apply (confidence_monotone (51 # 100) (52 # 100) (50 # 100) (Fin 60) false).
  - reflexivity.
  - discriminate.
Defined.
